(** * BTW ("Better than WAV"): a shallow embedding of [btw.h]

    The codec of [btw.h] is embedded as executable Rocq functions and the
    statements of its specification are settled against them.

    Conventions of the embedding.
    - C integers are [Z]; a conversion to a narrower or unsigned type is
      written out with [wrap_u] (unsigned, modulo [2^w]) and [wrap_s]
      (two's complement).  The data model is the LP64 one: [int] and
      [unsigned int] have 32 bits, [unsigned long], [long long] and
      [unsigned long long] have 64 bits, [unsigned char] has 8.
    - A byte buffer is a [list Z] of bytes.  Every access is checked against
      the length of the list: leaving the buffer is undefined in C and is
      the fault [OutOfBounds] here.  A position that passed that check is
      below the size of a C object, so the [++] that follows it cannot wrap
      around in [unsigned long long] and is left unwrapped.
    - [exit(EXIT_FAILURE)] is the fault [ExitFailure].
    - A pointer argument is an [option]: [None] is [NULL].  A store through
      a [NULL] pointer is undefined in C and is the fault [NullPointer]
      here.
    - A [while] loop whose trip count is not a loop counter is given fuel;
      running out of it is the fault [OutOfFuel], which the theorems show
      does not happen.  A [for] loop counts down its number of iterations.
    - A left shift of an [int] follows the machine: the count is taken
      modulo 32 and the result is wrapped to 32 bits (C leaves both the
      overflow and a count of 32 or more undefined). *)

From Stdlib Require Import ZArith List Lia Bool.
From stdpp Require Import base list.
From coqutil Require Import Z.bitblast.

Local Open Scope Z_scope.

(** ** C integer conversions *)

Definition wrap_u (w x : Z) : Z := x mod 2 ^ w.

Definition wrap_s (w x : Z) : Z := (x + 2 ^ (w - 1)) mod 2 ^ w - 2 ^ (w - 1).

(** [a << n] on operands of type [int]. *)
Definition int_shl (a n : Z) : Z := wrap_s 32 (Z.shiftl a (n mod 32)).

Definition b2z (b : bool) : Z := if b then 1 else 0.

(** ** Outcomes *)

Inductive fault : Set :=
| ExitFailure
| OutOfBounds
| OutOfFuel
| NullPointer.

Inductive result (A : Type) : Type :=
| Ok (a : A)
| Fault (f : fault).

Arguments Ok {A} a.
Arguments Fault {A} f.

Definition bind {A B : Type} (m : result A) (k : A -> result B) : result B :=
  match m with
  | Ok a => k a
  | Fault f => Fault f
  end.

#[global] Instance result_ret : MRet result := fun _ a => Ok a.
#[global] Instance result_bind : MBind result := fun _ _ k m => bind m k.

(** ** Data model *)

Record btw_def : Set := mk_def {
  channels : Z;
  bits_per_sample : Z;
  sample_rate : Z;
  sample_count : Z
}.

(** The three choices of [btw_sample_fmt]. *)
Inductive sample_fmt : Set :=
| BTW_U8
| BTW_S16
| BTW_S32.

Definition fmt_size (fmt : sample_fmt) : Z :=
  match fmt with
  | BTW_U8 => 1
  | BTW_S16 => 2
  | BTW_S32 => 4
  end.

(** Conversion of a [long long] to [btw_sample_fmt]. *)
Definition fmt_conv (fmt : sample_fmt) (x : Z) : Z :=
  match fmt with
  | BTW_U8 => wrap_u 8 x
  | BTW_S16 => wrap_s 16 x
  | BTW_S32 => wrap_s 32 x
  end.

Definition fmt_min (fmt : sample_fmt) : Z :=
  match fmt with
  | BTW_U8 => 0
  | BTW_S16 => -32768
  | BTW_S32 => -2147483648
  end.

Definition fmt_max (fmt : sample_fmt) : Z :=
  match fmt with
  | BTW_U8 => 255
  | BTW_S16 => 32767
  | BTW_S32 => 2147483647
  end.

Definition in_fmt (fmt : sample_fmt) (x : Z) : Prop :=
  fmt_min fmt <= x <= fmt_max fmt.

Definition BTW_BLOCK_SIZE : Z := 512.
Definition BTW_HEADER_SIZE : Z := 20.

Definition BTW_MAGIC : Z :=
  Z.lor (Z.lor (Z.lor 98 (Z.shiftl 116 8)) (Z.shiftl 119 16)) (Z.shiftl 102 24).

(** A bit position: a byte offset and a bit offset inside that byte. *)
Record cursor : Set := mk_cursor {
  c_pos : Z;
  c_bit : Z
}.

(** ** Buffers *)

Definition load {A : Type} (buf : list A) (pos : Z) : result A :=
  if pos <? 0 then Fault OutOfBounds
  else match buf !! Z.to_nat pos with
       | Some x => Ok x
       | None => Fault OutOfBounds
       end.

Definition store {A : Type} (buf : list A) (pos : Z) (x : A) : result (list A) :=
  if pos <? 0 then Fault OutOfBounds
  else if (Z.to_nat pos <? length buf)%nat then Ok (<[Z.to_nat pos := x]> buf)
  else Fault OutOfBounds.

(** [*p = v] through a pointer [p] that may be [NULL]. *)
Definition store_ptr {A : Type} (p : option A) (v : A) : result (option A) :=
  match p with
  | Some _ => Ok (Some v)
  | None => Fault NullPointer
  end.

(** ** Helpers of [btw.h] *)

Definition BTW_abs (number : Z) : Z :=
  if 0 <=? number then number else number * -1.

(** [while (number >>= 1) r++;] with [r] a [uint8_t].  A [long long] that
    is not negative is zero after at most 63 shifts; a negative one never
    becomes zero and the loop does not end. *)
Fixpoint bits_required_loop (fuel : nat) (number r : Z) : result Z :=
  match fuel with
  | O => Fault OutOfFuel
  | S fuel' =>
      let number := Z.shiftr number 1 in
      if number =? 0 then Ok r
      else bits_required_loop fuel' number (wrap_u 8 (r + 1))
  end.

Definition bits_required (number : Z) : result Z :=
  bits_required_loop 64 number 0.

(** ** Bit cursor: writers *)

Definition put_bit (output : list Z) (c : cursor) (bit : Z)
  : result (list Z * cursor) :=
  old ← load output (c_pos c);
  output ← store output (c_pos c)
             (Z.lor old (Z.land (Z.shiftl bit (c_bit c)) 255));
  let bit_pos := Z.rem (c_bit c + 1) 8 in
  Ok (output, mk_cursor (c_pos c + b2z (bit_pos =? 0)) bit_pos).

(** The [while (bits >= 8)] loop of [put_number]; [bits] is an
    [unsigned char], so 32 rounds of fuel are never used up. *)
Fixpoint put_number_loop (fuel : nat) (output : list Z) (out_pos bits number : Z)
  : result (list Z * Z * Z * Z) :=
  if 8 <=? bits then
    match fuel with
    | O => Fault OutOfFuel
    | S fuel' =>
        let cast := Z.land number 255 in
        output ← store output out_pos cast;
        put_number_loop fuel' output (out_pos + 1) (bits - 8) (Z.shiftr number 8)
    end
  else Ok (output, out_pos, bits, number).

Definition put_number (output : list Z) (c : cursor) (bits number : Z)
  : result (list Z * cursor) :=
  '(output, out_pos, bit_pos, bits, number) ←
    (if 8 - c_bit c <? bits then
       let cast := Z.land number (Z.shiftr 255 (c_bit c)) in
       old ← load output (c_pos c);
       output ← store output (c_pos c)
                  (Z.lor old (Z.land (Z.shiftl cast (c_bit c)) 255));
       let bits := bits - (8 - c_bit c) in
       let number := Z.shiftr number (8 - c_bit c) in
       '(output, out_pos, bits, number) ←
         put_number_loop 32 output (c_pos c + 1) bits number;
       Ok (output, out_pos, 0, bits, number)
     else Ok (output, c_pos c, c_bit c, bits, number));
  if bits =? 0 then Ok (output, mk_cursor out_pos bit_pos)
  else
    let cast := Z.land number (Z.shiftr 255 (8 - bits)) in
    old ← load output out_pos;
    output ← store output out_pos
               (wrap_u 8 (Z.lor old (Z.shiftl cast bit_pos)));
    let bit_pos := Z.rem (bit_pos + bits) 8 in
    Ok (output, mk_cursor (out_pos + b2z (bit_pos =? 0)) bit_pos).

(** The [while (ones >= 8)] loop of [put_ones].  Every round stores one
    byte, so fuel above the length of the buffer is never used up. *)
Fixpoint put_ones_loop (fuel : nat) (output : list Z) (out_pos ones : Z)
  : result (list Z * Z * Z) :=
  if 8 <=? ones then
    match fuel with
    | O => Fault OutOfFuel
    | S fuel' =>
        output ← store output out_pos 255;
        put_ones_loop fuel' output (out_pos + 1) (ones - 8)
    end
  else Ok (output, out_pos, ones).

Definition put_ones (output : list Z) (c : cursor) (ones : Z)
  : result (list Z * cursor) :=
  '(output, out_pos, bit_pos, ones) ←
    (if 8 - c_bit c <? ones then
       old ← load output (c_pos c);
       output ← store output (c_pos c)
                  (Z.lor old (Z.land (Z.shiftl 255 (c_bit c)) 255));
       let ones := ones - (8 - c_bit c) in
       '(output, out_pos, ones) ←
         put_ones_loop (S (length output)) output (c_pos c + 1) ones;
       Ok (output, out_pos, 0, ones)
     else Ok (output, c_pos c, c_bit c, ones));
  if ones =? 0 then Ok (output, mk_cursor out_pos bit_pos)
  else
    old ← load output out_pos;
    output ← store output out_pos
               (Z.lor old
                  (Z.land (Z.shiftl (Z.shiftr 255 (8 - ones)) bit_pos) 255));
    let bit_pos := Z.rem (bit_pos + ones) 8 in
    Ok (output, mk_cursor (out_pos + b2z (bit_pos =? 0)) bit_pos).

(** ** Bit cursor: readers *)

Definition grab_bit (input : list Z) (c : cursor) : result (Z * cursor) :=
  byte ← load input (c_pos c);
  let r := Z.land (Z.shiftr byte (c_bit c)) 1 in
  let bit_pos := Z.rem (c_bit c + 1) 8 in
  Ok (r, mk_cursor (c_pos c + b2z (bit_pos =? 0)) bit_pos).

(** The [while (bits >= 8)] loop of [grab_number].  Every round loads one
    byte, so fuel above the length of the buffer is never used up. *)
Fixpoint grab_number_loop (fuel : nat) (input : list Z) (in_pos bits tally r : Z)
  : result (Z * Z * Z * Z) :=
  if 8 <=? bits then
    match fuel with
    | O => Fault OutOfFuel
    | S fuel' =>
        byte ← load input in_pos;
        grab_number_loop fuel' input (in_pos + 1) (bits - 8) (tally + 8)
          (Z.lor r (int_shl byte tally))
    end
  else Ok (in_pos, bits, tally, r).

Definition grab_number (input : list Z) (c : cursor) (bits : Z)
  : result (Z * cursor) :=
  '(in_pos, bit_pos, bits, tally, r) ←
    (if 8 - c_bit c <? bits then
       byte ← load input (c_pos c);
       let r := Z.shiftr byte (c_bit c) in
       let bits := bits - (8 - c_bit c) in
       let tally := 8 - c_bit c in
       '(in_pos, bits, tally, r) ←
         grab_number_loop (S (length input)) input (c_pos c + 1) bits tally r;
       Ok (in_pos, 0, bits, tally, r)
     else Ok (c_pos c, c_bit c, bits, 0, 0));
  if bits =? 0 then Ok (r, mk_cursor in_pos bit_pos)
  else
    byte ← load input in_pos;
    let r :=
      Z.lor r
        (int_shl (Z.land (Z.shiftr byte bit_pos) (Z.shiftr 255 (8 - bits))) tally) in
    let bit_pos := Z.rem (bit_pos + bits) 8 in
    Ok (r, mk_cursor (in_pos + b2z (bit_pos =? 0)) bit_pos).

(** ** [btw_encode] *)

Section Encoder.

Variable samples : list Z.
Variable def : btw_def.

(** [samples[(i + l) * def->channels + chan]]; the index is computed in
    [unsigned long long]. *)
Definition sample_at (i l chan : Z) : result Z :=
  load samples (wrap_u 64 (wrap_u 64 (wrap_u 64 (i + l) * channels def) + chan)).

(** First inner loop: the sum of the absolute differences of one channel
    of one block.  At most 512 terms below [2^33]: no overflow of
    [long long]. *)
Fixpoint av_diff_loop (n : nat) (i chan l prev_sample av_diff : Z) : result Z :=
  match n with
  | O => Ok av_diff
  | S n' =>
      cur_sample ← sample_at i l chan;
      let diff := cur_sample - prev_sample in
      av_diff_loop n' i chan (l + 1) cur_sample (av_diff + BTW_abs diff)
  end.

(** Second inner loop: one codeword per sample. *)
Fixpoint encode_samples (n : nat) (i chan rice_len l prev_sample : Z)
    (output : list Z) (c : cursor) : result (list Z * cursor) :=
  match n with
  | O => Ok (output, c)
  | S n' =>
      cur_sample ← sample_at i l chan;
      let diff := cur_sample - prev_sample in
      '(output, c) ← put_bit output c (b2z (diff <? 0));
      let diff := BTW_abs diff in
      let rice_un := wrap_u 64 (Z.shiftr diff rice_len) in
      '(output, c) ← put_ones output c (wrap_u 32 rice_un);
      '(output, c) ← put_bit output c 0;
      '(output, c) ← put_number output c (wrap_u 8 rice_len) diff;
      encode_samples n' i chan rice_len (l + 1) cur_sample output c
  end.

(** The loop over the channels of one block. *)
Fixpoint encode_channels (n : nat) (i cap bits_per_rice_len chan : Z)
    (output : list Z) (c : cursor) : result (list Z * cursor) :=
  match n with
  | O => Ok (output, c)
  | S n' =>
      av_diff ← av_diff_loop (Z.to_nat cap) i chan 0 0 0;
      rice_len ← bits_required (Z.quot av_diff BTW_BLOCK_SIZE);
      '(output, c) ← put_number output c (wrap_u 8 bits_per_rice_len) rice_len;
      '(output, c) ← encode_samples (Z.to_nat cap) i chan rice_len 0 0 output c;
      encode_channels n' i cap bits_per_rice_len (chan + 1) output c
  end.

(** [while (i < def->sample_count)]: every round advances [i] by at least
    one, so [sample_count] rounds of fuel are never used up. *)
Fixpoint encode_blocks (fuel : nat) (bits_per_rice_len i : Z)
    (output : list Z) (c : cursor) : result (list Z * cursor) :=
  if i <? sample_count def then
    match fuel with
    | O => Fault OutOfFuel
    | S fuel' =>
        let cap :=
          if sample_count def - i <? BTW_BLOCK_SIZE
          then wrap_u 32 (sample_count def - i)
          else BTW_BLOCK_SIZE in
        '(output, c) ←
          encode_channels (Z.to_nat (channels def)) i cap bits_per_rice_len 0
            output c;
        encode_blocks fuel' bits_per_rice_len (i + cap) output c
    end
  else Ok (output, c).

Definition max_len : Z :=
  Z.quot
    (wrap_u 64 (wrap_u 64 (channels def * sample_count def) * bits_per_sample def))
    8 + 1024.

(** The header: the magic and the four fields, from byte 0 on. *)
Definition put_header (output : list Z) : result (list Z * cursor) :=
  let m := mk_cursor 0 0 in
  '(output, m) ← put_number output m 32 BTW_MAGIC;
  '(output, m) ← put_number output m 64 (wrap_s 64 (sample_count def));
  '(output, m) ← put_number output m 16 (channels def);
  '(output, m) ← put_number output m 16 (bits_per_sample def);
  put_number output m 32 (wrap_s 64 (sample_rate def)).

Definition encode_body : result (list Z * Z) :=
  bits_per_rice_len ← bits_required (bits_per_sample def);
  let output := replicate (Z.to_nat max_len) 0 in
  '(output, m) ← put_header output;
  let out_len := c_pos m in
  '(output, c) ←
    encode_blocks (Z.to_nat (sample_count def)) bits_per_rice_len 0
      output (mk_cursor out_len 0);
  Ok (output, if c_bit c =? 0 then c_pos c else c_pos c + 1).

End Encoder.

(** The arguments [samples], [def] and [out_len] are pointers: [None] is
    [NULL], and [Some v] for [out_len] is a pointer to an
    [unsigned long long] that holds [v].  The function stores 0 in
    [*out_len] before it tests its arguments, the test of [out_len] among
    them.  The result is the buffer [output] and the value left in
    [*out_len]. *)
Definition btw_encode (samples : option (list Z)) (def : option btw_def)
    (out_len : option Z) : result (list Z * Z) :=
  out_len ← store_ptr out_len 0;
  match out_len, def, samples with
  | Some _, Some def, Some samples =>
      if (channels def =? 0) || (sample_rate def =? 0)
         || (sample_count def =? 0) || (bits_per_sample def =? 0)
      then Fault ExitFailure
      else encode_body samples def
  | _, _, _ => Fault ExitFailure
  end.

(** ** [btw_read_metadata] *)

Definition btw_read_metadata (data : option (list Z)) (def : option btw_def)
  : result (option btw_def) :=
  match def, data with
  | Some d, Some data =>
      b0 ← load data 0;
      if negb (b0 =? 98) then Ok def else
      b1 ← load data 1;
      if negb (b1 =? 116) then Ok def else
      b2 ← load data 2;
      if negb (b2 =? 119) then Ok def else
      b3 ← load data 3;
      if negb (b3 =? 102) then Ok def else
      let m := mk_cursor 4 0 in
      '(sc, m) ← grab_number data m 64;
      '(ch, m) ← grab_number data m 16;
      '(bps, m) ← grab_number data m 16;
      '(sr, m) ← grab_number data m 32;
      Ok (Some (mk_def (wrap_u 32 ch) (wrap_u 32 bps) (wrap_u 64 sr) (wrap_u 64 sc)))
  | _, _ => Ok def
  end.

(** ** [btw_decode] *)

Section Decoder.

Variable fmt : sample_fmt.
Variable data : list Z.
Variable def : btw_def.

(** [while (grab_bit(...)) diff += 1 << rice_len;].  Every round reads
    one bit of [data], so fuel above the number of its bits is never used
    up. *)
Fixpoint grab_unary (fuel : nat) (rice_len diff : Z) (c : cursor)
  : result (Z * cursor) :=
  match fuel with
  | O => Fault OutOfFuel
  | S fuel' =>
      '(bit, c) ← grab_bit data c;
      if bit =? 0 then Ok (diff, c)
      else grab_unary fuel' rice_len (wrap_s 64 (diff + int_shl 1 rice_len)) c
  end.

(** The loop over the samples of one channel of one block.  The state is
    the cursor, the output buffer and [*out_len]. *)
Fixpoint decode_samples (n : nat) (i chan rice_len j prev_sample : Z)
    (c : cursor) (output : list (option Z)) (out_len : Z)
  : result (cursor * list (option Z) * Z) :=
  match n with
  | O => Ok (c, output, out_len)
  | S n' =>
      '(sign, c) ← grab_bit data c;
      '(diff, c) ← grab_unary (S (8 * length data)) rice_len 0 c;
      '(r, c) ← grab_number data c rice_len;
      let diff := Z.lor diff r in
      let diff := if sign =? 0 then diff else wrap_s 64 (diff * -1) in
      let cur := fmt_conv fmt (wrap_s 64 (prev_sample + diff)) in
      output ←
        store output
          (wrap_u 64 (wrap_u 64 (wrap_u 64 (i + j) * channels def) + chan))
          (Some cur);
      decode_samples n' i chan rice_len (j + 1) cur c output
        (wrap_u 64 (out_len + 1))
  end.

Fixpoint decode_channels (n : nat) (i cap bits_per_rice_len chan : Z)
    (c : cursor) (output : list (option Z)) (out_len : Z)
  : result (cursor * list (option Z) * Z) :=
  match n with
  | O => Ok (c, output, out_len)
  | S n' =>
      '(r, c) ← grab_number data c bits_per_rice_len;
      let rice_len := wrap_s 32 r in
      '(c, output, out_len) ←
        decode_samples (Z.to_nat cap) i chan rice_len 0 0 c output out_len;
      decode_channels n' i cap bits_per_rice_len (chan + 1) c output out_len
  end.

(** One round of [while (i < def->sample_count)]: all channels of a
    block, then the two statements that move the cursor to the next
    byte. *)
Definition decode_block (i cap bits_per_rice_len : Z)
    (c : cursor) (output : list (option Z)) (out_len : Z)
  : result (cursor * list (option Z) * Z) :=
  '(c, output, out_len) ←
    decode_channels (Z.to_nat (channels def)) i cap bits_per_rice_len 0
      c output out_len;
  Ok (mk_cursor (c_pos c + b2z (negb (c_bit c =? 0))) 0, output, out_len).

Fixpoint decode_blocks (fuel : nat) (bits_per_rice_len i : Z)
    (c : cursor) (output : list (option Z)) (out_len : Z)
  : result (cursor * list (option Z) * Z) :=
  if i <? sample_count def then
    match fuel with
    | O => Fault OutOfFuel
    | S fuel' =>
        let cap :=
          if sample_count def - i <? BTW_BLOCK_SIZE
          then sample_count def - i
          else BTW_BLOCK_SIZE in
        '(c, output, out_len) ←
          decode_block i cap bits_per_rice_len c output out_len;
        decode_blocks fuel' bits_per_rice_len (i + cap) c output out_len
    end
  else Ok (c, output, out_len).

(** [malloc(def->sample_count * def->channels * sizeof(btw_sample_fmt))]:
    the size is computed in [unsigned long long]; the elements of the
    block are indeterminate ([None]) until assigned. *)
Definition decode_alloc : list (option Z) :=
  replicate
    (Z.to_nat
       (wrap_u 64 (wrap_u 64 (sample_count def * channels def) * fmt_size fmt)
        / fmt_size fmt))
    None.

Definition decode_body : result (list (option Z) * Z) :=
  let output := decode_alloc in
  bits_per_rice_len ← bits_required (bits_per_sample def);
  '(c, output, out_len) ←
    decode_blocks (Z.to_nat (sample_count def)) bits_per_rice_len 0
      (mk_cursor 20 0) output 0;
  Ok (output, out_len).

End Decoder.

(** The arguments [data] and [def] are pointers: [None] is [NULL].  The
    result is what [*def] holds on return, and the returned buffer with
    the value left in [*out_len] ([None] where [NULL] is returned). *)
Definition btw_decode (fmt : sample_fmt) (data : option (list Z))
    (def : option btw_def)
  : result (option btw_def * option (list (option Z) * Z)) :=
  match def, data with
  | Some _, Some bytes =>
      def ← btw_read_metadata data def;
      match def with
      | Some d =>
          if (channels d =? 0) || (sample_rate d =? 0)
             || (sample_count d =? 0) || (bits_per_sample d =? 0)
          then Ok (def, None)
          else
            r ← decode_body fmt bytes d;
            Ok (def, Some r)
      | None => Ok (def, None)
      end
  | _, _ => Ok (def, None)
  end.

(** ** The buffer as a bit stream

    Bit [k] of byte [j] is bit [8 * j + k] of the stream: a buffer is the
    little-endian number of its bytes.  These definitions serve the
    statements and proofs below; the code above does not use them. *)

Fixpoint le_combine (l : list Z) : Z :=
  match l with
  | [] => 0
  | b :: l' => b + 256 * le_combine l'
  end.

Definition bytes_ok (l : list Z) : Prop := Forall (fun b => 0 <= b < 256) l.

(** The bit index of a cursor. *)
Definition cbits (c : cursor) : Z := 8 * c_pos c + c_bit c.

Definition cursor_ok (c : cursor) : Prop := 0 <= c_pos c /\ 0 <= c_bit c < 8.

(** A writer's state: the cursor is inside the buffer (or at its end) and
    no bit at or after the cursor is set. *)
Definition wf_w (buf : list Z) (c : cursor) : Prop :=
  bytes_ok buf /\ cursor_ok c /\ cbits c <= 8 * Z.of_nat (length buf)
  /\ le_combine buf < 2 ^ cbits c.

(** What a writer of [n] bits of value [v] does from the state [buf], [c]. *)
Definition wspec (r : result (list Z * cursor)) (buf : list Z) (c : cursor)
    (n v : Z) : Prop :=
  match r with
  | Ok (buf', c') =>
      cbits c + n <= 8 * Z.of_nat (length buf)
      /\ wf_w buf' c' /\ length buf' = length buf
      /\ cbits c' = cbits c + n
      /\ le_combine buf' = le_combine buf + v * 2 ^ cbits c
  | Fault f => f = OutOfBounds /\ 8 * Z.of_nat (length buf) < cbits c + n
  end.

(** What a reader of [n] bits does on the stream [data] from the cursor
    [c]: it returns the [n] bits found there, unless they lie outside. *)
Definition rspec (r : result (Z * cursor)) (data : list Z) (c : cursor)
    (n : Z) : Prop :=
  match r with
  | Ok (v, c') =>
      cbits c + n <= 8 * Z.of_nat (length data)
      /\ cursor_ok c' /\ cbits c' = cbits c + n
      /\ v = (le_combine data / 2 ^ cbits c) mod 2 ^ n
  | Fault f => f = OutOfBounds /\ 8 * Z.of_nat (length data) < cbits c + n
  end.

(** A writer of [n] bits whose value is left open: the stream below the
    cursor is kept. *)
Definition wframe (r : result (list Z * cursor)) (buf : list Z) (c : cursor)
    (n : Z) : Prop :=
  match r with
  | Ok (buf', c') =>
      cbits c + n <= 8 * Z.of_nat (length buf)
      /\ wf_w buf' c' /\ length buf' = length buf
      /\ cbits c' = cbits c + n
      /\ le_combine buf' mod 2 ^ cbits c = le_combine buf
  | Fault f => f = OutOfBounds /\ 8 * Z.of_nat (length buf) < cbits c + n
  end.

(** [data] holds, below the cursor [c], the stream that a writer left in
    [buf]. *)
Definition extends (data buf : list Z) (c : cursor) : Prop :=
  bytes_ok data /\ cbits c <= 8 * Z.of_nat (length data)
  /\ le_combine data mod 2 ^ cbits c = le_combine buf.

(** ** The layout of a stream, in the words of the specification

    A block record is the Rice parameter in [bits_per_rice_len] bits and,
    per sample, a sign bit, the quotient in unary, a terminating zero and
    [rice_len] bits of remainder.  The Rice parameter is the bit length,
    in the floor sense, of the sum of the absolute differences divided by
    the block size. *)

(** Every value of the three sample types. *)
Definition sample_ok (x : Z) : Prop := -2147483648 <= x <= 2147483647.

Definition bit_length (n : Z) : Z := Z.log2 n.

Fixpoint sum_abs_diff (prev : Z) (xs : list Z) : Z :=
  match xs with
  | [] => 0
  | x :: xs' => Z.abs (x - prev) + sum_abs_diff x xs'
  end.

Definition spec_rice_len (xs : list Z) : Z :=
  bit_length (sum_abs_diff 0 xs / BTW_BLOCK_SIZE).

Definition codeword_bits (k diff : Z) : Z := 2 + Z.shiftr (Z.abs diff) k + k.

Fixpoint codewords_bits (k prev : Z) (xs : list Z) : Z :=
  match xs with
  | [] => 0
  | x :: xs' => codeword_bits k (x - prev) + codewords_bits k x xs'
  end.

Definition record_bits (bits_per_rice_len : Z) (xs : list Z) : Z :=
  bits_per_rice_len + codewords_bits (spec_rice_len xs) 0 xs.

Section Layout.

Variable samples : list Z.
Variable def : btw_def.

Definition sample_index (i l chan : Z) : Z :=
  wrap_u 64 (wrap_u 64 (wrap_u 64 (i + l) * channels def) + chan).

Definition sample_val (i l chan : Z) : Z :=
  default 0 (samples !! Z.to_nat (sample_index i l chan)).

(** The [n] samples of channel [chan] from frame [i + l] on. *)
Fixpoint channel_samples (n : nat) (i chan l : Z) : list Z :=
  match n with
  | O => []
  | S n' => sample_val i l chan :: channel_samples n' i chan (l + 1)
  end.

(** The records of [n] channels of a block, from channel [chan] on. *)
Fixpoint channels_bits (n : nat) (i cap bits_per_rice_len chan : Z) : Z :=
  match n with
  | O => 0
  | S n' =>
      record_bits bits_per_rice_len (channel_samples (Z.to_nat cap) i chan 0)
      + channels_bits n' i cap bits_per_rice_len (chan + 1)
  end.

(** The records of the blocks from frame [i] on, at most [n] of them. *)
Fixpoint blocks_bits (n : nat) (bits_per_rice_len i : Z) : Z :=
  match n with
  | O => 0
  | S n' =>
      if i <? sample_count def then
        let cap := Z.min BTW_BLOCK_SIZE (sample_count def - i) in
        channels_bits (Z.to_nat (channels def)) i cap bits_per_rice_len 0
        + blocks_bits n' bits_per_rice_len (i + cap)
      else 0
  end.

(** The length in bits of the whole stream: the 20 bytes of the header
    and the records of all blocks, with no padding between them. *)
Definition stream_bits : Z :=
  8 * BTW_HEADER_SIZE
  + blocks_bits (Z.to_nat (sample_count def))
      (bit_length (bits_per_sample def)) 0.

(** The samples have the shape [sample_count * channels] and values of a
    sample type; the fields are those of a [btw_def]. *)
Definition shape_ok : Prop :=
  0 < channels def < 2 ^ 32 /\ 0 < bits_per_sample def < 2 ^ 32
  /\ 0 < sample_rate def < 2 ^ 64 /\ 0 < sample_count def < 2 ^ 64
  /\ Z.of_nat (length samples) = sample_count def * channels def
  /\ sample_count def * channels def < 2 ^ 64
  /\ Forall sample_ok samples.

End Layout.

(** The samples of frames [i + l], ..., [i + l + n - 1] of channel [chan]
    are inside the buffer [samples]. *)
Definition readable (samples : list Z) (def : btw_def) (n : nat) (i chan l : Z)
  : Prop :=
  forall l', l <= l' < l + Z.of_nat n ->
    0 <= sample_index def i l' chan < Z.of_nat (length samples).

(** The 160 bits of the header as a number: the magic, then the four
    fields in the widths of the format. *)
Definition header_value (def : btw_def) : Z :=
  BTW_MAGIC + sample_count def * 2 ^ 32
  + (channels def mod 2 ^ 16) * 2 ^ 96
  + (bits_per_sample def mod 2 ^ 16) * 2 ^ 112
  + (sample_rate def mod 2 ^ 32) * 2 ^ 128.

(** The Rice parameter of channel [chan] of the block of [cap] frames at
    frame [i] can be written in [bits_per_rice_len] bits, and
    [1 << rice_len] is an [int]. *)
Definition rice_fits (samples : list Z) (def : btw_def) (i cap chan : Z) : Prop :=
  let k := spec_rice_len (channel_samples samples def (Z.to_nat cap) i chan 0) in
  k <= 30 /\ k < 2 ^ bit_length (bits_per_sample def).

(** The Rice parameter of channel [chan] of the block of [cap] frames at
    frame [i] can be written in the [bits_per_rice_len] bits of its
    field. *)
Definition rice_in_field (samples : list Z) (def : btw_def) (i cap chan : Z)
  : Prop :=
  spec_rice_len (channel_samples samples def (Z.to_nat cap) i chan 0)
  < 2 ^ bit_length (bits_per_sample def).

(** The fields of a [btw_def] are values of their C types. *)
Definition def_ok (d : btw_def) : Prop :=
  0 <= channels d < 2 ^ 32 /\ 0 <= bits_per_sample d < 2 ^ 32
  /\ 0 <= sample_rate d < 2 ^ 64 /\ 0 <= sample_count d < 2 ^ 64.

(** Element [idx] of a decoder's output buffer has been assigned. *)
Definition assigned (out : list (option Z)) (idx : nat) : Prop :=
  exists v, out !! idx = Some (Some v).

(** What every run of a reader of [n] bits does, whatever the bits are:
    it returns with its cursor moved by [n] bits, or it has left the
    stream. *)
Definition rshape {A : Type} (r : result (A * cursor)) (data : list Z) (c : cursor)
    (n : Z) : Prop :=
  match r with
  | Ok (_, c') =>
      cbits c + n <= 8 * Z.of_nat (length data)
      /\ cursor_ok c' /\ cbits c' = cbits c + n
  | Fault f => f = OutOfBounds /\ 8 * Z.of_nat (length data) < cbits c + n
  end.

(** ** The value of a stream, in the words of the format

    The bits of a stream as a number, first bit least significant.  A
    codeword is the sign of the difference, the quotient
    [|diff| >> rice_len] in ones, a zero, and the low [rice_len] bits of
    [|diff|]; a record is the low [bits_per_rice_len] bits of the Rice
    parameter and the codewords of the samples; a block is the records of
    its channels, and the stream is the header and the blocks. *)

Definition codeword_value (k diff : Z) : Z :=
  let q := Z.shiftr (Z.abs diff) k in
  b2z (diff <? 0) + 2 * (2 ^ q - 1) + 2 ^ (q + 2) * (Z.abs diff mod 2 ^ k).

Fixpoint codewords_value (k prev : Z) (xs : list Z) : Z :=
  match xs with
  | [] => 0
  | x :: xs' =>
      codeword_value k (x - prev)
      + 2 ^ codeword_bits k (x - prev) * codewords_value k x xs'
  end.

Definition record_value (bits_per_rice_len : Z) (xs : list Z) : Z :=
  spec_rice_len xs mod 2 ^ bits_per_rice_len
  + 2 ^ bits_per_rice_len * codewords_value (spec_rice_len xs) 0 xs.

Section StreamValue.

Variable samples : list Z.
Variable def : btw_def.

Fixpoint channels_value (n : nat) (i cap bits_per_rice_len chan : Z) : Z :=
  match n with
  | O => 0
  | S n' =>
      let xs := channel_samples samples def (Z.to_nat cap) i chan 0 in
      record_value bits_per_rice_len xs
      + 2 ^ record_bits bits_per_rice_len xs
        * channels_value n' i cap bits_per_rice_len (chan + 1)
  end.

Fixpoint blocks_value (n : nat) (bits_per_rice_len i : Z) : Z :=
  match n with
  | O => 0
  | S n' =>
      if i <? sample_count def then
        let cap := Z.min BTW_BLOCK_SIZE (sample_count def - i) in
        channels_value (Z.to_nat (channels def)) i cap bits_per_rice_len 0
        + 2 ^ channels_bits samples def (Z.to_nat (channels def)) i cap
                bits_per_rice_len 0
          * blocks_value n' bits_per_rice_len (i + cap)
      else 0
  end.

Definition stream_value : Z :=
  header_value def
  + 2 ^ (8 * BTW_HEADER_SIZE)
    * blocks_value (Z.to_nat (sample_count def))
        (bit_length (bits_per_sample def)) 0.

End StreamValue.

(** Running the binds of [result] in a goal and its hypotheses. *)
Ltac unbind := cbn [mbind result_bind bind mret result_ret] in *.

(** * Proofs *)

(** * Arithmetic of the embedding *)

Lemma pow2_pos (n : Z) : 0 <= n -> 0 < 2 ^ n.
Proof. intros; apply Z.pow_pos_nonneg; lia. Qed.

Lemma wrap_u_small (w x : Z) : 0 <= x < 2 ^ w -> wrap_u w x = x.
Proof. intros; unfold wrap_u; apply Z.mod_small; lia. Qed.

Lemma wrap_u_range (w x : Z) : 0 <= w -> 0 <= wrap_u w x < 2 ^ w.
Proof. intros; unfold wrap_u; apply Z.mod_pos_bound, pow2_pos; lia. Qed.

Lemma wrap_s_small (w x : Z) :
  0 < w -> - 2 ^ (w - 1) <= x < 2 ^ (w - 1) -> wrap_s w x = x.
Proof.
  intros Hw Hx; unfold wrap_s.
  replace (2 ^ w) with (2 * 2 ^ (w - 1))
    by (rewrite <- Z.pow_succ_r by lia; f_equal; lia).
  rewrite Z.mod_small; lia.
Qed.

Lemma rem_8 (x : Z) : 0 <= x -> Z.rem x 8 = x mod 8.
Proof. intros; apply Z.rem_mod_nonneg; lia. Qed.

Lemma shiftr_255 (k : Z) : 0 <= k <= 8 -> Z.shiftr 255 k = Z.ones (8 - k).
Proof.
  intros H.
  assert (k = 0 \/ k = 1 \/ k = 2 \/ k = 3 \/ k = 4 \/ k = 5 \/ k = 6 \/ k = 7 \/ k = 8)
    as Hk by lia.
  repeat (destruct Hk as [-> | Hk]; [reflexivity |]); subst; reflexivity.
Qed.

Lemma land_255 (x : Z) : Z.land x 255 = x mod 256.
Proof. change 255 with (Z.ones 8); rewrite Z.land_ones by lia; reflexivity. Qed.

Lemma lor_disjoint (a b k : Z) :
  0 <= k -> 0 <= a < 2 ^ k -> Z.lor a (b * 2 ^ k) = a + b * 2 ^ k.
Proof.
  intros Hk Ha. apply Z.or_to_plus.
  rewrite <- (Z.mod_small a (2 ^ k)) by lia.
  rewrite <- Z.shiftl_mul_pow2 by lia.
  Z.bitblast. rewrite (Z.testbit_neg_r b) by lia. apply andb_false_r.
Qed.

Lemma int_shl_small (a n : Z) :
  0 <= n -> 0 <= a -> a * 2 ^ n < 2 ^ 31 -> int_shl a n = a * 2 ^ n.
Proof.
  intros Hn Ha Hlt. unfold int_shl.
  destruct (Z.eq_dec a 0) as [-> | Hne].
  - rewrite Z.shiftl_0_l. reflexivity.
  - assert (n < 31).
    { destruct (Z_lt_ge_dec n 31); [assumption |].
      assert (2 ^ 31 <= 2 ^ n) by (apply Z.pow_le_mono_r; lia).
      nia. }
    rewrite Z.mod_small by lia. rewrite Z.shiftl_mul_pow2 by lia.
    apply wrap_s_small; [lia |]. change (2 ^ (32 - 1)) with (2 ^ 31).
    assert (0 < 2 ^ n) by (apply pow2_pos; lia). nia.
Qed.

(** Splitting a number at bit [a]. *)
Lemma mod_pow2_split (x a b : Z) :
  0 <= a -> 0 <= b ->
  x mod 2 ^ (a + b) = x mod 2 ^ a + ((x / 2 ^ a) mod 2 ^ b) * 2 ^ a.
Proof.
  intros Ha Hb. rewrite Z.pow_add_r by lia.
  rewrite Z.rem_mul_r by (try apply Z.pow_nonzero; try apply pow2_pos; lia). lia.
Qed.

Lemma mod_mod_pow2 (x a b : Z) :
  0 <= a <= b -> (x mod 2 ^ b) mod 2 ^ a = x mod 2 ^ a.
Proof.
  intros H. replace b with (a + (b - a)) by lia.
  rewrite mod_pow2_split by lia.
  rewrite Z.mod_add by (apply Z.pow_nonzero; lia).
  apply Z.mod_mod. apply Z.pow_nonzero; lia.
Qed.

(** Reading a field back from any stream that extends the written one. *)
Lemma field_extract (D S v p n : Z) :
  0 <= p -> 0 <= n -> 0 <= S < 2 ^ p -> 0 <= v < 2 ^ n ->
  D mod 2 ^ (p + n) = S + v * 2 ^ p ->
  (D / 2 ^ p) mod 2 ^ n = v /\ D mod 2 ^ p = S.
Proof.
  intros Hp Hn HS Hv HD.
  rewrite mod_pow2_split in HD by lia.
  assert (0 < 2 ^ p) by (apply pow2_pos; lia).
  assert (0 < 2 ^ n) by (apply pow2_pos; lia).
  pose proof (Z.mod_pos_bound D (2 ^ p) ltac:(lia)).
  pose proof (Z.mod_pos_bound (D / 2 ^ p) (2 ^ n) ltac:(lia)).
  assert ((D / 2 ^ p) mod 2 ^ n = v) by nia.
  split; [assumption | nia].
Qed.

(** * [bits_required] *)

Lemma bits_required_loop_log2 (fuel : nat) :
  forall number r,
    0 <= number < 2 ^ Z.of_nat fuel -> 0 <= r -> r + Z.of_nat fuel <= 256 ->
    (0 < fuel)%nat ->
    bits_required_loop fuel number r = Ok (r + Z.log2 number).
Proof.
  induction fuel as [| fuel IH]; intros number r Hn Hr Hf Hpos; [lia |].
  cbn [bits_required_loop].
  pose proof (Z.shiftr_div_pow2 number 1 ltac:(lia)) as Hdiv.
  change (2 ^ 1) with 2 in Hdiv.
  destruct (Z.eqb_spec (Z.shiftr number 1) 0) as [E | E].
  - assert (0 <= number < 2) as Hsmall
      by (rewrite Hdiv in E; apply Z.div_small_iff in E; lia).
    assert (number = 0 \/ number = 1) as [-> | ->] by lia; f_equal; cbn; lia.
  - assert (2 <= number).
    { destruct (Z_lt_ge_dec number 2); [| lia].
      exfalso; apply E; rewrite Hdiv; apply Z.div_small; lia. }
    assert (Z.shiftr number 1 < 2 ^ Z.of_nat fuel).
    { rewrite Hdiv. apply Z.div_lt_upper_bound; [lia |].
      rewrite <- Z.pow_succ_r by lia. rewrite <- Nat2Z.inj_succ. lia. }
    assert (1 <= Z.log2 number).
    { change 1 with (Z.log2 2). apply Z.log2_le_mono; lia. }
    destruct fuel as [| fuel'].
    { rewrite Hdiv in *. cbn in *. assert (number / 2 = 0) by lia. lia. }
    rewrite IH; try lia.
    + f_equal. rewrite wrap_u_small by (change (2 ^ 8) with 256; lia).
      rewrite Z.log2_shiftr by lia. lia.
    + split; [rewrite Hdiv; apply Z.div_pos; lia | assumption].
    + pose proof (wrap_u_range 8 (r + 1)); lia.
    + rewrite wrap_u_small by (change (2 ^ 8) with 256; lia). lia.
Qed.

Lemma bits_required_log2 (number : Z) :
  0 <= number < 2 ^ 63 -> bits_required number = Ok (Z.log2 number).
Proof.
  intros H. unfold bits_required.
  rewrite bits_required_loop_log2; [reflexivity | | lia | lia | lia].
  change (Z.of_nat 64) with 64.
  assert (2 ^ 63 < 2 ^ 64) by (apply Z.pow_lt_mono_r; lia). lia.
Qed.

(** * Buffers as streams *)

Lemma load_inv {A : Type} (buf : list A) (pos : Z) :
  match load buf pos with
  | Ok x => 0 <= pos < Z.of_nat (length buf) /\ buf !! Z.to_nat pos = Some x
  | Fault f => f = OutOfBounds /\ (pos < 0 \/ Z.of_nat (length buf) <= pos)
  end.
Proof.
  unfold load. destruct (Z.ltb_spec pos 0); [split; [reflexivity | lia] |].
  destruct (buf !! Z.to_nat pos) eqn:E.
  - apply lookup_lt_Some in E as Hlt. split; [lia | reflexivity].
  - apply lookup_ge_None in E. split; [reflexivity | lia].
Qed.

Lemma store_inv {A : Type} (buf : list A) (pos : Z) (x : A) :
  match store buf pos x with
  | Ok buf' => 0 <= pos < Z.of_nat (length buf)
               /\ buf' = <[Z.to_nat pos := x]> buf
  | Fault f => f = OutOfBounds /\ (pos < 0 \/ Z.of_nat (length buf) <= pos)
  end.
Proof.
  unfold store. destruct (Z.ltb_spec pos 0); [split; [reflexivity | lia] |].
  destruct (Nat.ltb_spec (Z.to_nat pos) (length buf)).
  - split; [lia | reflexivity].
  - split; [reflexivity | lia].
Qed.

Lemma load_ok {A : Type} (buf : list A) (pos : Z) (x : A) :
  0 <= pos -> buf !! Z.to_nat pos = Some x -> load buf pos = Ok x.
Proof.
  intros Hp E. unfold load. destruct (Z.ltb_spec pos 0); [lia |]. now rewrite E.
Qed.

Lemma store_ok {A : Type} (buf : list A) (pos : Z) (x : A) :
  0 <= pos < Z.of_nat (length buf) ->
  store buf pos x = Ok (<[Z.to_nat pos := x]> buf).
Proof.
  intros Hp. unfold store. destruct (Z.ltb_spec pos 0); [lia |].
  destruct (Nat.ltb_spec (Z.to_nat pos) (length buf)); [reflexivity | lia].
Qed.

Lemma le_combine_bound (l : list Z) :
  bytes_ok l -> 0 <= le_combine l < 2 ^ (8 * Z.of_nat (length l)).
Proof.
  induction 1 as [| b l Hb Hl IH]; [cbn; lia |].
  cbn [le_combine length]. rewrite Nat2Z.inj_succ.
  replace (8 * Z.succ (Z.of_nat (length l))) with (8 + 8 * Z.of_nat (length l)) by lia.
  rewrite Z.pow_add_r by lia. change (2 ^ 8) with 256. lia.
Qed.

Lemma le_combine_replicate (n : nat) : le_combine (replicate n 0) = 0.
Proof. induction n as [| n IH]; cbn; [reflexivity | rewrite IH; reflexivity]. Qed.

Lemma bytes_ok_replicate (n : nat) : bytes_ok (replicate n 0).
Proof. apply Forall_replicate. lia. Qed.

Lemma pow2_8S (k : nat) : 2 ^ (8 * Z.of_nat (S k)) = 256 * 2 ^ (8 * Z.of_nat k).
Proof.
  rewrite Nat2Z.inj_succ.
  replace (8 * Z.succ (Z.of_nat k)) with (8 + 8 * Z.of_nat k) by lia.
  rewrite Z.pow_add_r by lia. reflexivity.
Qed.

Lemma le_combine_lookup (l : list Z) :
  bytes_ok l ->
  forall (k : nat) (b : Z),
    l !! k = Some b -> b = (le_combine l / 2 ^ (8 * Z.of_nat k)) mod 256.
Proof.
  induction 1 as [| x l Hx Hl IH]; intros k b E; [discriminate |].
  destruct k as [| k]; cbn [le_combine].
  - cbn in E. injection E as ->. change (2 ^ (8 * Z.of_nat 0)) with 1.
    rewrite Z.div_1_r.
    rewrite (Z.mul_comm 256), Z.mod_add by lia. symmetry; apply Z.mod_small; lia.
  - cbn in E. rewrite pow2_8S.
    rewrite <- Z.div_div by (try apply pow2_pos; lia).
    rewrite (Z.mul_comm 256), Z.div_add by lia.
    rewrite (Z.div_small x 256) by lia. rewrite Z.add_0_l. now apply IH.
Qed.

Lemma le_combine_insert (l : list Z) (k : nat) (old new : Z) :
  l !! k = Some old ->
  le_combine (<[k := new]> l)
  = le_combine l + (new - old) * 2 ^ (8 * Z.of_nat k).
Proof.
  revert k; induction l as [| x l IH]; intros k E; [discriminate |].
  destruct k as [| k].
  - cbn in E. injection E as ->. cbn. lia.
  - cbn in E. specialize (IH k E).
    change (<[S k := new]> (x :: l)) with (x :: <[k := new]> l).
    cbn [le_combine]. rewrite IH, pow2_8S. lia.
Qed.

Lemma bytes_ok_insert (l : list Z) (k : nat) (x : Z) :
  bytes_ok l -> 0 <= x < 256 -> bytes_ok (<[k := x]> l).
Proof. intros Hl Hx. apply Forall_insert; assumption. Qed.

(** The byte under a writer's cursor holds nothing at or above the
    cursor's bit. *)
Lemma byte_below_cursor (buf : list Z) (pos bp old : Z) :
  bytes_ok buf -> 0 <= pos -> 0 <= bp <= 8 ->
  le_combine buf < 2 ^ (8 * pos + bp) ->
  buf !! Z.to_nat pos = Some old ->
  0 <= old < 2 ^ bp.
Proof.
  intros Hb Hp Hbp Hlt E.
  pose proof (le_combine_bound buf Hb) as [Hge _].
  apply (le_combine_lookup buf Hb) in E as ->.
  rewrite Z2Nat.id by lia.
  assert (0 < 2 ^ (8 * pos)) by (apply pow2_pos; lia).
  assert (0 < 2 ^ bp) by (apply pow2_pos; lia).
  assert (2 ^ bp <= 256).
  { change 256 with (2 ^ 8). apply Z.pow_le_mono_r; lia. }
  assert (0 <= le_combine buf / 2 ^ (8 * pos) < 2 ^ bp).
  { split; [apply Z.div_pos; lia |].
    apply Z.div_lt_upper_bound; [lia |]. rewrite <- Z.pow_add_r by lia. assumption. }
  rewrite Z.mod_small; lia.
Qed.

(** One [output[pos] |= v << bp]: the stream gains [v] at bit
    [8 * pos + bp]. *)
Lemma or_store (buf : list Z) (pos bp v old : Z) :
  bytes_ok buf -> 0 <= pos -> 0 <= bp < 8 ->
  le_combine buf < 2 ^ (8 * pos + bp) ->
  0 <= v -> v * 2 ^ bp < 256 ->
  buf !! Z.to_nat pos = Some old ->
  Z.lor old (v * 2 ^ bp) = old + v * 2 ^ bp
  /\ store buf pos (old + v * 2 ^ bp)
     = Ok (<[Z.to_nat pos := old + v * 2 ^ bp]> buf)
  /\ bytes_ok (<[Z.to_nat pos := old + v * 2 ^ bp]> buf)
  /\ le_combine (<[Z.to_nat pos := old + v * 2 ^ bp]> buf)
     = le_combine buf + v * 2 ^ (8 * pos + bp)
  /\ 0 <= old < 2 ^ bp.
Proof.
  intros Hb Hp Hbp Hlt Hv Hv' E.
  pose proof (byte_below_cursor buf pos bp old Hb Hp ltac:(lia) Hlt E) as Hold.
  apply lookup_lt_Some in E as Hlen.
  assert (0 < 2 ^ bp) by (apply pow2_pos; lia).
  assert (2 ^ bp <= 128).
  { change 128 with (2 ^ 7). apply Z.pow_le_mono_r; lia. }
  assert (old + v * 2 ^ bp < 256).
  { assert (v * 2 ^ bp <= 256 - 2 ^ bp); [| lia].
    assert (exists q, 256 = q * 2 ^ bp) as [q Hq].
    { exists (2 ^ (8 - bp)). rewrite <- Z.pow_add_r by lia.
      replace (8 - bp + bp) with 8 by lia. reflexivity. }
    assert (v < q) by (apply (Z.mul_lt_mono_pos_r (2 ^ bp)); lia).
    assert (0 <= (q - 1 - v) * 2 ^ bp) by (apply Z.mul_nonneg_nonneg; lia).
    lia. }
  repeat split; try lia.
  - apply lor_disjoint; lia.
  - apply store_ok. lia.
  - apply bytes_ok_insert; [assumption | nia].
  - rewrite (le_combine_insert buf _ old) by assumption.
    rewrite Z2Nat.id by lia. rewrite Z.pow_add_r by lia. lia.
Qed.

(** * The writers *)


(** Moving a cursor by [n] bits that stay inside its byte. *)
Lemma advance_in_byte (pos bp n : Z) :
  0 <= pos -> 0 <= bp < 8 -> 0 < n -> bp + n <= 8 ->
  let bit_pos := Z.rem (bp + n) 8 in
  let c' := mk_cursor (pos + b2z (bit_pos =? 0)) bit_pos in
  cursor_ok c' /\ cbits c' = 8 * pos + bp + n.
Proof.
  intros Hp Hbp Hn Hle. cbv zeta. rewrite rem_8 by lia.
  unfold cursor_ok, cbits; cbn [c_pos c_bit].
  destruct (Z.eq_dec (bp + n) 8) as [E | E].
  - rewrite E. change (8 mod 8) with 0. change (0 =? 0) with true.
    unfold b2z. lia.
  - rewrite Z.mod_small by lia.
    destruct (Z.eqb_spec (bp + n) 0); [lia |]. unfold b2z. lia.
Qed.

Lemma wf_w_step (buf buf' : list Z) (c c' : cursor) (n v : Z) :
  wf_w buf c -> bytes_ok buf' -> length buf' = length buf ->
  cursor_ok c' -> cbits c' = cbits c + n -> 0 <= n ->
  cbits c + n <= 8 * Z.of_nat (length buf) ->
  0 <= v < 2 ^ n ->
  le_combine buf' = le_combine buf + v * 2 ^ cbits c ->
  wf_w buf' c'.
Proof.
  intros (Hb & Hc & Hle & Hlt) Hb' Hlen Hc' Hbits Hn Hfit Hv HS.
  repeat split; try assumption; try (apply Hc'); try lia.
  rewrite HS, Hbits. rewrite Z.pow_add_r by (unfold cbits, cursor_ok in *; lia).
  assert (0 < 2 ^ cbits c) by (apply pow2_pos; unfold cbits, cursor_ok in *; lia).
  nia.
Qed.

Lemma put_bit_spec (buf : list Z) (c : cursor) (bit : Z) :
  wf_w buf c -> 0 <= bit <= 1 -> wspec (put_bit buf c bit) buf c 1 bit.
Proof.
  intros Hwf Hbit. pose proof Hwf as (Hb & (Hp & Hbp) & Hle & Hlt).
  unfold put_bit, wspec.
  pose proof (load_inv buf (c_pos c)) as Hl.
  destruct (load buf (c_pos c)) as [old | f]; unbind.
  2:{ destruct Hl as [-> Hl]. split; [reflexivity |]. unfold cbits in *. lia. }
  destruct Hl as [Hin E].
  assert (0 < 2 ^ c_bit c) by (apply pow2_pos; lia).
  assert (2 ^ c_bit c <= 128).
  { change 128 with (2 ^ 7). apply Z.pow_le_mono_r; lia. }
  assert (Z.land (Z.shiftl bit (c_bit c)) 255 = bit * 2 ^ c_bit c) as ->.
  { rewrite land_255, Z.shiftl_mul_pow2 by lia. apply Z.mod_small. nia. }
  destruct (or_store buf (c_pos c) (c_bit c) bit old) as (-> & -> & Hb' & HS & Hold);
    try assumption; try lia; try nia.
  unbind.
  destruct (advance_in_byte (c_pos c) (c_bit c) 1) as [Hc' Hbits]; try lia.
  cbv zeta in Hc', Hbits.
  assert (cbits c + 1 <= 8 * Z.of_nat (length buf)) by (unfold cbits; lia).
  repeat split; try (apply Hc'); try (rewrite length_insert; reflexivity);
    try assumption.
  - rewrite length_insert. rewrite Hbits. unfold cbits. lia.
  - rewrite HS, Hbits. change (8 * c_pos c + c_bit c) with (cbits c).
    replace (cbits c + 1) with (cbits c + 1) by lia.
    rewrite Z.pow_add_r by (unfold cbits; lia).
    assert (0 < 2 ^ cbits c) by (apply pow2_pos; unfold cbits; lia).
    change (2 ^ 1) with 2. nia.
Qed.

Lemma lookup_zero_at_cursor (buf : list Z) (pos : Z) :
  bytes_ok buf -> 0 <= pos < Z.of_nat (length buf) ->
  le_combine buf < 2 ^ (8 * pos) ->
  buf !! Z.to_nat pos = Some 0.
Proof.
  intros Hb Hp Hlt.
  destruct (lookup_lt_is_Some_2 buf (Z.to_nat pos) ltac:(lia)) as [old E].
  pose proof (byte_below_cursor buf pos 0 old Hb ltac:(lia) ltac:(lia)) as H.
  rewrite Z.add_0_r in H. specialize (H Hlt E). change (2 ^ 0) with 1 in H.
  rewrite E. f_equal. lia.
Qed.

(** A whole byte stored at a byte-aligned cursor. *)
Lemma byte_store (buf : list Z) (pos x : Z) :
  bytes_ok buf -> 0 <= pos -> le_combine buf < 2 ^ (8 * pos) ->
  0 <= x < 256 ->
  match store buf pos x with
  | Ok buf' =>
      pos < Z.of_nat (length buf) /\ bytes_ok buf'
      /\ length buf' = length buf
      /\ le_combine buf' = le_combine buf + x * 2 ^ (8 * pos)
      /\ le_combine buf' < 2 ^ (8 * (pos + 1))
  | Fault f => f = OutOfBounds /\ Z.of_nat (length buf) <= pos
  end.
Proof.
  intros Hb Hp Hlt Hx. pose proof (store_inv buf pos x) as Hs.
  destruct (store buf pos x) as [buf' | f].
  2:{ destruct Hs as [-> Hs]. split; [reflexivity | lia]. }
  destruct Hs as [Hin ->].
  pose proof (lookup_zero_at_cursor buf pos Hb Hin Hlt) as E.
  pose proof (le_combine_insert buf (Z.to_nat pos) 0 x E) as HS.
  rewrite Z2Nat.id in HS by lia.
  pose proof (le_combine_bound buf Hb) as [Hge _].
  assert (0 < 2 ^ (8 * pos)) by (apply pow2_pos; lia).
  repeat split; try lia.
  - apply bytes_ok_insert; [assumption | lia].
  - apply length_insert.
  - rewrite HS. replace (8 * (pos + 1)) with (8 * pos + 8) by lia.
    rewrite Z.pow_add_r by lia. change (2 ^ 8) with 256. nia.
Qed.

Lemma put_number_loop_spec (fuel : nat) :
  forall (buf : list Z) (pos k rem number : Z),
    bytes_ok buf -> 0 <= pos <= Z.of_nat (length buf) ->
    le_combine buf < 2 ^ (8 * pos) ->
    0 <= k <= Z.of_nat fuel -> 0 <= rem < 8 ->
    match put_number_loop fuel buf pos (8 * k + rem) number with
    | Ok (buf', pos', bits', number') =>
        pos + k <= Z.of_nat (length buf) /\ bytes_ok buf'
        /\ length buf' = length buf
        /\ pos' = pos + k /\ bits' = rem /\ number' = number / 2 ^ (8 * k)
        /\ le_combine buf'
           = le_combine buf + (number mod 2 ^ (8 * k)) * 2 ^ (8 * pos)
        /\ le_combine buf' < 2 ^ (8 * (pos + k))
    | Fault f => f = OutOfBounds /\ Z.of_nat (length buf) < pos + k
    end.
Proof.
  induction fuel as [| fuel IH]; intros buf pos k rem number Hb Hp Hlt Hk Hrem.
  - assert (k = 0) as -> by lia. cbn [put_number_loop].
    destruct (Z.leb_spec 8 (8 * 0 + rem)); [lia |].
    change (2 ^ (8 * 0)) with 1. rewrite Z.mod_1_r, Z.div_1_r.
    replace (pos + 0) with pos by lia.
    repeat split; try lia; try assumption.
  - cbn [put_number_loop].
    destruct (Z.leb_spec 8 (8 * k + rem)).
    2:{ assert (k = 0) as -> by lia.
        change (2 ^ (8 * 0)) with 1. rewrite Z.mod_1_r, Z.div_1_r.
        replace (pos + 0) with pos by lia.
        repeat split; try lia; try assumption. }
    assert (1 <= k) by lia.
    pose proof (byte_store buf pos (Z.land number 255) Hb ltac:(lia) Hlt) as Hs.
    rewrite land_255 in *.
    specialize (Hs (Z.mod_pos_bound number 256 ltac:(lia))).
    destruct (store buf pos (number mod 256)) as [buf1 | f]; unbind.
    2:{ destruct Hs as [-> Hs]. split; [reflexivity | lia]. }
    destruct Hs as (Hin & Hb1 & Hl1 & HS1 & Hlt1).
    replace (8 * k + rem - 8) with (8 * (k - 1) + rem) by lia.
    specialize (IH buf1 (pos + 1) (k - 1) rem (Z.shiftr number 8) Hb1
                  ltac:(lia) Hlt1 ltac:(lia) Hrem).
    rewrite Hl1 in IH.
    destruct (put_number_loop fuel buf1 (pos + 1) (8 * (k - 1) + rem)
                (Z.shiftr number 8)) as [[[[buf' pos'] bits'] number'] | f].
    2:{ destruct IH as [-> IH]. split; [reflexivity | lia]. }
    destruct IH as (Hfit & Hb' & Hl' & -> & -> & -> & HS' & Hlt').
    rewrite Z.shiftr_div_pow2 in * by lia.
    repeat split; try lia; try assumption.
    + rewrite Z.div_div by (try apply pow2_pos; lia).
      rewrite <- Z.pow_add_r by lia. do 2 f_equal. lia.
    + rewrite HS', HS1.
      replace (8 * k) with (8 + 8 * (k - 1)) by lia.
      rewrite (mod_pow2_split number 8 (8 * (k - 1))) by lia.
      replace (8 * (pos + 1)) with (8 + 8 * pos) by lia.
      rewrite (Z.pow_add_r 2 8 (8 * pos)) by lia.
      change (2 ^ 8) with 256. lia.
    + replace (pos + k) with (pos + 1 + (k - 1)) by lia. assumption.
Qed.

Lemma pow2_le_256 (k : Z) : 0 <= k <= 8 -> 0 < 2 ^ k <= 256.
Proof.
  intros H. split; [apply pow2_pos; lia |].
  change 256 with (2 ^ 8). apply Z.pow_le_mono_r; lia.
Qed.

(** [v] of [n] bits shifted to bit [bp] of a byte, [bp + n <= 8]. *)
Lemma shifted_in_byte (v bp n : Z) :
  0 <= bp -> 0 <= n -> bp + n <= 8 -> 0 <= v < 2 ^ n ->
  0 <= v * 2 ^ bp < 256.
Proof.
  intros Hbp Hn Hle Hv.
  assert (0 < 2 ^ bp) by (apply pow2_pos; lia).
  assert (2 ^ n * 2 ^ bp <= 256).
  { rewrite <- Z.pow_add_r by lia. change 256 with (2 ^ 8).
    apply Z.pow_le_mono_r; lia. }
  nia.
Qed.

Lemma wspec_ok (buf buf' : list Z) (c c' : cursor) (n v : Z) :
  wf_w buf c -> 0 <= n -> 0 <= v < 2 ^ n ->
  cbits c + n <= 8 * Z.of_nat (length buf) ->
  bytes_ok buf' -> length buf' = length buf ->
  cursor_ok c' -> cbits c' = cbits c + n ->
  le_combine buf' = le_combine buf + v * 2 ^ cbits c ->
  wspec (Ok (buf', c')) buf c n v.
Proof.
  intros Hwf Hn Hv Hfit Hb' Hl' Hc' Hbits HS. cbn [wspec].
  repeat split; try assumption; try apply Hc'.
  - rewrite Hl'. lia.
  - pose proof Hwf as (Hb & (Hp & Hbp) & Hle & Hlt).
    rewrite HS, Hbits. rewrite Z.pow_add_r by (unfold cbits; lia).
    assert (0 < 2 ^ cbits c) by (apply pow2_pos; unfold cbits; lia).
    nia.
Qed.

Lemma wspec_fault (buf : list Z) (c : cursor) (n v : Z) :
  8 * Z.of_nat (length buf) < cbits c + n ->
  wspec (Fault OutOfBounds) buf c n v.
Proof. intros H. split; [reflexivity | assumption]. Qed.

Lemma put_number_spec (buf : list Z) (c : cursor) (bits number : Z) :
  wf_w buf c -> 0 <= bits < 256 ->
  wspec (put_number buf c bits number) buf c bits (number mod 2 ^ bits).
Proof.
  intros Hwf Hbits. pose proof Hwf as (Hb & (Hp & Hbp) & Hle & Hlt).
  assert (0 <= number mod 2 ^ bits < 2 ^ bits) as Hv
    by (apply Z.mod_pos_bound, pow2_pos; lia).
  unfold put_number. unfold cbits in Hle, Hlt.
  set (bp := c_bit c) in *. set (pos := c_pos c) in *.
  assert (cbits c = 8 * pos + bp) as Hcb by reflexivity.
  assert (0 < 2 ^ (8 * pos + bp)) as Hpow by (apply pow2_pos; lia).
  destruct (Z.ltb_spec (8 - bp) bits) as [Hbig | Hsmall].
  - (* the number leaves the current byte *)
    rewrite shiftr_255, Z.land_ones by lia.
    set (v1 := number mod 2 ^ (8 - bp)).
    assert (0 <= v1 < 2 ^ (8 - bp)) as Hv1
      by (apply Z.mod_pos_bound, pow2_pos; lia).
    pose proof (shifted_in_byte v1 bp (8 - bp) ltac:(lia) ltac:(lia) ltac:(lia) Hv1)
      as Hv1'.
    pose proof (load_inv buf pos) as Hl.
    destruct (load buf pos) as [old | f]; unbind.
    2:{ destruct Hl as [-> Hl]. apply wspec_fault. lia. }
    destruct Hl as [Hin E].
    rewrite Z.shiftl_mul_pow2, land_255, (Z.mod_small (v1 * 2 ^ bp)) by lia.
    destruct (or_store buf pos bp v1 old) as (-> & -> & Hb1 & HS1 & Hold);
      try assumption; try lia.
    unbind.
    set (buf1 := <[Z.to_nat pos := old + v1 * 2 ^ bp]> buf) in *.
    assert (length buf1 = length buf) as Hl1 by apply length_insert.
    assert (le_combine buf1 < 2 ^ (8 * (pos + 1))) as Hlt1.
    { rewrite HS1. replace (8 * (pos + 1)) with (8 * pos + bp + (8 - bp)) by lia.
      rewrite (Z.pow_add_r 2 (8 * pos + bp)) by lia. nia. }
    set (b1 := bits - (8 - bp)).
    assert (b1 = 8 * (b1 / 8) + b1 mod 8) as Hb1eq by (apply Z.div_mod; lia).
    pose proof (Z.mod_pos_bound b1 8 ltac:(lia)) as Hrem.
    assert (0 <= b1 / 8 <= 32) as Hk.
    { split; [apply Z.div_pos; lia |]. apply Z.div_le_upper_bound; lia. }
    pose proof (put_number_loop_spec 32 buf1 (pos + 1) (b1 / 8) (b1 mod 8)
                  (Z.shiftr number (8 - bp)) Hb1 ltac:(lia) Hlt1 ltac:(cbn; lia) Hrem)
      as Hloop.
    rewrite <- Hb1eq in Hloop.
    destruct (put_number_loop 32 buf1 (pos + 1) b1 (Z.shiftr number (8 - bp)))
      as [[[[buf2 pos2] bits2] number2] | f]; unbind.
    2:{ destruct Hloop as [-> Hloop]. apply wspec_fault. lia. }
    destruct Hloop as (Hfit2 & Hb2 & Hl2 & -> & -> & -> & HS2 & Hlt2).
    rewrite Z.shiftr_div_pow2 in * by lia. rewrite Hl1 in *.
    set (k := b1 / 8) in *. set (rem := b1 mod 8) in *.
    (* the value written so far *)
    assert (le_combine buf2
            = le_combine buf + (number mod 2 ^ (8 - bp + 8 * k)) * 2 ^ (8 * pos + bp))
      as HS2'.
    { rewrite HS2, HS1. rewrite (mod_pow2_split number (8 - bp) (8 * k)) by lia.
      fold v1. replace (8 * (pos + 1)) with (8 * pos + bp + (8 - bp)) by lia.
      rewrite (Z.pow_add_r 2 (8 * pos + bp)) by lia. ring. }
    destruct (Z.eqb_spec rem 0) as [Hz | Hnz].
    + (* no partial last byte *)
      assert (bits = 8 - bp + 8 * k) as Hbits' by lia.
      apply wspec_ok; try assumption; try lia.
      * split; cbn [c_pos c_bit]; lia.
      * unfold cbits; cbn [c_pos c_bit]. fold pos bp. lia.
      * rewrite HS2', Hbits', Hcb. reflexivity.
    + (* the last, partial byte *)
      rewrite shiftr_255, Z.land_ones by lia. replace (8 - (8 - rem)) with rem by lia.
      set (n2 := number / 2 ^ (8 - bp) / 2 ^ (8 * k)) in *.
      set (v3 := n2 mod 2 ^ rem).
      assert (0 <= v3 < 2 ^ rem) as Hv3
        by (apply Z.mod_pos_bound, pow2_pos; lia).
      pose proof (shifted_in_byte v3 0 rem ltac:(lia) ltac:(lia) ltac:(lia) Hv3)
        as Hv3'.
      pose proof (load_inv buf2 (pos + 1 + k)) as Hl.
      destruct (load buf2 (pos + 1 + k)) as [old2 | f]; unbind.
      2:{ destruct Hl as [-> Hl]. apply wspec_fault. rewrite Hl2 in Hl. lia. }
      destruct Hl as [Hin2 E2].
      rewrite Z.shiftl_mul_pow2 by lia.
      destruct (or_store buf2 (pos + 1 + k) 0 v3 old2) as (-> & Hst & Hb3 & HS3 & Hold2);
        try assumption; try lia.
      { rewrite Z.add_0_r. assumption. }
      unfold wrap_u. change (2 ^ 8) with 256. change (2 ^ 0) with 1 in *.
      rewrite Z.mod_small by lia. rewrite Hst.
      unbind. rewrite Z.add_0_l, rem_8, Z.mod_small by lia.
      destruct (Z.eqb_spec rem 0) as [? | _]; [lia |]. unfold b2z.
      rewrite Z.add_0_r in *.
      assert (bits = 8 - bp + 8 * k + rem) as Hbits' by lia.
      apply wspec_ok; try assumption; try lia.
      * rewrite length_insert. lia.
      * split; cbn [c_pos c_bit]; lia.
      * unfold cbits; cbn [c_pos c_bit]. fold pos bp. lia.
      * rewrite HS3, HS2', Hcb. rewrite Hbits' at 1.
        rewrite (mod_pow2_split number (8 - bp + 8 * k) rem) by lia.
        rewrite (Z.pow_add_r 2 (8 - bp) (8 * k)) by lia.
        rewrite <- Z.div_div by (try apply pow2_pos; lia). fold n2. fold v3.
        replace (8 * (pos + 1 + k)) with (8 * pos + bp + (8 - bp + 8 * k)) by lia.
        rewrite (Z.pow_add_r 2 (8 * pos + bp)) by lia.
        rewrite (Z.pow_add_r 2 (8 - bp) (8 * k)) by lia. ring.
  - (* the number fits the current byte *)
    unbind.
    destruct (Z.eqb_spec bits 0) as [-> | Hnz].
    + change (2 ^ 0) with 1. rewrite Z.mod_1_r.
      apply wspec_ok; try assumption; try lia.
      * split; cbn [c_pos c_bit]; lia.
      * unfold cbits; cbn [c_pos c_bit]. lia.
    + rewrite shiftr_255, Z.land_ones by lia. replace (8 - (8 - bits)) with bits by lia.
      set (v := number mod 2 ^ bits) in *.
      pose proof (shifted_in_byte v bp bits ltac:(lia) ltac:(lia) ltac:(lia) Hv)
        as Hv'.
      pose proof (load_inv buf pos) as Hl.
      destruct (load buf pos) as [old | f]; unbind.
      2:{ destruct Hl as [-> Hl]. apply wspec_fault. lia. }
      destruct Hl as [Hin E].
      rewrite Z.shiftl_mul_pow2 by lia.
      destruct (or_store buf pos bp v old) as (-> & Hst & Hb1 & HS1 & Hold);
        try assumption; try lia.
      assert (old + v * 2 ^ bp < 256).
      { pose proof (Forall_lookup_1 _ _ _ _ Hb1
                      (list_lookup_insert_eq buf (Z.to_nat pos) (old + v * 2 ^ bp)
                         ltac:(lia))).
        cbv beta in *. lia. }
      unfold wrap_u. change (2 ^ 8) with 256. rewrite Z.mod_small by lia.
      rewrite Hst. unbind.
      destruct (advance_in_byte pos bp bits) as [Hc' Hbits']; try lia.
      cbv zeta in Hc', Hbits'.
      apply wspec_ok; try assumption; try lia.
      apply length_insert.
Qed.

Lemma put_ones_loop_spec (fuel : nat) :
  forall (buf : list Z) (pos k rem : Z),
    bytes_ok buf -> 0 <= pos <= Z.of_nat (length buf) ->
    le_combine buf < 2 ^ (8 * pos) ->
    0 <= k -> 0 <= rem < 8 ->
    Z.of_nat (length buf) - pos < Z.of_nat fuel ->
    match put_ones_loop fuel buf pos (8 * k + rem) with
    | Ok (buf', pos', ones') =>
        pos + k <= Z.of_nat (length buf) /\ bytes_ok buf'
        /\ length buf' = length buf
        /\ pos' = pos + k /\ ones' = rem
        /\ le_combine buf'
           = le_combine buf + (2 ^ (8 * k) - 1) * 2 ^ (8 * pos)
        /\ le_combine buf' < 2 ^ (8 * (pos + k))
    | Fault f => f = OutOfBounds /\ Z.of_nat (length buf) < pos + k
    end.
Proof.
  induction fuel as [| fuel IH]; intros buf pos k rem Hb Hp Hlt Hk Hrem Hfuel;
    [lia |].
  cbn [put_ones_loop].
  destruct (Z.leb_spec 8 (8 * k + rem)).
  2:{ assert (k = 0) as -> by lia.
      change (2 ^ (8 * 0)) with 1. replace (pos + 0) with pos by lia.
      repeat split; try lia; try assumption. }
  assert (1 <= k) by lia.
  pose proof (byte_store buf pos 255 Hb ltac:(lia) Hlt ltac:(lia)) as Hs.
  destruct (store buf pos 255) as [buf1 | f]; unbind.
  2:{ destruct Hs as [-> Hs]. split; [reflexivity | lia]. }
  destruct Hs as (Hin & Hb1 & Hl1 & HS1 & Hlt1).
  replace (8 * k + rem - 8) with (8 * (k - 1) + rem) by lia.
  specialize (IH buf1 (pos + 1) (k - 1) rem Hb1).
  rewrite Hl1 in IH.
  specialize (IH ltac:(lia) Hlt1 ltac:(lia) Hrem ltac:(lia)).
  destruct (put_ones_loop fuel buf1 (pos + 1) (8 * (k - 1) + rem))
    as [[[buf' pos'] ones'] | f].
  2:{ destruct IH as [-> IH]. split; [reflexivity | lia]. }
  destruct IH as (Hfit & Hb' & Hl' & -> & -> & HS' & Hlt').
  repeat split; try lia; try assumption.
  - rewrite HS', HS1.
    replace (8 * k) with (8 + 8 * (k - 1)) by lia.
    rewrite (Z.pow_add_r 2 8 (8 * (k - 1))) by lia.
    replace (8 * (pos + 1)) with (8 + 8 * pos) by lia.
    rewrite (Z.pow_add_r 2 8 (8 * pos)) by lia.
    change (2 ^ 8) with 256. ring.
  - replace (pos + k) with (pos + 1 + (k - 1)) by lia. assumption.
Qed.

Lemma shl_255 (bp : Z) :
  0 <= bp < 8 ->
  Z.land (Z.shiftl 255 bp) 255 = (2 ^ (8 - bp) - 1) * 2 ^ bp.
Proof.
  intros H.
  assert (bp = 0 \/ bp = 1 \/ bp = 2 \/ bp = 3 \/ bp = 4 \/ bp = 5 \/ bp = 6 \/ bp = 7)
    as Hk by lia.
  repeat (destruct Hk as [-> | Hk]; [reflexivity |]); subst; reflexivity.
Qed.

Lemma ones_range (n : Z) : 0 <= n -> 0 <= 2 ^ n - 1 < 2 ^ n.
Proof. intros H. pose proof (pow2_pos n H). lia. Qed.

Lemma put_ones_spec (buf : list Z) (c : cursor) (ones : Z) :
  wf_w buf c -> 0 <= ones ->
  wspec (put_ones buf c ones) buf c ones (2 ^ ones - 1).
Proof.
  intros Hwf Hones. pose proof Hwf as (Hb & (Hp & Hbp) & Hle & Hlt).
  pose proof (ones_range ones Hones) as Hv.
  unfold put_ones. unfold cbits in Hle, Hlt.
  set (bp := c_bit c) in *. set (pos := c_pos c) in *.
  assert (cbits c = 8 * pos + bp) as Hcb by reflexivity.
  assert (0 < 2 ^ (8 * pos + bp)) as Hpow by (apply pow2_pos; lia).
  destruct (Z.ltb_spec (8 - bp) ones) as [Hbig | Hsmall].
  - (* the run leaves the current byte *)
    rewrite shl_255 by lia.
    set (v1 := 2 ^ (8 - bp) - 1).
    pose proof (ones_range (8 - bp) ltac:(lia)) as Hv1. fold v1 in Hv1.
    pose proof (shifted_in_byte v1 bp (8 - bp) ltac:(lia) ltac:(lia) ltac:(lia) Hv1)
      as Hv1'.
    pose proof (load_inv buf pos) as Hl.
    destruct (load buf pos) as [old | f]; unbind.
    2:{ destruct Hl as [-> Hl]. apply wspec_fault. lia. }
    destruct Hl as [Hin E].
    destruct (or_store buf pos bp v1 old) as (-> & -> & Hb1 & HS1 & Hold);
      try assumption; try lia.
    unbind.
    set (buf1 := <[Z.to_nat pos := old + v1 * 2 ^ bp]> buf) in *.
    assert (length buf1 = length buf) as Hl1 by apply length_insert.
    assert (le_combine buf1 < 2 ^ (8 * (pos + 1))) as Hlt1.
    { rewrite HS1. replace (8 * (pos + 1)) with (8 * pos + bp + (8 - bp)) by lia.
      rewrite (Z.pow_add_r 2 (8 * pos + bp)) by lia. nia. }
    set (b1 := ones - (8 - bp)).
    assert (b1 = 8 * (b1 / 8) + b1 mod 8) as Hb1eq by (apply Z.div_mod; lia).
    pose proof (Z.mod_pos_bound b1 8 ltac:(lia)) as Hrem.
    assert (0 <= b1 / 8) as Hk by (apply Z.div_pos; lia).
    pose proof (put_ones_loop_spec (S (length buf1)) buf1 (pos + 1) (b1 / 8) (b1 mod 8)
                  Hb1 ltac:(lia) Hlt1 Hk Hrem ltac:(lia))
      as Hloop.
    rewrite <- Hb1eq in Hloop.
    destruct (put_ones_loop (S (length buf1)) buf1 (pos + 1) b1)
      as [[[buf2 pos2] ones2] | f]; unbind.
    2:{ destruct Hloop as [-> Hloop]. apply wspec_fault. lia. }
    destruct Hloop as (Hfit2 & Hb2 & Hl2 & -> & -> & HS2 & Hlt2).
    rewrite Hl1 in *.
    set (k := b1 / 8) in *. set (rem := b1 mod 8) in *.
    assert (le_combine buf2
            = le_combine buf + (2 ^ (8 - bp + 8 * k) - 1) * 2 ^ (8 * pos + bp))
      as HS2'.
    { rewrite HS2, HS1. unfold v1.
      replace (8 * (pos + 1)) with (8 * pos + bp + (8 - bp)) by lia.
      rewrite (Z.pow_add_r 2 (8 * pos + bp)) by lia.
      rewrite (Z.pow_add_r 2 (8 - bp) (8 * k)) by lia. ring. }
    destruct (Z.eqb_spec rem 0) as [Hz | Hnz].
    + assert (ones = 8 - bp + 8 * k) as Hones' by lia.
      apply wspec_ok; try assumption; try lia.
      * split; cbn [c_pos c_bit]; lia.
      * unfold cbits; cbn [c_pos c_bit]. fold pos bp. lia.
      * rewrite HS2', Hones', Hcb. reflexivity.
    + rewrite shiftr_255 by lia. replace (8 - (8 - rem)) with rem by lia.
      rewrite Z.ones_equiv, <- Z.sub_1_r.
      set (v3 := 2 ^ rem - 1).
      pose proof (ones_range rem ltac:(lia)) as Hv3. fold v3 in Hv3.
      pose proof (shifted_in_byte v3 0 rem ltac:(lia) ltac:(lia) ltac:(lia) Hv3)
        as Hv3'.
      pose proof (load_inv buf2 (pos + 1 + k)) as Hl.
      destruct (load buf2 (pos + 1 + k)) as [old2 | f]; unbind.
      2:{ destruct Hl as [-> Hl]. apply wspec_fault. rewrite Hl2 in Hl. lia. }
      destruct Hl as [Hin2 E2].
      rewrite Z.shiftl_mul_pow2, land_255, (Z.mod_small (v3 * 2 ^ 0)) by lia.
      destruct (or_store buf2 (pos + 1 + k) 0 v3 old2) as (-> & -> & Hb3 & HS3 & Hold2);
        try assumption; try lia.
      { rewrite Z.add_0_r. assumption. }
      unbind. rewrite Z.add_0_l, rem_8, Z.mod_small by lia.
      destruct (Z.eqb_spec rem 0) as [? | _]; [lia |]. unfold b2z.
      rewrite Z.add_0_r in *.
      assert (ones = 8 - bp + 8 * k + rem) as Hones' by lia.
      apply wspec_ok; try assumption; try lia.
      * rewrite length_insert. lia.
      * split; cbn [c_pos c_bit]; lia.
      * unfold cbits; cbn [c_pos c_bit]. fold pos bp. lia.
      * rewrite HS3, HS2', Hcb. rewrite Hones' at 1. unfold v3.
        rewrite (Z.pow_add_r 2 (8 - bp + 8 * k) rem) by lia.
        replace (8 * (pos + 1 + k)) with (8 * pos + bp + (8 - bp + 8 * k)) by lia.
        rewrite (Z.pow_add_r 2 (8 * pos + bp)) by lia. ring.
  - unbind.
    destruct (Z.eqb_spec ones 0) as [-> | Hnz].
    + change (2 ^ 0 - 1) with 0.
      apply wspec_ok; try assumption; try lia.
      * split; cbn [c_pos c_bit]; lia.
      * unfold cbits; cbn [c_pos c_bit]. lia.
    + rewrite shiftr_255 by lia. replace (8 - (8 - ones)) with ones by lia.
      rewrite Z.ones_equiv, <- Z.sub_1_r.
      set (v := 2 ^ ones - 1) in *.
      pose proof (shifted_in_byte v bp ones ltac:(lia) ltac:(lia) ltac:(lia) Hv)
        as Hv'.
      pose proof (load_inv buf pos) as Hl.
      destruct (load buf pos) as [old | f]; unbind.
      2:{ destruct Hl as [-> Hl]. apply wspec_fault. lia. }
      destruct Hl as [Hin E].
      rewrite Z.shiftl_mul_pow2, land_255, (Z.mod_small (v * 2 ^ bp)) by lia.
      destruct (or_store buf pos bp v old) as (-> & -> & Hb1 & HS1 & Hold);
        try assumption; try lia.
      unbind.
      destruct (advance_in_byte pos bp ones) as [Hc' Hbits']; try lia.
      cbv zeta in Hc', Hbits'.
      apply wspec_ok; try assumption; try lia.
      apply length_insert.
Qed.

(** * The readers *)

Lemma mod_pow2_le (x a b : Z) : 0 <= a <= b -> x mod 2 ^ a <= x mod 2 ^ b.
Proof.
  intros H. replace b with (a + (b - a)) by lia.
  rewrite mod_pow2_split by lia.
  pose proof (Z.mod_pos_bound (x / 2 ^ a) (2 ^ (b - a)) ltac:(apply pow2_pos; lia)).
  pose proof (pow2_pos a ltac:(lia)). nia.
Qed.

Lemma div_pow2_add (x a b : Z) :
  0 <= a -> 0 <= b -> x / 2 ^ (a + b) = x / 2 ^ a / 2 ^ b.
Proof.
  intros Ha Hb. rewrite Z.pow_add_r by lia.
  rewrite Z.div_div by (try apply pow2_pos; lia). reflexivity.
Qed.

(** A field of [n] bits at bit [bp] of a byte of the stream. *)
Lemma byte_field (x bp n : Z) :
  0 <= bp -> 0 <= n -> bp + n <= 8 ->
  ((x mod 256) / 2 ^ bp) mod 2 ^ n = (x / 2 ^ bp) mod 2 ^ n.
Proof.
  intros Hbp Hn Hle. change 256 with (2 ^ 8).
  replace 8 with (bp + (8 - bp)) at 1 by lia.
  rewrite mod_pow2_split by lia.
  rewrite Z.div_add by (apply Z.pow_nonzero; lia).
  rewrite Z.div_small by (apply Z.mod_pos_bound, pow2_pos; lia).
  rewrite Z.add_0_l. apply mod_mod_pow2. lia.
Qed.

Lemma load_stream (data : list Z) (pos : Z) :
  bytes_ok data ->
  match load data pos with
  | Ok byte =>
      0 <= pos < Z.of_nat (length data)
      /\ byte = (le_combine data / 2 ^ (8 * pos)) mod 256
  | Fault f => f = OutOfBounds /\ (pos < 0 \/ Z.of_nat (length data) <= pos)
  end.
Proof.
  intros Hb. pose proof (load_inv data pos) as Hl.
  destruct (load data pos) as [byte | f]; [| assumption].
  destruct Hl as [Hin E]. split; [assumption |].
  apply (le_combine_lookup data Hb) in E. rewrite Z2Nat.id in E by lia. assumption.
Qed.

Lemma rspec_ok (data : list Z) (c c' : cursor) (n v : Z) :
  cbits c + n <= 8 * Z.of_nat (length data) ->
  cursor_ok c' -> cbits c' = cbits c + n ->
  v = (le_combine data / 2 ^ cbits c) mod 2 ^ n ->
  rspec (Ok (v, c')) data c n.
Proof. intros; cbn [rspec]; auto. Qed.

Lemma rspec_fault (data : list Z) (c : cursor) (n : Z) :
  8 * Z.of_nat (length data) < cbits c + n ->
  rspec (Fault OutOfBounds) data c n.
Proof. intros H. split; [reflexivity | assumption]. Qed.

Lemma grab_bit_spec (data : list Z) (c : cursor) :
  bytes_ok data -> cursor_ok c -> rspec (grab_bit data c) data c 1.
Proof.
  intros Hb [Hp Hbp]. unfold grab_bit.
  pose proof (load_stream data (c_pos c) Hb) as Hl.
  destruct (load data (c_pos c)) as [byte | f]; unbind.
  2:{ destruct Hl as [-> Hl]. apply rspec_fault. unfold cbits. lia. }
  destruct Hl as [Hin ->].
  destruct (advance_in_byte (c_pos c) (c_bit c) 1) as [Hc' Hbits]; try lia.
  cbv zeta in Hc', Hbits.
  apply rspec_ok; try assumption.
  - unfold cbits. lia.
  - change 1 with (Z.ones 1) at 1. rewrite Z.land_ones, Z.shiftr_div_pow2 by lia.
    rewrite byte_field by lia. unfold cbits.
    rewrite div_pow2_add by lia. reflexivity.
Qed.

Lemma grab_number_loop_spec (fuel : nat) :
  forall (data : list Z) (pos k rem tally r : Z),
    bytes_ok data -> 0 <= pos <= Z.of_nat (length data) ->
    0 <= tally <= 8 * pos ->
    r = (le_combine data / 2 ^ (8 * pos - tally)) mod 2 ^ tally ->
    0 <= k -> 0 <= rem < 8 ->
    (le_combine data / 2 ^ (8 * pos - tally)) mod 2 ^ (tally + 8 * k) < 2 ^ 31 ->
    Z.of_nat (length data) - pos < Z.of_nat fuel ->
    match grab_number_loop fuel data pos (8 * k + rem) tally r with
    | Ok (pos', bits', tally', r') =>
        pos + k <= Z.of_nat (length data)
        /\ pos' = pos + k /\ bits' = rem /\ tally' = tally + 8 * k
        /\ r' = (le_combine data / 2 ^ (8 * pos - tally)) mod 2 ^ (tally + 8 * k)
    | Fault f => f = OutOfBounds /\ Z.of_nat (length data) < pos + k
    end.
Proof.
  induction fuel as [| fuel IH];
    intros data pos k rem tally r Hb Hp Ht Hr Hk Hrem Hsmall Hfuel; [lia |].
  cbn [grab_number_loop].
  destruct (Z.leb_spec 8 (8 * k + rem)).
  2:{ assert (k = 0) as -> by lia.
      replace (tally + 8 * 0) with tally by lia. replace (pos + 0) with pos by lia.
      repeat split; try lia; assumption. }
  assert (1 <= k) by lia.
  pose proof (load_stream data pos Hb) as Hl.
  destruct (load data pos) as [byte | f]; unbind.
  2:{ destruct Hl as [-> Hl]. split; [reflexivity | lia]. }
  destruct Hl as [Hin Hbyte].
  set (X := le_combine data / 2 ^ (8 * pos - tally)) in *.
  assert (byte = (X / 2 ^ tally) mod 2 ^ 8) as Hbyte'.
  { rewrite Hbyte. unfold X. rewrite <- div_pow2_add by lia.
    replace (8 * pos - tally + tally) with (8 * pos) by lia. reflexivity. }
  assert (X mod 2 ^ (tally + 8) = r + byte * 2 ^ tally) as Hsplit.
  { rewrite mod_pow2_split by lia. rewrite Hr, Hbyte'. reflexivity. }
  assert (0 <= byte < 256) as Hrange.
  { rewrite Hbyte. apply Z.mod_pos_bound. lia. }
  assert (0 <= r < 2 ^ tally) as Hrr.
  { rewrite Hr. apply Z.mod_pos_bound, pow2_pos. lia. }
  assert (byte * 2 ^ tally < 2 ^ 31) as Hno.
  { pose proof (mod_pow2_le X (tally + 8) (tally + 8 * k) ltac:(lia)). lia. }
  rewrite int_shl_small by lia. rewrite lor_disjoint by lia.
  replace (8 * k + rem - 8) with (8 * (k - 1) + rem) by lia.
  specialize (IH data (pos + 1) (k - 1) rem (tally + 8) (r + byte * 2 ^ tally) Hb
                ltac:(lia) ltac:(lia)).
  replace (8 * (pos + 1) - (tally + 8)) with (8 * pos - tally) in IH by lia.
  fold X in IH.
  replace (tally + 8 + 8 * (k - 1)) with (tally + 8 * k) in IH by lia.
  specialize (IH ltac:(symmetry; exact Hsplit) ltac:(lia) Hrem Hsmall ltac:(lia)).
  destruct (grab_number_loop fuel data (pos + 1) (8 * (k - 1) + rem) (tally + 8)
              (r + byte * 2 ^ tally)) as [[[[pos' bits'] tally'] r'] | f].
  2:{ destruct IH as [-> IH]. split; [reflexivity | lia]. }
  destruct IH as (Hfit & -> & -> & -> & ->).
  repeat split; lia.
Qed.

Lemma grab_number_spec (data : list Z) (c : cursor) (bits : Z) :
  bytes_ok data -> cursor_ok c -> 0 <= bits ->
  cbits c <= 8 * Z.of_nat (length data) ->
  (le_combine data / 2 ^ cbits c) mod 2 ^ bits < 2 ^ 31 ->
  rspec (grab_number data c bits) data c bits.
Proof.
  intros Hb [Hp Hbp] Hbits Hle Hsmall. unfold grab_number.
  unfold cbits in Hle, Hsmall.
  set (bp := c_bit c) in *. set (pos := c_pos c) in *.
  assert (cbits c = 8 * pos + bp) as Hcb by reflexivity.
  set (X := le_combine data / 2 ^ (8 * pos + bp)) in *.
  destruct (Z.ltb_spec (8 - bp) bits) as [Hbig | Hfits].
  - pose proof (load_stream data pos Hb) as Hl.
    destruct (load data pos) as [byte | f]; unbind.
    2:{ destruct Hl as [-> Hl]. apply rspec_fault. lia. }
    destruct Hl as [Hin Hbyte].
    set (b1 := bits - (8 - bp)).
    assert (b1 = 8 * (b1 / 8) + b1 mod 8) as Hb1eq by (apply Z.div_mod; lia).
    pose proof (Z.mod_pos_bound b1 8 ltac:(lia)) as Hrem.
    assert (0 <= b1 / 8) as Hk by (apply Z.div_pos; lia).
    set (k := b1 / 8) in *. set (rem := b1 mod 8) in *.
    assert (Z.shiftr byte bp = X mod 2 ^ (8 - bp)) as Hr.
    { rewrite Z.shiftr_div_pow2 by lia. rewrite Hbyte.
      assert (0 <= (le_combine data / 2 ^ (8 * pos)) mod 256 / 2 ^ bp < 2 ^ (8 - bp))
        as Hsm.
      { pose proof (Z.mod_pos_bound (le_combine data / 2 ^ (8 * pos)) 256 ltac:(lia)).
        pose proof (pow2_pos bp ltac:(lia)).
        split; [apply Z.div_pos; lia |].
        apply Z.div_lt_upper_bound; [lia |].
        rewrite <- Z.pow_add_r by lia. replace (bp + (8 - bp)) with 8 by lia.
        change (2 ^ 8) with 256. lia. }
      rewrite <- (Z.mod_small _ _ Hsm). rewrite byte_field by lia.
      unfold X. rewrite div_pow2_add by lia. reflexivity. }
    pose proof (grab_number_loop_spec (S (length data)) data (pos + 1) k rem (8 - bp)
                  (Z.shiftr byte bp) Hb ltac:(lia) ltac:(lia)) as Hloop.
    replace (8 * (pos + 1) - (8 - bp)) with (8 * pos + bp) in Hloop by lia.
    fold X in Hloop.
    specialize (Hloop Hr Hk Hrem).
    assert (X mod 2 ^ (8 - bp + 8 * k) < 2 ^ 31) as Hsm1.
    { pose proof (mod_pow2_le X (8 - bp + 8 * k) bits ltac:(lia)). lia. }
    specialize (Hloop Hsm1 ltac:(lia)).
    rewrite <- Hb1eq in Hloop.
    destruct (grab_number_loop (S (length data)) data (pos + 1) b1 (8 - bp)
                (Z.shiftr byte bp)) as [[[[pos2 bits2] tally2] r2] | f]; unbind.
    2:{ destruct Hloop as [-> Hloop]. apply rspec_fault. lia. }
    destruct Hloop as (Hfit2 & -> & -> & -> & ->).
    destruct (Z.eqb_spec rem 0) as [Hz | Hnz].
    + apply rspec_ok.
      * lia.
      * split; cbn [c_pos c_bit]; lia.
      * unfold cbits; cbn [c_pos c_bit]. fold pos bp. lia.
      * rewrite Hcb. fold X. f_equal. f_equal. lia.
    + pose proof (load_stream data (pos + 1 + k) Hb) as Hl.
      destruct (load data (pos + 1 + k)) as [byte2 | f]; unbind.
      2:{ destruct Hl as [-> Hl]. apply rspec_fault. lia. }
      destruct Hl as [Hin2 Hbyte2].
      rewrite shiftr_255, Z.land_ones by lia. replace (8 - (8 - rem)) with rem by lia.
      rewrite Z.shiftr_0_r.
      set (t := 8 - bp + 8 * k) in *.
      assert (byte2 mod 2 ^ rem = (X / 2 ^ t) mod 2 ^ rem) as Hv3.
      { rewrite Hbyte2. rewrite <- (Z.div_1_r (_ mod 256)). change 1 with (2 ^ 0).
        rewrite byte_field by lia. change (2 ^ 0) with 1. rewrite Z.div_1_r.
        unfold X. rewrite <- div_pow2_add by lia.
        do 2 f_equal. f_equal. unfold t. lia. }
      assert (X mod 2 ^ bits = X mod 2 ^ t + (byte2 mod 2 ^ rem) * 2 ^ t) as Hsplit.
      { replace bits with (t + rem) by (unfold t; lia).
        rewrite mod_pow2_split by (unfold t; lia). rewrite Hv3. reflexivity. }
      pose proof (Z.mod_pos_bound byte2 (2 ^ rem) ltac:(apply pow2_pos; lia)).
      pose proof (Z.mod_pos_bound X (2 ^ t) ltac:(apply pow2_pos; unfold t; lia)).
      assert (0 <= t) by (unfold t; lia).
      rewrite int_shl_small by lia.
      rewrite lor_disjoint by lia.
      rewrite Z.add_0_l, rem_8, (Z.mod_small rem 8) by lia.
      destruct (Z.eqb_spec rem 0) as [? | _]; [lia |]. unfold b2z.
      rewrite Z.add_0_r.
      apply rspec_ok.
      * lia.
      * split; cbn [c_pos c_bit]; lia.
      * unfold cbits; cbn [c_pos c_bit]. fold pos bp. unfold t in *. lia.
      * rewrite Hcb. fold X. symmetry. exact Hsplit.
  - unbind.
    destruct (Z.eqb_spec bits 0) as [-> | Hnz].
    + apply rspec_ok.
      * lia.
      * split; cbn [c_pos c_bit]; lia.
      * unfold cbits; cbn [c_pos c_bit]. lia.
      * change (2 ^ 0) with 1. rewrite Z.mod_1_r. reflexivity.
    + pose proof (load_stream data pos Hb) as Hl.
      destruct (load data pos) as [byte | f]; unbind.
      2:{ destruct Hl as [-> Hl]. apply rspec_fault. lia. }
      destruct Hl as [Hin Hbyte].
      rewrite shiftr_255, Z.land_ones by lia. replace (8 - (8 - bits)) with bits by lia.
      rewrite Z.shiftr_div_pow2 by lia.
      assert ((byte / 2 ^ bp) mod 2 ^ bits = X mod 2 ^ bits) as Hv.
      { rewrite Hbyte, byte_field by lia. unfold X.
        rewrite div_pow2_add by lia. reflexivity. }
      rewrite Hv.
      pose proof (Z.mod_pos_bound X (2 ^ bits) ltac:(apply pow2_pos; lia)).
      rewrite int_shl_small by (change (2 ^ 0) with 1; lia).
      change (2 ^ 0) with 1. rewrite Z.mul_1_r, Z.lor_0_l.
      destruct (advance_in_byte pos bp bits) as [Hc' Hbits']; try lia.
      cbv zeta in Hc', Hbits'.
      apply rspec_ok; try assumption; try lia.
      rewrite Hcb. reflexivity.
Qed.

(** * Writers in sequence *)

Lemma cbits_nonneg (c : cursor) : cursor_ok c -> 0 <= cbits c.
Proof. unfold cursor_ok, cbits. lia. Qed.

Lemma wf_w_cbits (buf : list Z) (c : cursor) : wf_w buf c -> 0 <= cbits c.
Proof. intros (_ & Hc & _). now apply cbits_nonneg. Qed.

Lemma wf_w_stream (buf : list Z) (c : cursor) :
  wf_w buf c -> 0 <= le_combine buf < 2 ^ cbits c.
Proof.
  intros (Hb & _ & _ & Hlt). pose proof (le_combine_bound buf Hb). lia.
Qed.

Lemma wspec_wframe (r : result (list Z * cursor)) (buf : list Z) (c : cursor)
    (n v : Z) :
  wf_w buf c -> wspec r buf c n v -> wframe r buf c n.
Proof.
  intros Hwf H. destruct r as [[buf' c'] | f]; [| exact H].
  destruct H as (Hfit & Hwf' & Hl & Hc & HS).
  repeat split; try assumption; try apply Hwf'.
  rewrite HS. pose proof (wf_w_cbits _ _ Hwf). pose proof (wf_w_stream _ _ Hwf).
  rewrite Z.mod_add by (apply Z.pow_nonzero; lia). apply Z.mod_small. lia.
Qed.

Lemma wframe_ret (buf : list Z) (c : cursor) :
  wf_w buf c -> wframe (Ok (buf, c)) buf c 0.
Proof.
  intros Hwf. pose proof Hwf as (Hb & Hc & Hle & Hlt).
  repeat split; try assumption; try apply Hc; try lia.
  apply Z.mod_small. now apply wf_w_stream.
Qed.

Lemma wframe_bind (r1 : result (list Z * cursor))
    (k : list Z * cursor -> result (list Z * cursor))
    (buf : list Z) (c : cursor) (n1 n2 n : Z) :
  wf_w buf c -> 0 <= n1 -> 0 <= n2 -> n = n1 + n2 ->
  wframe r1 buf c n1 ->
  (forall buf1 c1,
      r1 = Ok (buf1, c1) -> wf_w buf1 c1 -> length buf1 = length buf ->
      cbits c1 = cbits c + n1 ->
      wframe (k (buf1, c1)) buf1 c1 n2) ->
  wframe (mbind k r1) buf c n.
Proof.
  intros Hwf Hn1 Hn2 -> H1 Hk.
  destruct r1 as [[buf1 c1] | f]; unbind.
  2:{ destruct H1 as [-> H1]. split; [reflexivity | lia]. }
  destruct H1 as (Hfit1 & Hwf1 & Hl1 & Hc1 & HS1).
  specialize (Hk buf1 c1 eq_refl Hwf1 Hl1 Hc1).
  destruct (k (buf1, c1)) as [[buf2 c2] | f].
  2:{ destruct Hk as [-> Hk]. split; [reflexivity |]. rewrite Hl1 in Hk. lia. }
  destruct Hk as (Hfit2 & Hwf2 & Hl2 & Hc2 & HS2).
  pose proof (wf_w_cbits _ _ Hwf).
  cbn [wframe]. split; [| split; [| split; [| split]]].
  - rewrite <- Hl1. lia.
  - exact Hwf2.
  - congruence.
  - lia.
  - rewrite <- HS1, <- HS2. rewrite Hc1. symmetry. apply mod_mod_pow2. lia.
Qed.

(** * The layout of one block *)

Lemma BTW_abs_abs (x : Z) : BTW_abs x = Z.abs x.
Proof. unfold BTW_abs. destruct (Z.leb_spec 0 x); lia. Qed.

Section EncoderFacts.

Variable samples : list Z.
Variable def : btw_def.
Hypothesis Hsamples : Forall sample_ok samples.

Lemma sample_val_ok (i l chan : Z) : sample_ok (sample_val samples def i l chan).
Proof.
  unfold sample_val.
  destruct (samples !! Z.to_nat (sample_index def i l chan)) as [x |] eqn:E; cbn.
  - exact (Forall_lookup_1 _ _ _ _ Hsamples E).
  - unfold sample_ok. lia.
Qed.

Lemma readable_step (n : nat) (i chan l : Z) :
  readable samples def (S n) i chan l ->
  sample_at samples def i l chan = Ok (sample_val samples def i l chan)
  /\ readable samples def n i chan (l + 1).
Proof.
  intros H. split.
  - specialize (H l ltac:(lia)). unfold sample_at, sample_val.
    fold (sample_index def i l chan).
    destruct (lookup_lt_is_Some_2 samples (Z.to_nat (sample_index def i l chan))
                ltac:(lia)) as [x E].
    rewrite E. cbn. apply load_ok; [lia | assumption].
  - intros l' Hl'. apply H. lia.
Qed.

Lemma av_diff_loop_spec (n : nat) :
  forall i chan l prev av,
    readable samples def n i chan l ->
    av_diff_loop samples def n i chan l prev av
    = Ok (av + sum_abs_diff prev (channel_samples samples def n i chan l)).
Proof.
  induction n as [| n IH]; intros i chan l prev av Hr.
  - cbn. f_equal. lia.
  - destruct (readable_step _ _ _ _ Hr) as [E Hr'].
    cbn [av_diff_loop channel_samples sum_abs_diff]. rewrite E. unbind.
    rewrite IH by assumption. rewrite BTW_abs_abs. f_equal. lia.
Qed.

Lemma channel_samples_length (n : nat) (i chan l : Z) :
  length (channel_samples samples def n i chan l) = n.
Proof. revert l; induction n as [| n IH]; intros l; cbn; [| rewrite IH]; reflexivity. Qed.

Lemma channel_samples_ok (n : nat) (i chan l : Z) :
  Forall sample_ok (channel_samples samples def n i chan l).
Proof.
  revert l; induction n as [| n IH]; intros l; cbn; constructor;
    [apply sample_val_ok | apply IH].
Qed.

End EncoderFacts.

Lemma sum_abs_diff_bound (xs : list Z) :
  Forall sample_ok xs ->
  forall prev, sample_ok prev ->
    0 <= sum_abs_diff prev xs <= 4294967295 * Z.of_nat (length xs).
Proof.
  induction 1 as [| x xs Hx Hxs IH]; intros prev Hprev; cbn [sum_abs_diff length].
  - lia.
  - specialize (IH x Hx). unfold sample_ok in *. lia.
Qed.

Lemma spec_rice_len_bound (xs : list Z) :
  Forall sample_ok xs -> Z.of_nat (length xs) <= 512 ->
  0 <= sum_abs_diff 0 xs / 512 < 2 ^ 32 /\ 0 <= spec_rice_len xs <= 31.
Proof.
  intros Hxs Hlen.
  pose proof (sum_abs_diff_bound xs Hxs 0 ltac:(unfold sample_ok; lia)) as Hs.
  assert (0 <= sum_abs_diff 0 xs / 512 < 2 ^ 32) as Hq.
  { split; [apply Z.div_pos; lia |]. apply Z.div_lt_upper_bound; lia. }
  split; [assumption |]. unfold spec_rice_len, bit_length, BTW_BLOCK_SIZE.
  split; [apply Z.log2_nonneg |].
  destruct (Z.eq_dec (sum_abs_diff 0 xs / 512) 0) as [-> | Hne]; [cbn; lia |].
  assert (Z.log2 (sum_abs_diff 0 xs / 512) < 32); [| lia].
  apply Z.log2_lt_pow2; lia.
Qed.

Lemma codewords_bits_nonneg (k : Z) (xs : list Z) :
  0 <= k -> forall prev, 0 <= codewords_bits k prev xs.
Proof.
  intros Hk. induction xs as [| x xs IH]; intros prev; cbn [codewords_bits]; [lia |].
  specialize (IH x). unfold codeword_bits.
  pose proof (Z.shiftr_nonneg (Z.abs (x - prev)) k). lia.
Qed.

Lemma abs_diff_bound (x y : Z) :
  sample_ok x -> sample_ok y -> 0 <= Z.abs (x - y) < 2 ^ 32.
Proof. unfold sample_ok. change (2 ^ 32) with 4294967296. lia. Qed.

Lemma shiftr_bound (a k : Z) :
  0 <= a -> 0 <= k -> 0 <= Z.shiftr a k <= a.
Proof.
  intros Ha Hk. rewrite Z.shiftr_div_pow2 by lia.
  pose proof (pow2_pos k Hk).
  split; [apply Z.div_pos; lia |].
  apply Z.div_le_upper_bound; [lia |]. nia.
Qed.

Lemma rice_un_small (a k : Z) :
  0 <= a < 2 ^ 32 -> 0 <= k ->
  wrap_u 32 (wrap_u 64 (Z.shiftr a k)) = Z.shiftr a k.
Proof.
  intros Ha Hk. pose proof (shiftr_bound a k ltac:(lia) Hk).
  assert (2 ^ 32 < 2 ^ 64) by (apply Z.pow_lt_mono_r; lia).
  rewrite (wrap_u_small 64) by lia. apply wrap_u_small. lia.
Qed.

Section EncoderLoops.

Variable samples : list Z.
Variable def : btw_def.
Hypothesis Hsamples : Forall sample_ok samples.

Lemma encode_samples_spec (n : nat) :
  forall i chan k l prev buf c,
    wf_w buf c -> 0 <= k <= 31 -> sample_ok prev ->
    readable samples def n i chan l ->
    wframe (encode_samples samples def n i chan k l prev buf c) buf c
      (codewords_bits k prev (channel_samples samples def n i chan l)).
Proof.
  induction n as [| n IH]; intros i chan k l prev buf c Hwf Hk Hprev Hr.
  - cbn. now apply wframe_ret.
  - destruct (readable_step _ _ _ _ _ _ Hr) as [E Hr'].
    cbn [encode_samples channel_samples codewords_bits]. rewrite E. unbind.
    set (cur := sample_val samples def i l chan).
    pose proof (sample_val_ok samples def Hsamples i l chan) as Hcur. fold cur in Hcur.
    pose proof (abs_diff_bound cur prev Hcur Hprev) as Habs.
    rewrite BTW_abs_abs, rice_un_small by lia.
    rewrite (wrap_u_small 8 k) by (change (2 ^ 8) with 256; lia).
    set (d := Z.abs (cur - prev)) in *.
    set (q := Z.shiftr d k).
    pose proof (shiftr_bound d k ltac:(lia) ltac:(lia)) as Hq. fold q in Hq.
    set (B := codewords_bits k cur (channel_samples samples def n i chan (l + 1))).
    pose proof (codewords_bits_nonneg k
                  (channel_samples samples def n i chan (l + 1)) ltac:(lia) cur) as HB.
    fold B in HB.
    apply (wframe_bind _ _ _ _ 1 (q + (1 + (k + B)))); try assumption; try lia.
    { unfold codeword_bits. fold d q. lia. }
    { eapply wspec_wframe; [assumption |]. apply put_bit_spec; [assumption |].
      unfold b2z. destruct (cur - prev <? 0); lia. }
    intros buf1 c1 _ Hwf1 _ _. cbn beta iota.
    apply (wframe_bind _ _ _ _ q (1 + (k + B))); try assumption; try lia.
    { eapply wspec_wframe; [assumption |]. apply put_ones_spec; [assumption | lia]. }
    intros buf2 c2 _ Hwf2 _ _. cbn beta iota.
    apply (wframe_bind _ _ _ _ 1 (k + B)); try assumption; try lia.
    { eapply wspec_wframe; [assumption |]. apply put_bit_spec; [assumption | lia]. }
    intros buf3 c3 _ Hwf3 _ _. cbn beta iota.
    apply (wframe_bind _ _ _ _ k B); try assumption; try lia.
    { eapply wspec_wframe; [assumption |]. apply put_number_spec; [assumption | lia]. }
    intros buf4 c4 _ Hwf4 _ _. cbn beta iota.
    apply IH; assumption.
Qed.

Lemma channels_bits_nonneg (n : nat) (i cap bprl chan : Z) :
  0 <= bprl < 256 -> 0 <= cap <= 512 ->
  0 <= channels_bits samples def n i cap bprl chan.
Proof.
  intros Hbprl Hcap. revert chan.
  induction n as [| n IHn]; intros chan; cbn [channels_bits]; [lia |].
  specialize (IHn (chan + 1)). unfold record_bits.
  set (ys := channel_samples samples def (Z.to_nat cap) i chan 0).
  pose proof (channel_samples_ok samples def Hsamples (Z.to_nat cap) i chan 0) as Hys.
  pose proof (channel_samples_length samples def (Z.to_nat cap) i chan 0) as Hl.
  fold ys in Hys, Hl.
  destruct (spec_rice_len_bound ys Hys ltac:(lia)) as [_ Hk'].
  pose proof (codewords_bits_nonneg (spec_rice_len ys) ys ltac:(lia) 0). lia.
Qed.

Lemma encode_channels_spec (n : nat) :
  forall i cap bprl chan buf c,
    wf_w buf c -> 0 <= bprl < 256 -> 0 <= cap <= 512 ->
    (forall ch', chan <= ch' < chan + Z.of_nat n ->
                 readable samples def (Z.to_nat cap) i ch' 0) ->
    wframe (encode_channels samples def n i cap bprl chan buf c) buf c
      (channels_bits samples def n i cap bprl chan).
Proof.
  induction n as [| n IH]; intros i cap bprl chan buf c Hwf Hbprl Hcap Hr.
  - cbn. now apply wframe_ret.
  - cbn [encode_channels channels_bits].
    pose proof (Hr chan ltac:(lia)) as Hr0.
    rewrite av_diff_loop_spec by assumption. unbind.
    set (xs := channel_samples samples def (Z.to_nat cap) i chan 0).
    pose proof (channel_samples_ok samples def Hsamples (Z.to_nat cap) i chan 0) as Hxs.
    pose proof (channel_samples_length samples def (Z.to_nat cap) i chan 0) as Hlen.
    fold xs in Hxs, Hlen.
    destruct (spec_rice_len_bound xs Hxs ltac:(lia)) as [Hav Hk].
    pose proof (sum_abs_diff_bound xs Hxs 0 ltac:(unfold sample_ok; lia)) as Hsum.
    rewrite Z.add_0_l. unfold BTW_BLOCK_SIZE.
    rewrite Z.quot_div_nonneg by lia.
    assert (2 ^ 32 < 2 ^ 63) by (apply Z.pow_lt_mono_r; lia).
    rewrite bits_required_log2 by lia. unbind.
    change (Z.log2 (sum_abs_diff 0 xs / 512)) with (spec_rice_len xs).
    rewrite (wrap_u_small 8 bprl) by (change (2 ^ 8) with 256; lia).
    set (k := spec_rice_len xs) in *.
    unfold record_bits. fold k.
    pose proof (codewords_bits_nonneg k xs ltac:(lia) 0) as HB.
    pose proof (channels_bits_nonneg n i cap bprl (chan + 1) Hbprl Hcap) as HC.
    apply (wframe_bind _ _ _ _ bprl
             (codewords_bits k 0 xs + channels_bits samples def n i cap bprl (chan + 1)));
      try assumption; try lia.
    { eapply wspec_wframe; [assumption |]. apply put_number_spec; [assumption | lia]. }
    intros buf1 c1 _ Hwf1 _ _. cbn beta iota.
    apply (wframe_bind _ _ _ _ (codewords_bits k 0 xs)
             (channels_bits samples def n i cap bprl (chan + 1)));
      try assumption; try lia.
    { apply encode_samples_spec; try assumption; try lia. unfold sample_ok; lia. }
    intros buf2 c2 _ Hwf2 _ _. cbn beta iota.
    apply IH; try assumption. intros ch' Hch'. apply Hr. lia.
Qed.

End EncoderLoops.

(** * The layout of the whole stream *)

Section EncoderStream.

Variable samples : list Z.
Variable def : btw_def.
Hypothesis Hshape : shape_ok samples def.

Lemma shape_samples : Forall sample_ok samples.
Proof. apply Hshape. Qed.

Lemma sample_index_small (i l chan : Z) :
  0 <= i -> 0 <= l -> i + l < sample_count def -> 0 <= chan < channels def ->
  sample_index def i l chan = (i + l) * channels def + chan
  /\ 0 <= sample_index def i l chan < Z.of_nat (length samples).
Proof.
  intros Hi Hl Hlt Hchan.
  destruct Hshape as (Hch & _ & _ & Hsc & Hlen & Hprod & _).
  assert (0 <= (i + l) * channels def + chan < sample_count def * channels def)
    as Hidx by nia.
  unfold sample_index.
  rewrite (wrap_u_small 64 (i + l)) by lia.
  rewrite (wrap_u_small 64 ((i + l) * channels def)) by nia.
  rewrite wrap_u_small by lia. lia.
Qed.

Lemma block_readable (i cap chan : Z) :
  0 <= i -> 0 <= cap -> i + cap <= sample_count def ->
  0 <= chan < channels def ->
  readable samples def (Z.to_nat cap) i chan 0.
Proof.
  intros Hi Hcap Hle Hchan l' Hl'. apply sample_index_small; lia.
Qed.

Lemma blocks_bits_nonneg (n : nat) (bprl : Z) :
  0 <= bprl < 256 -> forall i, 0 <= blocks_bits samples def n bprl i.
Proof.
  intros Hbprl. induction n as [| n IH]; intros i; cbn [blocks_bits]; [lia |].
  destruct (i <? sample_count def) eqn:E; [| lia].
  apply Z.ltb_lt in E. cbv zeta. unfold BTW_BLOCK_SIZE.
  pose proof (channels_bits_nonneg samples def shape_samples
                (Z.to_nat (channels def)) i (Z.min 512 (sample_count def - i))
                bprl 0 Hbprl ltac:(lia)).
  specialize (IH (i + Z.min 512 (sample_count def - i))). lia.
Qed.

Lemma encode_blocks_spec (fuel : nat) :
  forall bprl i buf c,
    wf_w buf c -> 0 <= bprl < 256 -> 0 <= i <= sample_count def ->
    sample_count def - i <= Z.of_nat fuel ->
    wframe (encode_blocks samples def fuel bprl i buf c) buf c
      (blocks_bits samples def fuel bprl i).
Proof.
  induction fuel as [| fuel IH]; intros bprl i buf c Hwf Hbprl Hi Hfuel.
  - cbn [encode_blocks blocks_bits].
    destruct (Z.ltb_spec i (sample_count def)); [lia |]. now apply wframe_ret.
  - cbn [encode_blocks blocks_bits].
    destruct (Z.ltb_spec i (sample_count def)) as [Hlt | Hge];
      [| now apply wframe_ret].
    cbv zeta. unfold BTW_BLOCK_SIZE.
    assert ((if sample_count def - i <? 512
             then wrap_u 32 (sample_count def - i) else 512)
            = Z.min 512 (sample_count def - i)) as ->.
    { destruct (Z.ltb_spec (sample_count def - i) 512).
      - rewrite wrap_u_small by (change (2 ^ 32) with 4294967296; lia). lia.
      - lia. }
    set (cap := Z.min 512 (sample_count def - i)).
    assert (0 < cap <= 512 /\ i + cap <= sample_count def) as [Hcap Hle]
      by (unfold cap; lia).
    pose proof (channels_bits_nonneg samples def shape_samples
                  (Z.to_nat (channels def)) i cap bprl 0 Hbprl ltac:(lia)) as HC.
    pose proof (blocks_bits_nonneg fuel bprl Hbprl (i + cap)) as HB.
    apply (wframe_bind _ _ _ _
             (channels_bits samples def (Z.to_nat (channels def)) i cap bprl 0)
             (blocks_bits samples def fuel bprl (i + cap)));
      try assumption; try lia.
    { apply encode_channels_spec; try assumption; try lia.
      - exact shape_samples.
      - intros ch' Hch'. destruct Hshape as (Hch & _).
        apply block_readable; lia. }
    intros buf1 c1 _ Hwf1 _ _. cbn beta iota.
    apply IH; try assumption; lia.
Qed.

End EncoderStream.

(** * The header *)

Lemma wrap_s_mod (w x : Z) : 0 < w -> wrap_s w x mod 2 ^ w = x mod 2 ^ w.
Proof.
  intros Hw. unfold wrap_s.
  assert (2 ^ w = 2 * 2 ^ (w - 1)) as E.
  { rewrite <- Z.pow_succ_r by lia. f_equal. lia. }
  pose proof (pow2_pos (w - 1) ltac:(lia)).
  rewrite Zminus_mod, Zmod_mod, <- Zminus_mod.
  f_equal. lia.
Qed.

Lemma wf_w_fresh (n : nat) : wf_w (replicate n 0) (mk_cursor 0 0).
Proof.
  repeat split; try (cbn; lia).
  - apply bytes_ok_replicate.
  - unfold cbits; cbn [c_pos c_bit]. lia.
  - rewrite le_combine_replicate. unfold cbits; cbn. lia.
Qed.

Lemma cursor_of_bits (c : cursor) (pos : Z) :
  cursor_ok c -> cbits c = 8 * pos -> c = mk_cursor pos 0.
Proof.
  destruct c as [p b]. unfold cursor_ok, cbits; cbn [c_pos c_bit].
  intros [Hp Hb] E. f_equal; lia.
Qed.

Lemma cursor_eq (c c' : cursor) :
  cursor_ok c -> cursor_ok c' -> cbits c = cbits c' -> c = c'.
Proof.
  destruct c as [p b], c' as [p' b']. unfold cursor_ok, cbits; cbn [c_pos c_bit].
  intros [Hp Hb] [Hp' Hb'] E. f_equal; lia.
Qed.

Lemma max_len_range (def : btw_def) : 1024 <= max_len def < 2 ^ 62.
Proof.
  unfold max_len.
  pose proof (wrap_u_range 64
                (wrap_u 64 (channels def * sample_count def) * bits_per_sample def)
                ltac:(lia)) as H.
  rewrite Z.quot_div_nonneg by lia.
  set (x := wrap_u 64 _) in *.
  assert (0 <= x / 8 < 2 ^ 61).
  { split; [apply Z.div_pos; lia |]. apply Z.div_lt_upper_bound; [lia |].
    change (8 * 2 ^ 61) with (2 ^ 64). lia. }
  change (2 ^ 61) with 2305843009213693952 in *.
  change (2 ^ 62) with 4611686018427387904. lia.
Qed.

Section Header.

Variable def : btw_def.
Variable n : nat.
Hypothesis Hn : 160 <= 8 * Z.of_nat n.
Hypothesis Hsc : 0 <= sample_count def < 2 ^ 64.

Lemma put_header_spec :
  exists buf,
    put_header def (replicate n 0) = Ok (buf, mk_cursor 20 0)
    /\ wf_w buf (mk_cursor 20 0) /\ length buf = n
    /\ le_combine buf = header_value def.
Proof.
  unfold put_header. cbv zeta.
  pose proof (wf_w_fresh n) as Hwf0.
  pose proof (put_number_spec _ _ 32 BTW_MAGIC Hwf0 ltac:(lia)) as H1.
  destruct (put_number (replicate n 0) (mk_cursor 0 0) 32 BTW_MAGIC)
    as [[b1 m1] | f]; cbn [wspec] in H1.
  2:{ rewrite length_replicate in H1. unfold cbits in H1; cbn in H1. lia. }
  destruct H1 as (_ & Hwf1 & Hl1 & Hc1 & HS1). unbind.
  pose proof (put_number_spec _ _ 64 (wrap_s 64 (sample_count def)) Hwf1 ltac:(lia))
    as H2.
  destruct (put_number b1 m1 64 (wrap_s 64 (sample_count def)))
    as [[b2 m2] | f]; cbn [wspec] in H2.
  2:{ rewrite Hl1, length_replicate, Hc1 in H2. unfold cbits in H2; cbn in H2. lia. }
  destruct H2 as (_ & Hwf2 & Hl2 & Hc2 & HS2). unbind.
  pose proof (put_number_spec _ _ 16 (channels def) Hwf2 ltac:(lia)) as H3.
  destruct (put_number b2 m2 16 (channels def))
    as [[b3 m3] | f]; cbn [wspec] in H3.
  2:{ rewrite Hl2, Hl1, length_replicate, Hc2, Hc1 in H3.
      unfold cbits in H3; cbn in H3. lia. }
  destruct H3 as (_ & Hwf3 & Hl3 & Hc3 & HS3). unbind.
  pose proof (put_number_spec _ _ 16 (bits_per_sample def) Hwf3 ltac:(lia)) as H4.
  destruct (put_number b3 m3 16 (bits_per_sample def))
    as [[b4 m4] | f]; cbn [wspec] in H4.
  2:{ rewrite Hl3, Hl2, Hl1, length_replicate, Hc3, Hc2, Hc1 in H4.
      unfold cbits in H4; cbn in H4. lia. }
  destruct H4 as (_ & Hwf4 & Hl4 & Hc4 & HS4). unbind.
  pose proof (put_number_spec _ _ 32 (wrap_s 64 (sample_rate def)) Hwf4 ltac:(lia))
    as H5.
  destruct (put_number b4 m4 32 (wrap_s 64 (sample_rate def)))
    as [[b5 m5] | f]; cbn [wspec] in H5.
  2:{ rewrite Hl4, Hl3, Hl2, Hl1, length_replicate, Hc4, Hc3, Hc2, Hc1 in H5.
      unfold cbits in H5; cbn in H5. lia. }
  destruct H5 as (_ & Hwf5 & Hl5 & Hc5 & HS5).
  assert (cbits (mk_cursor 0 0) = 0) as Hc0 by reflexivity.
  rewrite Hc4, Hc3, Hc2, Hc1, Hc0 in Hc5.
  assert (m5 = mk_cursor 20 0) as ->.
  { apply cursor_of_bits; [apply Hwf5 | lia]. }
  exists b5. split; [reflexivity |]. split; [assumption |].
  split; [rewrite Hl5, Hl4, Hl3, Hl2, Hl1; apply length_replicate |].
  rewrite HS5, HS4, HS3, HS2, HS1, le_combine_replicate.
  rewrite Hc4, Hc3, Hc2, Hc1, Hc0.
  unfold header_value.
  rewrite (wrap_s_mod 64) by lia.
  rewrite (Z.mod_small (sample_count def)) by lia.
  rewrite <- (mod_mod_pow2 (wrap_s 64 (sample_rate def)) 32 64) by lia.
  rewrite (wrap_s_mod 64) by lia. rewrite mod_mod_pow2 by lia.
  change (BTW_MAGIC mod 2 ^ 32) with BTW_MAGIC.
  change (0 + 32 + 64 + 16 + 16) with 128. change (0 + 32 + 64 + 16) with 112.
  change (0 + 32 + 64) with 96. change (0 + 32) with 32. change (2 ^ 0) with 1.
  lia.
Qed.

End Header.

(** * [btw_encode] as a whole *)

Lemma ceil8 (c : cursor) :
  cursor_ok c ->
  (if c_bit c =? 0 then c_pos c else c_pos c + 1) = (cbits c + 7) / 8.
Proof.
  intros [Hp Hb]. unfold cbits.
  destruct (Z.eqb_spec (c_bit c) 0) as [E | E].
  - rewrite E. apply Z.div_unique with 7; lia.
  - apply Z.div_unique with (c_bit c - 1); lia.
Qed.

Section EncodeBody.

Variable samples : list Z.
Variable def : btw_def.
Hypothesis Hshape : shape_ok samples def.

Lemma bits_per_rice_len_ok :
  bits_required (bits_per_sample def) = Ok (bit_length (bits_per_sample def))
  /\ 0 <= bit_length (bits_per_sample def) < 32.
Proof.
  destruct Hshape as (_ & Hbps & _).
  assert (2 ^ 32 < 2 ^ 63) by (apply Z.pow_lt_mono_r; lia).
  split; [apply bits_required_log2; lia |].
  unfold bit_length. split; [apply Z.log2_nonneg |].
  apply Z.log2_lt_pow2; lia.
Qed.

(** [btw_encode] either runs out of its buffer, exactly when the stream
    is longer than [max_len] bytes, or returns the stream and its
    length in bytes. *)
Lemma encode_body_spec :
  match encode_body samples def with
  | Ok (buf, n) =>
      stream_bits samples def <= 8 * max_len def
      /\ bytes_ok buf /\ Z.of_nat (length buf) = max_len def
      /\ n = (stream_bits samples def + 7) / 8
      /\ 0 <= le_combine buf < 2 ^ stream_bits samples def
      /\ le_combine buf mod 2 ^ 160 = header_value def
  | Fault f => f = OutOfBounds /\ 8 * max_len def < stream_bits samples def
  end.
Proof.
  unfold encode_body.
  destruct bits_per_rice_len_ok as [-> Hbprl]. unbind.
  pose proof (max_len_range def) as Hmax.
  pose proof Hshape as (Hch & Hbps & Hsr & Hsc & Hlen & Hprod & Hsamples).
  destruct (put_header_spec def (Z.to_nat (max_len def)) ltac:(lia) ltac:(lia))
    as (b5 & -> & Hwf5 & Hl5 & HS5).
  unbind. cbn [c_pos].
  pose proof (encode_blocks_spec samples def Hshape (Z.to_nat (sample_count def))
                (bit_length (bits_per_sample def)) 0 b5 (mk_cursor 20 0)
                Hwf5 ltac:(lia) ltac:(lia) ltac:(lia)) as Hblocks.
  fold (stream_bits samples def) in Hblocks.
  assert (cbits (mk_cursor 20 0) = 160) as Hc0 by reflexivity.
  unfold stream_bits, BTW_HEADER_SIZE.
  set (B := blocks_bits samples def (Z.to_nat (sample_count def))
              (bit_length (bits_per_sample def)) 0) in *.
  destruct (encode_blocks samples def (Z.to_nat (sample_count def))
              (bit_length (bits_per_sample def)) 0 b5 (mk_cursor 20 0))
    as [[buf c] | f]; cbn [wframe] in Hblocks; unbind.
  2:{ destruct Hblocks as [-> Hb]. split; [reflexivity |].
      rewrite Hl5, Hc0 in Hb. lia. }
  destruct Hblocks as (Hfit & Hwf & Hl & Hc & HS).
  rewrite Hl5, Hc0 in *.
  pose proof (wf_w_stream _ _ Hwf) as Hstream. rewrite Hc in Hstream.
  split; [lia |]. split; [apply Hwf |]. split; [rewrite Hl; lia |].
  split; [rewrite ceil8 by apply Hwf; rewrite Hc; f_equal; lia |].
  split; [replace (8 * 20 + B) with (160 + B) by lia; assumption |].
  rewrite HS. assumption.
Qed.

End EncodeBody.

(** * Reading back what was written *)

Lemma extends_back (data buf buf' : list Z) (c c' : cursor) (n : Z) :
  wf_w buf c -> 0 <= n -> wframe (Ok (buf', c')) buf c n ->
  extends data buf' c' -> extends data buf c.
Proof.
  intros Hwf Hn (Hfit & Hwf' & Hl & Hc & HS) (Hb & Hle & HD).
  pose proof (wf_w_cbits _ _ Hwf).
  repeat split; try assumption; try lia.
  rewrite <- HS, <- HD, Hc. symmetry. apply mod_mod_pow2. lia.
Qed.

Lemma extends_field (data buf buf' : list Z) (c c' : cursor) (n v : Z) :
  wf_w buf c -> 0 <= n -> 0 <= v < 2 ^ n ->
  wspec (Ok (buf', c')) buf c n v -> extends data buf' c' ->
  (le_combine data / 2 ^ cbits c) mod 2 ^ n = v.
Proof.
  intros Hwf Hn Hv (Hfit & Hwf' & Hl & Hc & HS) (Hb & Hle & HD).
  pose proof (wf_w_cbits _ _ Hwf). pose proof (wf_w_stream _ _ Hwf).
  rewrite Hc, HS in HD.
  now destruct (field_extract (le_combine data) (le_combine buf) v (cbits c) n
                  ltac:(lia) Hn ltac:(lia) Hv HD).
Qed.

Lemma readback_bit (data buf buf1 : list Z) (c c1 : cursor) (b : Z) :
  wf_w buf c -> 0 <= b <= 1 ->
  put_bit buf c b = Ok (buf1, c1) -> extends data buf1 c1 ->
  grab_bit data c = Ok (b, c1).
Proof.
  intros Hwf Hb E Hext.
  pose proof (put_bit_spec buf c b Hwf Hb) as Hw. rewrite E in Hw.
  pose proof (extends_field data buf buf1 c c1 1 b Hwf ltac:(lia)
                ltac:(change (2 ^ 1) with 2; lia) Hw Hext) as Hv.
  destruct Hw as (Hfit & Hwf1 & Hl & Hc & HS). destruct Hext as (Hd & Hle & HD).
  pose proof (grab_bit_spec data c Hd ltac:(apply Hwf)) as Hr.
  destruct (grab_bit data c) as [[v c'] | f]; cbn [rspec] in Hr.
  2:{ lia. }
  destruct Hr as (_ & Hc' & Hcb & ->).
  rewrite Hv. do 2 f_equal. apply cursor_eq; [assumption | apply Hwf1 | lia].
Qed.

Lemma readback_number (data buf buf1 : list Z) (c c1 : cursor) (bits number : Z) :
  wf_w buf c -> 0 <= bits < 256 -> number mod 2 ^ bits < 2 ^ 31 ->
  put_number buf c bits number = Ok (buf1, c1) -> extends data buf1 c1 ->
  grab_number data c bits = Ok (number mod 2 ^ bits, c1).
Proof.
  intros Hwf Hbits Hsmall E Hext.
  pose proof (put_number_spec buf c bits number Hwf Hbits) as Hw. rewrite E in Hw.
  pose proof (Z.mod_pos_bound number (2 ^ bits) ltac:(apply pow2_pos; lia)) as Hrange.
  pose proof (extends_field data buf buf1 c c1 bits _ Hwf ltac:(lia) Hrange Hw Hext)
    as Hv.
  destruct Hw as (Hfit & Hwf1 & Hl & Hc & HS). destruct Hext as (Hd & Hle & HD).
  pose proof (grab_number_spec data c bits Hd ltac:(apply Hwf) ltac:(lia)
                ltac:(lia) ltac:(rewrite Hv; exact Hsmall)) as Hr.
  destruct (grab_number data c bits) as [[v c'] | f]; cbn [rspec] in Hr.
  2:{ lia. }
  destruct Hr as (_ & Hc' & Hcb & ->).
  rewrite Hv. do 2 f_equal. apply cursor_eq; [assumption | apply Hwf1 | lia].
Qed.

(** The unary part: [q] ones and a zero.  Every one adds [1 << rice_len],
    shifted as an [int], to the [long long] sum. *)
Lemma grab_unary_spec (data : list Z) (k : Z) (q : nat) :
  bytes_ok data ->
  forall (c : cursor) (diff : Z) (fuel : nat),
    cursor_ok c ->
    cbits c + Z.of_nat q + 1 <= 8 * Z.of_nat (length data) ->
    (le_combine data / 2 ^ cbits c) mod 2 ^ (Z.of_nat q + 1) = 2 ^ Z.of_nat q - 1 ->
    (q < fuel)%nat ->
    (forall j, 0 <= j <= Z.of_nat q ->
               - 2 ^ 63 <= diff + j * int_shl 1 k < 2 ^ 63) ->
    exists c',
      grab_unary data fuel k diff c = Ok (diff + Z.of_nat q * int_shl 1 k, c')
      /\ cursor_ok c' /\ cbits c' = cbits c + Z.of_nat q + 1.
Proof.
  intros Hd. induction q as [| q IH]; intros c diff fuel Hc Hfit Hbits Hfuel Hno;
    (destruct fuel as [| fuel]; [lia |]); cbn [grab_unary].
  - pose proof (grab_bit_spec data c Hd Hc) as Hr.
    destruct (grab_bit data c) as [[v c'] | f]; cbn [rspec] in Hr; [| lia].
    destruct Hr as (_ & Hc' & Hcb & ->). unbind.
    change (Z.of_nat 0 + 1) with 1 in Hbits. change (2 ^ Z.of_nat 0 - 1) with 0 in Hbits.
    rewrite Hbits. cbn [Z.eqb]. exists c'. repeat split; try apply Hc'; try lia.
    do 2 f_equal. lia.
  - pose proof (grab_bit_spec data c Hd Hc) as Hr.
    destruct (grab_bit data c) as [[v c'] | f]; cbn [rspec] in Hr; [| lia].
    destruct Hr as (_ & Hc' & Hcb & ->). unbind.
    set (X := le_combine data / 2 ^ cbits c) in *.
    rewrite Nat2Z.inj_succ in *.
    replace (Z.succ (Z.of_nat q) + 1) with (1 + (Z.of_nat q + 1)) in Hbits by lia.
    rewrite mod_pow2_split in Hbits by lia.
    rewrite Z.pow_succ_r in Hbits by lia.
    pose proof (Z.mod_pos_bound X (2 ^ 1) ltac:(lia)) as Hb0.
    pose proof (Z.mod_pos_bound (X / 2 ^ 1) (2 ^ (Z.of_nat q + 1))
                  ltac:(apply pow2_pos; lia)) as Hb1.
    change (2 ^ 1) with 2 in *.
    assert (X mod 2 = 1 /\ (X / 2) mod 2 ^ (Z.of_nat q + 1) = 2 ^ Z.of_nat q - 1)
      as [Hbit Hrest] by lia.
    rewrite Hbit. cbn [Z.eqb].
    set (S1 := int_shl 1 k) in *.
    pose proof (Hno 1 ltac:(lia)) as Hno1.
    rewrite wrap_s_small by (change (2 ^ (64 - 1)) with (2 ^ 63); lia).
    destruct (IH c' (diff + S1) fuel Hc') as (c'' & E & Hc'' & Hcb'');
      try lia.
    + rewrite Hcb. pose proof (cbits_nonneg c Hc).
      rewrite div_pow2_add by lia. fold X. exact Hrest.
    + intros j Hj. pose proof (Hno (j + 1) ltac:(lia)). lia.
    + exists c''. rewrite E. repeat split; try apply Hc''; try lia.
      do 2 f_equal. lia.
Qed.

(** * One codeword *)

Lemma rice_join (d k : Z) :
  0 <= d -> 0 <= k -> Z.lor (Z.shiftr d k * 2 ^ k) (d mod 2 ^ k) = d.
Proof.
  intros Hd Hk. rewrite Z.lor_comm.
  pose proof (Z.mod_pos_bound d (2 ^ k) ltac:(apply pow2_pos; lia)).
  rewrite lor_disjoint by lia. rewrite Z.shiftr_div_pow2 by lia.
  pose proof (Z.div_mod d (2 ^ k) ltac:(apply Z.pow_nonzero; lia)). lia.
Qed.

(** [1 << rice_len] as an [int]: a power of two, negative at 31. *)
Lemma int_shl_one (k : Z) :
  0 <= k <= 31 -> int_shl 1 k = 2 ^ k \/ (k = 31 /\ int_shl 1 k = - 2 ^ 31).
Proof.
  intros Hk. destruct (Z.eq_dec k 31) as [-> | Hne].
  - right. split; reflexivity.
  - left. assert (2 ^ k < 2 ^ 31) by (apply Z.pow_lt_mono_r; lia).
    rewrite int_shl_small by lia. lia.
Qed.

(** What the decoder joins from the unary part and the remainder is the
    difference itself, or, at a Rice parameter of 31, [2^32] below it. *)
Lemma rice_join_wide (d k : Z) :
  0 <= d < 2 ^ 32 -> 0 <= k <= 31 ->
  exists m,
    0 <= m <= 1
    /\ Z.lor (Z.shiftr d k * int_shl 1 k) (d mod 2 ^ k) = d - m * 2 ^ 32.
Proof.
  intros Hd Hk. destruct (int_shl_one k Hk) as [-> | [-> ->]].
  - exists 0. split; [lia |]. rewrite rice_join by lia. lia.
  - assert (0 < 2 ^ 31) by (apply pow2_pos; lia).
    assert (2 ^ 32 = 2 * 2 ^ 31) as E32 by reflexivity.
    pose proof (Z.div_mod d (2 ^ 31) ltac:(lia)) as Hdm.
    pose proof (Z.mod_pos_bound d (2 ^ 31) ltac:(lia)) as Hr.
    rewrite Z.shiftr_div_pow2 by lia.
    assert (d / 2 ^ 31 = 0 \/ d / 2 ^ 31 = 1) as [E | E].
    { assert (0 <= d / 2 ^ 31) by (apply Z.div_pos; lia).
      assert (d / 2 ^ 31 < 2) by (apply Z.div_lt_upper_bound; lia). lia. }
    + exists 0. rewrite E in *. split; [lia |].
      rewrite Z.mul_0_l, Z.lor_0_l. lia.
    + exists 1. rewrite E in *. split; [lia |].
      rewrite Z.mul_1_l, Z.lor_comm.
      replace (- 2 ^ 31) with (-1 * 2 ^ 31) by lia.
      rewrite lor_disjoint by lia. lia.
Qed.

Lemma codeword_readback (data buf b1 b2 b3 b4 : list Z) (c c1 c2 c3 c4 : cursor)
    (s d k : Z) :
  wf_w buf c -> 0 <= s <= 1 -> 0 <= d < 2 ^ 32 -> 0 <= k <= 31 ->
  put_bit buf c s = Ok (b1, c1) ->
  put_ones b1 c1 (Z.shiftr d k) = Ok (b2, c2) ->
  put_bit b2 c2 0 = Ok (b3, c3) ->
  put_number b3 c3 k d = Ok (b4, c4) ->
  extends data b4 c4 ->
  grab_bit data c = Ok (s, c1)
  /\ grab_unary data (S (8 * length data)) k 0 c1
     = Ok (Z.shiftr d k * int_shl 1 k, c3)
  /\ grab_number data c3 k = Ok (d mod 2 ^ k, c4)
  /\ wf_w b4 c4 /\ wframe (Ok (b4, c4)) buf c (codeword_bits k d).
Proof.
  intros Hwf Hs Hd Hk E1 E2 E3 E4 Hext.
  pose proof (shiftr_bound d k ltac:(lia) ltac:(lia)) as Hq.
  set (q := Z.shiftr d k) in *.
  pose proof (put_bit_spec buf c s Hwf Hs) as W1. rewrite E1 in W1.
  pose proof W1 as (_ & Hwf1 & Hl1 & Hc1 & HS1).
  pose proof (put_ones_spec b1 c1 q Hwf1 ltac:(lia)) as W2. rewrite E2 in W2.
  pose proof W2 as (Hfit2 & Hwf2 & Hl2 & Hc2 & HS2).
  pose proof (put_bit_spec b2 c2 0 Hwf2 ltac:(lia)) as W3. rewrite E3 in W3.
  pose proof W3 as (Hfit3 & Hwf3 & Hl3 & Hc3 & HS3).
  pose proof (put_number_spec b3 c3 k d Hwf3 ltac:(lia)) as W4. rewrite E4 in W4.
  pose proof W4 as (Hfit4 & Hwf4 & Hl4 & Hc4 & HS4).
  assert (extends data b3 c3) as Hext3.
  { eapply (extends_back data b3 b4 c3 c4 k); try eassumption; [lia |].
    eapply wspec_wframe; eassumption. }
  assert (extends data b2 c2) as Hext2.
  { eapply (extends_back data b2 b3 c2 c3 1); try eassumption; [lia |].
    eapply wspec_wframe; eassumption. }
  assert (extends data b1 c1) as Hext1.
  { eapply (extends_back data b1 b2 c1 c2 q); try eassumption; [lia |].
    eapply wspec_wframe; eassumption. }
  assert (0 < 2 ^ k) by (apply pow2_pos; lia).
  assert (2 ^ k <= 2 ^ 31) by (apply Z.pow_le_mono_r; lia).
  split; [eapply readback_bit; eassumption |].
  split.
  - (* the run of ones and its terminator, read as one field *)
    assert (wspec (Ok (b3, c3)) b1 c1 (q + 1) (2 ^ q - 1)) as W23.
    { cbn [wspec]. rewrite Hl3, Hl2 in *. repeat split; try apply Hwf3; lia. }
    pose proof (pow2_pos q ltac:(lia)).
    pose proof (extends_field data b1 b3 c1 c3 (q + 1) (2 ^ q - 1) Hwf1 ltac:(lia)
                  ltac:(rewrite Z.pow_add_r by lia; change (2 ^ 1) with 2; lia)
                  W23 Hext3) as Hones.
    destruct Hext3 as (Hdata & Hle3 & HD3).
    pose proof (wf_w_cbits _ _ Hwf1).
    destruct (grab_unary_spec data k (Z.to_nat q) Hdata c1 0 (S (8 * length data)))
      as (c' & E & Hc' & Hcb'); try (rewrite Z2Nat.id by lia); try lia;
      try apply Hwf1; try assumption.
    { intros j Hj.
      assert (q * 2 ^ k <= d).
      { unfold q. rewrite Z.shiftr_div_pow2 by lia.
        rewrite Z.mul_comm. apply Z.mul_div_le. lia. }
      change (2 ^ 32) with 4294967296 in *.
      change (2 ^ 63) with 9223372036854775808.
      destruct (int_shl_one k Hk) as [-> | [-> ->]];
        change (2 ^ 31) with 2147483648 in *; nia. }
    rewrite Z2Nat.id in E, Hcb' by lia. rewrite Z.add_0_l in E. rewrite E.
    do 2 f_equal. apply cursor_eq; [assumption | apply Hwf3 | lia].
  - split.
    + eapply readback_number; try eassumption; try lia.
      pose proof (Z.mod_pos_bound d (2 ^ k) ltac:(lia)). lia.
    + split; [assumption |].
      assert (0 <= codeword_bits k d - 1).
      { unfold codeword_bits. rewrite Z.abs_eq by lia. fold q. lia. }
      unfold codeword_bits. rewrite Z.abs_eq by lia. fold q.
      cbn [wframe]. rewrite Hl4, Hl3, Hl2, Hl1 in *.
      pose proof (wf_w_cbits _ _ Hwf). pose proof (wf_w_cbits _ _ Hwf1).
      pose proof (wf_w_cbits _ _ Hwf2). pose proof (wf_w_cbits _ _ Hwf3).
      pose proof (wf_w_stream _ _ Hwf).
      repeat split; try apply Hwf4; try lia.
      rewrite HS4, HS3, HS2, HS1, Hc3, Hc2, Hc1.
      rewrite !Z.pow_add_r by lia.
      replace (le_combine buf + s * 2 ^ cbits c + (2 ^ q - 1) * (2 ^ cbits c * 2 ^ 1)
               + 0 * (2 ^ cbits c * 2 ^ 1 * 2 ^ q)
               + d mod 2 ^ k * (2 ^ cbits c * 2 ^ 1 * 2 ^ q * 2 ^ 1))
        with (le_combine buf
              + (s + (2 ^ q - 1) * 2 ^ 1 + d mod 2 ^ k * (2 ^ 1 * 2 ^ q * 2 ^ 1))
                * 2 ^ cbits c) by ring.
      rewrite Z.mod_add by (apply Z.pow_nonzero; lia). apply Z.mod_small. lia.
Qed.

(** * Decoding one block *)

Lemma in_fmt_ok (fmt : sample_fmt) (x : Z) : in_fmt fmt x -> sample_ok x.
Proof. destruct fmt; unfold in_fmt, sample_ok; cbn; lia. Qed.

Lemma fmt_conv_id (fmt : sample_fmt) (x : Z) : in_fmt fmt x -> fmt_conv fmt x = x.
Proof.
  destruct fmt; unfold in_fmt; cbn [fmt_min fmt_max fmt_conv]; intros H.
  - apply wrap_u_small. change (2 ^ 8) with 256. lia.
  - apply wrap_s_small; [lia |]. change (2 ^ (16 - 1)) with 32768. lia.
  - apply wrap_s_small; [lia |]. change (2 ^ (32 - 1)) with 2147483648. lia.
Qed.

(** A conversion to a sample type forgets multiples of [2^32]. *)
Lemma fmt_conv_period (fmt : sample_fmt) (x m : Z) :
  fmt_conv fmt (x + m * 2 ^ 32) = fmt_conv fmt x.
Proof.
  destruct fmt; cbn [fmt_conv]; unfold wrap_u, wrap_s.
  - replace (x + m * 2 ^ 32) with (x + m * 2 ^ 24 * 2 ^ 8)
      by (change (2 ^ 32) with (2 ^ 24 * 2 ^ 8); ring).
    now rewrite Z.mod_add by (apply Z.pow_nonzero; lia).
  - replace (x + m * 2 ^ 32 + 2 ^ (16 - 1)) with (x + 2 ^ (16 - 1) + m * 2 ^ 16 * 2 ^ 16)
      by (change (2 ^ 32) with (2 ^ 16 * 2 ^ 16); ring).
    now rewrite Z.mod_add by (apply Z.pow_nonzero; lia).
  - replace (x + m * 2 ^ 32 + 2 ^ (32 - 1)) with (x + 2 ^ (32 - 1) + m * 2 ^ 32) by ring.
    now rewrite Z.mod_add by (apply Z.pow_nonzero; lia).
Qed.

Lemma in_fmt_zero (fmt : sample_fmt) : in_fmt fmt 0.
Proof. destruct fmt; unfold in_fmt; cbn; lia. Qed.

Section DecodeBlock.

Variable fmt : sample_fmt.
Variable samples : list Z.
Variable def : btw_def.
Variable data : list Z.
Hypothesis Hshape : shape_ok samples def.
Hypothesis Hfmt : Forall (in_fmt fmt) samples.

Lemma sample_val_fmt (i l chan : Z) : in_fmt fmt (sample_val samples def i l chan).
Proof.
  unfold sample_val.
  destruct (samples !! Z.to_nat (sample_index def i l chan)) as [x |] eqn:E; cbn.
  - exact (Forall_lookup_1 _ _ _ _ Hfmt E).
  - apply in_fmt_zero.
Qed.

Variable i chan k : Z.
Hypothesis Hi : 0 <= i.
Hypothesis Hchan : 0 <= chan < channels def.
Hypothesis Hk : 0 <= k <= 31.

Lemma decode_samples_pair (n : nat) :
  forall l prev buf c buf' c' out olen,
    wf_w buf c -> in_fmt fmt prev ->
    0 <= l -> i + l + Z.of_nat n <= sample_count def ->
    encode_samples samples def n i chan k l prev buf c = Ok (buf', c') ->
    extends data buf' c' ->
    length out = length samples ->
    0 <= olen -> olen + Z.of_nat n < 2 ^ 64 ->
    exists out',
      decode_samples fmt data def n i chan k l prev c out olen
      = Ok (c', out', olen + Z.of_nat n)
      /\ length out' = length out
      /\ (forall l', l <= l' < l + Z.of_nat n ->
            out' !! Z.to_nat ((i + l') * channels def + chan)
            = Some (Some (sample_val samples def i l' chan)))
      /\ (forall idx : nat,
            (forall l', l <= l' < l + Z.of_nat n ->
               idx <> Z.to_nat ((i + l') * channels def + chan)) ->
            out' !! idx = out !! idx).
Proof.
  induction n as [| n IH];
    intros l prev buf c buf' c' out olen Hwf Hprev Hl Hle Henc Hext Hout Holen Hno.
  - cbn in Henc. injection Henc as <- <-. cbn [decode_samples].
    exists out. rewrite Z.add_0_r.
    split; [reflexivity |]. split; [reflexivity |].
    split; [intros; lia | intros; reflexivity].
  - assert (readable samples def (S n) i chan l) as Hr.
    { intros l' Hl'. apply (sample_index_small samples def Hshape); lia. }
    destruct (readable_step _ _ _ _ _ _ Hr) as [E Hr'].
    destruct (sample_index_small samples def Hshape i l chan Hi Hl ltac:(lia) Hchan)
      as [Hidx Hin].
    cbn [encode_samples] in Henc. rewrite E in Henc. unbind.
    set (cur := sample_val samples def i l chan) in *.
    pose proof (sample_val_fmt i l chan) as Hcur. fold cur in Hcur.
    pose proof (abs_diff_bound cur prev (in_fmt_ok _ _ Hcur) (in_fmt_ok _ _ Hprev))
      as Habs.
    rewrite BTW_abs_abs, rice_un_small in Henc by lia.
    rewrite (wrap_u_small 8 k) in Henc by (change (2 ^ 8) with 256; lia).
    set (d := Z.abs (cur - prev)) in *.
    set (s := b2z (cur - prev <? 0)) in *.
    assert (0 <= s <= 1) as Hs by (unfold s, b2z; destruct (cur - prev <? 0); lia).
    destruct (put_bit buf c s) as [[b1 c1] | f] eqn:E1; [unbind | discriminate].
    destruct (put_ones b1 c1 (Z.shiftr d k)) as [[b2 c2] | f] eqn:E2;
      [unbind | discriminate].
    destruct (put_bit b2 c2 0) as [[b3 c3] | f] eqn:E3; [unbind | discriminate].
    destruct (put_number b3 c3 k d) as [[b4 c4] | f] eqn:E4; [unbind | discriminate].
    (* the rest of the block extends what this codeword left *)
    assert (wf_w b4 c4) as Hwf4.
    { pose proof (put_bit_spec buf c s Hwf Hs) as W1. rewrite E1 in W1.
      pose proof (put_ones_spec b1 c1 (Z.shiftr d k) ltac:(apply W1)
                    ltac:(apply Z.shiftr_nonneg; lia)) as W2. rewrite E2 in W2.
      pose proof (put_bit_spec b2 c2 0 ltac:(apply W2) ltac:(lia)) as W3.
      rewrite E3 in W3.
      pose proof (put_number_spec b3 c3 k d ltac:(apply W3) ltac:(lia)) as W4.
      rewrite E4 in W4. apply W4. }
    pose proof (encode_samples_spec samples def (shape_samples _ _ Hshape) n i chan k
                  (l + 1) cur b4 c4 Hwf4 ltac:(lia) (in_fmt_ok _ _ Hcur) Hr') as Wtail.
    rewrite Henc in Wtail.
    assert (extends data b4 c4) as Hext4.
    { refine (extends_back data b4 buf' c4 c' _ Hwf4 _ Wtail Hext).
      apply codewords_bits_nonneg; lia. }
    destruct (codeword_readback data buf b1 b2 b3 b4 c c1 c2 c3 c4 s d k
                Hwf Hs Habs Hk E1 E2 E3 E4 Hext4) as (G1 & G2 & G3 & _ & _).
    cbn [decode_samples]. rewrite G1. unbind. rewrite G2. unbind. rewrite G3. unbind.
    destruct (rice_join_wide d k Habs Hk) as (m & Hm & ->).
    pose proof (in_fmt_ok _ _ Hcur) as Hcur'. unfold sample_ok in Hcur'.
    pose proof (in_fmt_ok _ _ Hprev) as Hprev'. unfold sample_ok in Hprev'.
    assert (exists m',
               wrap_s 64 (prev + (if s =? 0 then d - m * 2 ^ 32
                                  else wrap_s 64 ((d - m * 2 ^ 32) * -1)))
               = cur + m' * 2 ^ 32) as (m' & ->).
    { change (2 ^ 32) with 4294967296 in *.
      unfold s, d, b2z. destruct (Z.ltb_spec (cur - prev) 0); cbn [Z.eqb].
      - exists m.
        rewrite (wrap_s_small 64 ((Z.abs (cur - prev) - m * 4294967296) * -1))
          by (change (2 ^ (64 - 1)) with 9223372036854775808; lia).
        rewrite wrap_s_small by (change (2 ^ (64 - 1)) with 9223372036854775808; lia).
        lia.
      - exists (- m).
        rewrite wrap_s_small by (change (2 ^ (64 - 1)) with 9223372036854775808; lia).
        lia. }
    rewrite fmt_conv_period.
    rewrite (fmt_conv_id fmt cur Hcur).
    fold (sample_index def i l chan). rewrite Hidx.
    rewrite store_ok by (rewrite Hout; lia). unbind.
    rewrite (wrap_u_small 64 (olen + 1)) by lia.
    set (idx0 := Z.to_nat ((i + l) * channels def + chan)) in *.
    destruct (IH (l + 1) cur b4 c4 buf' c' (<[idx0 := Some cur]> out) (olen + 1)
                Hwf4 Hcur ltac:(lia) ltac:(lia) Henc Hext
                ltac:(rewrite length_insert; exact Hout) ltac:(lia) ltac:(lia))
      as (out' & Edec & Hlen' & Hset & Hframe).
    exists out'. rewrite Edec.
    split; [do 2 f_equal; lia |].
    split; [rewrite Hlen'; apply length_insert |].
    destruct Hshape as (Hch & _).
    split.
    + intros l' Hl'. destruct (Z.eq_dec l' l) as [-> | Hne].
      * rewrite Hframe.
        -- fold idx0. apply list_lookup_insert_eq. rewrite Hout. lia.
        -- intros l'' Hl''. unfold idx0. nia.
      * apply Hset. lia.
    + intros idx Hidx'. rewrite Hframe.
      * apply list_lookup_insert_ne. intros <-. apply (Hidx' l); [lia | reflexivity].
      * intros l'' Hl''. apply Hidx'. lia.
Qed.

End DecodeBlock.

Lemma index_inj (ch a c a' c' : Z) :
  0 < ch -> 0 <= a -> 0 <= a' -> 0 <= c < ch -> 0 <= c' < ch ->
  Z.to_nat (a * ch + c) = Z.to_nat (a' * ch + c') -> a = a' /\ c = c'.
Proof.
  intros Hch Ha Ha' Hc Hc' E. apply Z2Nat.inj in E; try nia.
  assert (a = a') by nia. subst. lia.
Qed.

Lemma rice_fits_field (samples : list Z) (def : btw_def) (i cap chan : Z) :
  rice_fits samples def i cap chan -> rice_in_field samples def i cap chan.
Proof. intros [_ H]. exact H. Qed.

Section DecodeChannels.

Variable fmt : sample_fmt.
Variable samples : list Z.
Variable def : btw_def.
Variable data : list Z.
Hypothesis Hshape : shape_ok samples def.
Hypothesis Hfmt : Forall (in_fmt fmt) samples.

Variable i cap bprl : Z.
Hypothesis Hi : 0 <= i.
Hypothesis Hcap : 0 < cap <= 512.
Hypothesis Hle : i + cap <= sample_count def.
Hypothesis Hbprl : bprl = bit_length (bits_per_sample def).

Lemma decode_channels_pair (n : nat) :
  forall chan buf c buf' c' out olen,
    wf_w buf c -> 0 <= chan -> chan + Z.of_nat n <= channels def ->
    (forall ch', chan <= ch' < chan + Z.of_nat n ->
                 rice_in_field samples def i cap ch') ->
    encode_channels samples def n i cap bprl chan buf c = Ok (buf', c') ->
    extends data buf' c' ->
    length out = length samples ->
    0 <= olen -> olen + Z.of_nat n * cap < 2 ^ 64 ->
    exists out',
      decode_channels fmt data def n i cap bprl chan c out olen
      = Ok (c', out', olen + Z.of_nat n * cap)
      /\ length out' = length out
      /\ (forall ch' l, chan <= ch' < chan + Z.of_nat n -> 0 <= l < cap ->
            out' !! Z.to_nat ((i + l) * channels def + ch')
            = Some (Some (sample_val samples def i l ch')))
      /\ (forall idx : nat,
            (forall ch' l, chan <= ch' < chan + Z.of_nat n -> 0 <= l < cap ->
               idx <> Z.to_nat ((i + l) * channels def + ch')) ->
            out' !! idx = out !! idx).
Proof.
  pose proof (bits_per_rice_len_ok samples def Hshape) as [_ Hb]. rewrite <- Hbprl in Hb.
  induction n as [| n IH];
    intros chan buf c buf' c' out olen Hwf Hchan Hn Hrice Henc Hext Hout Holen Hno.
  - cbn in Henc. injection Henc as <- <-. cbn [decode_channels].
    exists out. rewrite Z.add_0_r.
    split; [reflexivity |]. split; [reflexivity |].
    split; [intros; lia | intros; reflexivity].
  - pose proof (shape_samples _ _ Hshape) as Hsamples.
    assert (readable samples def (Z.to_nat cap) i chan 0) as Hr
      by (apply (block_readable samples def Hshape); lia).
    cbn [encode_channels] in Henc.
    rewrite av_diff_loop_spec in Henc by assumption. unbind.
    set (xs := channel_samples samples def (Z.to_nat cap) i chan 0) in *.
    pose proof (channel_samples_ok samples def Hsamples (Z.to_nat cap) i chan 0) as Hxs.
    pose proof (channel_samples_length samples def (Z.to_nat cap) i chan 0) as Hlen.
    fold xs in Hxs, Hlen.
    destruct (spec_rice_len_bound xs Hxs ltac:(lia)) as [Hav Hk].
    pose proof (sum_abs_diff_bound xs Hxs 0 ltac:(unfold sample_ok; lia)) as Hsum.
    rewrite Z.add_0_l in Henc. unfold BTW_BLOCK_SIZE in Henc.
    rewrite Z.quot_div_nonneg in Henc by lia.
    assert (2 ^ 32 < 2 ^ 63) by (apply Z.pow_lt_mono_r; lia).
    rewrite bits_required_log2 in Henc by lia. unbind.
    change (Z.log2 (sum_abs_diff 0 xs / 512)) with (spec_rice_len xs) in Henc.
    rewrite (wrap_u_small 8 bprl) in Henc by (change (2 ^ 8) with 256; lia).
    pose proof (Hrice chan ltac:(lia)) as Hkfit. unfold rice_in_field in Hkfit.
    fold xs in Hkfit. rewrite <- Hbprl in Hkfit.
    set (k := spec_rice_len xs) in *.
    destruct (put_number buf c bprl k) as [[b1 c1] | f] eqn:E1; [unbind | discriminate].
    destruct (encode_samples samples def (Z.to_nat cap) i chan k 0 0 b1 c1)
      as [[b2 c2] | f] eqn:E2; [unbind | discriminate].
    pose proof (put_number_spec buf c bprl k Hwf ltac:(lia)) as W1. rewrite E1 in W1.
    assert (wf_w b1 c1) as Hwf1 by apply W1.
    pose proof (encode_samples_spec samples def Hsamples (Z.to_nat cap) i chan k 0 0
                  b1 c1 Hwf1 ltac:(lia) ltac:(unfold sample_ok; lia) Hr) as W2.
    rewrite E2 in W2.
    assert (wf_w b2 c2) as Hwf2 by apply W2.
    pose proof (encode_channels_spec samples def Hsamples n i cap bprl (chan + 1)
                  b2 c2 Hwf2 ltac:(lia) ltac:(lia)) as W3.
    rewrite Henc in W3.
    specialize (W3 ltac:(intros ch' Hch';
                         apply (block_readable samples def Hshape); lia)).
    assert (extends data b2 c2) as Hext2.
    { refine (extends_back data b2 buf' c2 c' _ Hwf2 _ W3 Hext).
      apply channels_bits_nonneg; try assumption; lia. }
    assert (extends data b1 c1) as Hext1.
    { refine (extends_back data b1 b2 c1 c2 _ Hwf1 _ W2 Hext2).
      apply codewords_bits_nonneg; lia. }
    assert (k mod 2 ^ bprl = k) as Hkmod by (apply Z.mod_small; lia).
    pose proof (readback_number data buf b1 c c1 bprl k Hwf ltac:(lia)
                  ltac:(rewrite Hkmod; change (2 ^ 31) with 2147483648; lia)
                  E1 Hext1) as G1.
    rewrite Hkmod in G1.
    cbn [decode_channels]. rewrite G1. unbind.
    rewrite (wrap_s_small 32 k)
      by (change (2 ^ (32 - 1)) with 2147483648; lia).
    destruct (decode_samples_pair fmt samples def data Hshape Hfmt i chan k Hi
                ltac:(lia) ltac:(lia) (Z.to_nat cap) 0 0 b1 c1 b2 c2 out olen
                Hwf1 (in_fmt_zero fmt) ltac:(lia) ltac:(lia) E2 Hext2 Hout Holen
                ltac:(nia))
      as (out1 & D1 & Hl1 & Hset1 & Hframe1).
    rewrite D1. unbind. rewrite Z2Nat.id in * by lia.
    destruct (IH (chan + 1) b2 c2 buf' c' out1 (olen + cap) Hwf2 ltac:(lia) ltac:(lia))
      as (out' & D2 & Hl2 & Hset2 & Hframe2); try assumption; try lia; try nia.
    { intros ch' Hch'. apply Hrice. lia. }
    exists out'. rewrite D2.
    split; [do 2 f_equal; lia |].
    split; [congruence |].
    destruct Hshape as (Hch & _).
    split.
    + intros ch' l Hch' Hl'. destruct (Z.eq_dec ch' chan) as [-> | Hne].
      * rewrite Hframe2.
        -- apply Hset1. lia.
        -- intros ch'' l'' Hch'' Hl'' Eidx.
           apply index_inj in Eidx; lia.
      * apply Hset2; lia.
    + intros idx Hidx. rewrite Hframe2.
      * apply Hframe1. intros l' Hl'. apply Hidx; lia.
      * intros ch'' l'' Hch'' Hl''. apply Hidx; lia.
Qed.

End DecodeChannels.

(** * Reading the header *)

Lemma field_of_prefix (D a b n : Z) :
  0 <= a -> 0 <= b -> a + b <= n ->
  (D / 2 ^ a) mod 2 ^ b = ((D mod 2 ^ n) / 2 ^ a) mod 2 ^ b.
Proof.
  intros Ha Hb Hn. replace n with (a + (n - a)) by lia.
  rewrite mod_pow2_split by lia.
  rewrite Z.div_add by (apply Z.pow_nonzero; lia).
  rewrite (Z.div_small (D mod 2 ^ a)) by (apply Z.mod_pos_bound, pow2_pos; lia).
  rewrite Z.add_0_l. symmetry. apply mod_mod_pow2. lia.
Qed.

Lemma le_combine_take (l : list Z) :
  bytes_ok l ->
  forall m : nat, le_combine (take m l) = le_combine l mod 2 ^ (8 * Z.of_nat m).
Proof.
  induction 1 as [| x l Hx Hl IH]; intros m.
  - rewrite take_nil. cbn. now rewrite Z.mod_0_l by (apply Z.pow_nonzero; lia).
  - destruct m as [| m].
    + cbn [take le_combine]. change (2 ^ (8 * Z.of_nat 0)) with 1.
      now rewrite Z.mod_1_r.
    + cbn [take le_combine]. rewrite IH.
      replace (8 * Z.of_nat (S m)) with (8 + 8 * Z.of_nat m) by lia.
      rewrite (mod_pow2_split (x + 256 * le_combine l) 8) by lia.
      change (2 ^ 8) with 256.
      rewrite (Z.mul_comm 256 (le_combine l)).
      rewrite (Z.mod_add x (le_combine l) 256) by lia.
      rewrite (Z.div_add x (le_combine l) 256) by lia.
      rewrite (Z.mod_small x), (Z.div_small x) by lia. rewrite Z.add_0_l. lia.
Qed.

Lemma bytes_ok_take (l : list Z) (m : nat) : bytes_ok l -> bytes_ok (take m l).
Proof. apply Forall_take. Qed.

Lemma header_fields (def : btw_def) :
  0 <= sample_count def < 2 ^ 64 ->
  let H := header_value def in
  0 <= H < 2 ^ 160
  /\ H mod 2 ^ 32 = BTW_MAGIC
  /\ (H / 2 ^ 32) mod 2 ^ 64 = sample_count def
  /\ (H / 2 ^ 96) mod 2 ^ 16 = channels def mod 2 ^ 16
  /\ (H / 2 ^ 112) mod 2 ^ 16 = bits_per_sample def mod 2 ^ 16
  /\ (H / 2 ^ 128) mod 2 ^ 32 = sample_rate def mod 2 ^ 32.
Proof.
  intros Hsc. cbv zeta. unfold header_value.
  pose proof (Z.mod_pos_bound (channels def) (2 ^ 16) ltac:(lia)) as Hc.
  pose proof (Z.mod_pos_bound (bits_per_sample def) (2 ^ 16) ltac:(lia)) as Hb.
  pose proof (Z.mod_pos_bound (sample_rate def) (2 ^ 32) ltac:(lia)) as Hr.
  set (c16 := channels def mod 2 ^ 16) in *.
  set (b16 := bits_per_sample def mod 2 ^ 16) in *.
  set (r32 := sample_rate def mod 2 ^ 32) in *.
  set (sc := sample_count def) in *.
  change BTW_MAGIC with 1719104610.
  change (2 ^ 16) with 65536 in *. change (2 ^ 32) with 4294967296 in *.
  change (2 ^ 64) with 18446744073709551616 in *.
  change (2 ^ 96) with 79228162514264337593543950336 in *.
  change (2 ^ 112) with 5192296858534827628530496329220096 in *.
  change (2 ^ 128) with 340282366920938463463374607431768211456 in *.
  change (2 ^ 160) with 1461501637330902918203684832716283019655932542976 in *.
  repeat split; try lia.
  all: Z.div_mod_to_equations; lia.
Qed.

Lemma grab_field (data : list Z) (c : cursor) (bits v pos' : Z) :
  bytes_ok data -> cursor_ok c -> 0 <= bits ->
  cbits c + bits <= 8 * Z.of_nat (length data) ->
  (le_combine data / 2 ^ cbits c) mod 2 ^ bits = v -> v < 2 ^ 31 ->
  cbits c + bits = 8 * pos' ->
  grab_number data c bits = Ok (v, mk_cursor pos' 0).
Proof.
  intros Hd Hc Hbits Hfit Hv Hsmall Hpos.
  pose proof (grab_number_spec data c bits Hd Hc Hbits ltac:(lia)
                ltac:(rewrite Hv; exact Hsmall)) as Hr.
  destruct (grab_number data c bits) as [[v' c'] | f]; cbn [rspec] in Hr; [| lia].
  destruct Hr as (_ & Hc' & Hcb & ->). rewrite Hv. do 2 f_equal.
  apply cursor_of_bits; [assumption | lia].
Qed.

Section ReadHeader.

Variable data : list Z.
Variable def : btw_def.
Hypothesis Hdata : bytes_ok data.
Hypothesis Hlen : 20 <= Z.of_nat (length data).
Hypothesis Hhead : le_combine data mod 2 ^ 160 = header_value def.
Hypothesis Hsc : 0 <= sample_count def < 2 ^ 64.

Lemma header_field (a b : Z) :
  0 <= a -> 0 <= b -> a + b <= 160 ->
  (le_combine data / 2 ^ a) mod 2 ^ b = (header_value def / 2 ^ a) mod 2 ^ b.
Proof.
  intros Ha Hb Hab. rewrite (field_of_prefix _ a b 160) by lia.
  now rewrite Hhead.
Qed.

Lemma magic_byte (k : Z) :
  0 <= k < 4 ->
  load data k = Ok ((BTW_MAGIC / 2 ^ (8 * k)) mod 256).
Proof.
  intros Hk. pose proof (load_stream data k Hdata) as Hl.
  destruct (load data k) as [byte | f]; [| lia].
  destruct Hl as [_ ->]. f_equal. change 256 with (2 ^ 8).
  rewrite header_field by lia.
  rewrite (field_of_prefix _ (8 * k) 8 32) by lia.
  destruct (header_fields def Hsc) as (_ & -> & _). reflexivity.
Qed.

Lemma read_metadata_stream (d0 : btw_def) :
  sample_count def < 2 ^ 31 -> sample_rate def mod 2 ^ 32 < 2 ^ 31 ->
  btw_read_metadata (Some data) (Some d0)
  = Ok (Some (mk_def (channels def mod 2 ^ 16) (bits_per_sample def mod 2 ^ 16)
                (sample_rate def mod 2 ^ 32) (sample_count def))).
Proof.
  intros Hsc31 Hsr31. unfold btw_read_metadata.
  rewrite (magic_byte 0) by lia. unbind.
  change (negb (BTW_MAGIC / 2 ^ (8 * 0) mod 256 =? 98)) with false. cbv iota.
  rewrite (magic_byte 1) by lia. unbind.
  change (negb (BTW_MAGIC / 2 ^ (8 * 1) mod 256 =? 116)) with false. cbv iota.
  rewrite (magic_byte 2) by lia. unbind.
  change (negb (BTW_MAGIC / 2 ^ (8 * 2) mod 256 =? 119)) with false. cbv iota.
  rewrite (magic_byte 3) by lia. unbind.
  change (negb (BTW_MAGIC / 2 ^ (8 * 3) mod 256 =? 102)) with false. cbv iota.
  destruct (header_fields def Hsc) as (_ & _ & F1 & F2 & F3 & F4).
  pose proof (Z.mod_pos_bound (channels def) (2 ^ 16) ltac:(lia)) as Hc.
  pose proof (Z.mod_pos_bound (bits_per_sample def) (2 ^ 16) ltac:(lia)) as Hb.
  pose proof (Z.mod_pos_bound (sample_rate def) (2 ^ 32) ltac:(lia)) as Hr.
  assert (2 ^ 16 = 65536 /\ 2 ^ 31 = 2147483648 /\ 2 ^ 32 = 4294967296
          /\ 2 ^ 64 = 18446744073709551616) as (P16 & P31 & P32 & P64)
    by (repeat split; reflexivity).
  rewrite (grab_field data (mk_cursor 4 0) 64 (sample_count def) 12);
    try assumption; try (unfold cursor_ok, cbits; cbn [c_pos c_bit]; lia).
  2:{ change (cbits (mk_cursor 4 0)) with 32. rewrite header_field by lia. exact F1. }
  unbind.
  rewrite (grab_field data (mk_cursor 12 0) 16 (channels def mod 2 ^ 16) 14);
    try assumption; try (unfold cursor_ok, cbits; cbn [c_pos c_bit]; lia).
  2:{ change (cbits (mk_cursor 12 0)) with 96. rewrite header_field by lia. exact F2. }
  unbind.
  rewrite (grab_field data (mk_cursor 14 0) 16 (bits_per_sample def mod 2 ^ 16) 16);
    try assumption; try (unfold cursor_ok, cbits; cbn [c_pos c_bit]; lia).
  2:{ change (cbits (mk_cursor 14 0)) with 112. rewrite header_field by lia. exact F3. }
  unbind.
  rewrite (grab_field data (mk_cursor 16 0) 32 (sample_rate def mod 2 ^ 32) 20);
    try assumption; try (unfold cursor_ok, cbits; cbn [c_pos c_bit]; lia).
  2:{ change (cbits (mk_cursor 16 0)) with 128. rewrite header_field by lia. exact F4. }
  unbind.
  do 3 f_equal; apply wrap_u_small; lia.
Qed.

End ReadHeader.

Lemma load_first4 (b0 b1 b2 b3 : Z) (rest : list Z) :
  let data := b0 :: b1 :: b2 :: b3 :: rest in
  load data 0 = Ok b0 /\ load data 1 = Ok b1
  /\ load data 2 = Ok b2 /\ load data 3 = Ok b3.
Proof. repeat split; reflexivity. Qed.

(** Without the magic in its first four bytes, a stream leaves [*def] as
    it was. *)
Lemma read_metadata_mismatch (data : list Z) (d0 : btw_def) :
  4 <= Z.of_nat (length data) -> take 4 data <> [98; 116; 119; 102] ->
  btw_read_metadata (Some data) (Some d0) = Ok (Some d0).
Proof.
  intros Hlen Hne. unfold btw_read_metadata.
  destruct data as [| b0 [| b1 [| b2 [| b3 rest]]]]; cbn in Hlen; try lia.
  cbn [take] in Hne.
  destruct (load_first4 b0 b1 b2 b3 rest) as (-> & -> & -> & ->). unbind.
  destruct (Z.eqb_spec b0 98) as [-> | ?]; cbn [negb]; [| reflexivity].
  destruct (Z.eqb_spec b1 116) as [-> | ?]; cbn [negb]; [| reflexivity].
  destruct (Z.eqb_spec b2 119) as [-> | ?]; cbn [negb]; [| reflexivity].
  destruct (Z.eqb_spec b3 102) as [-> | ?]; cbn [negb]; [| reflexivity].
  exfalso. apply Hne. reflexivity.
Qed.

(** With the magic, all four fields are assigned from the stream: nothing
    of the old [*def] is left. *)
Lemma read_metadata_match (data : list Z) (d0 d1 : btw_def) :
  take 4 data = [98; 116; 119; 102] ->
  btw_read_metadata (Some data) (Some d0) = btw_read_metadata (Some data) (Some d1).
Proof.
  intros E. unfold btw_read_metadata.
  destruct data as [| b0 [| b1 [| b2 [| b3 rest]]]]; try discriminate E.
  cbn [take] in E. injection E as -> -> -> ->.
  destruct (load_first4 98 116 119 102 rest) as (-> & -> & -> & ->). unbind.
  reflexivity.
Qed.

(** * A stream of one block *)

Lemma fields_nonzero (def : btw_def) :
  0 < channels def -> 0 < bits_per_sample def -> 0 < sample_rate def ->
  0 < sample_count def ->
  (channels def =? 0) || (sample_rate def =? 0) || (sample_count def =? 0)
  || (bits_per_sample def =? 0) = false.
Proof.
  intros. repeat (apply orb_false_intro); apply Z.eqb_neq; lia.
Qed.

Section SingleBlock.

Variable fmt : sample_fmt.
Variable samples : list Z.
Variable def : btw_def.
Hypothesis Hshape : shape_ok samples def.
Hypothesis Hfmt : Forall (in_fmt fmt) samples.
Hypothesis Hone : sample_count def <= 512.

Lemma single_block_bits :
  stream_bits samples def
  = 160 + channels_bits samples def (Z.to_nat (channels def)) 0 (sample_count def)
            (bit_length (bits_per_sample def)) 0.
Proof.
  destruct Hshape as (_ & _ & _ & Hsc & _).
  unfold stream_bits, BTW_HEADER_SIZE.
  set (bprl := bit_length (bits_per_sample def)).
  destruct (Z.to_nat (sample_count def)) as [| f] eqn:E; [lia |].
  cbn [blocks_bits]. destruct (Z.ltb_spec 0 (sample_count def)); [| lia].
  cbv zeta. unfold BTW_BLOCK_SIZE.
  replace (Z.min 512 (sample_count def - 0)) with (sample_count def) by lia.
  assert (blocks_bits samples def f bprl (0 + sample_count def) = 0) as ->.
  { destruct f; cbn [blocks_bits]; [reflexivity |].
    destruct (Z.ltb_spec (0 + sample_count def) (sample_count def)); [lia |].
    reflexivity. }
  lia.
Qed.

(** The encoder's run on one block: the header, then the channels. *)
Lemma encode_single_block :
  stream_bits samples def <= 8 * max_len def ->
  exists b5 buf c,
    wf_w b5 (mk_cursor 20 0) /\ le_combine b5 = header_value def
    /\ encode_channels samples def (Z.to_nat (channels def)) 0 (sample_count def)
         (bit_length (bits_per_sample def)) 0 b5 (mk_cursor 20 0)
       = Ok (buf, c)
    /\ wframe (Ok (buf, c)) b5 (mk_cursor 20 0)
         (channels_bits samples def (Z.to_nat (channels def)) 0 (sample_count def)
            (bit_length (bits_per_sample def)) 0)
    /\ Z.of_nat (length buf) = max_len def
    /\ encode_body samples def = Ok (buf, (cbits c + 7) / 8).
Proof.
  intros Hfits. rewrite single_block_bits in Hfits.
  pose proof Hshape as (Hch & Hbps & Hsr & Hsc & Hlen & Hprod & Hsamples).
  pose proof (max_len_range def) as Hmax.
  unfold encode_body.
  destruct (bits_per_rice_len_ok samples def Hshape) as [-> Hbprl].
  set (bprl := bit_length (bits_per_sample def)) in *.
  unbind.
  destruct (put_header_spec def (Z.to_nat (max_len def)) ltac:(lia) ltac:(lia))
    as (b5 & -> & Hwf5 & Hl5 & HS5).
  unbind. cbn [c_pos].
  pose proof (encode_channels_spec samples def Hsamples (Z.to_nat (channels def)) 0
                (sample_count def) bprl 0
                b5 (mk_cursor 20 0) Hwf5 ltac:(lia) ltac:(lia)) as W.
  specialize (W ltac:(intros ch' Hch'; apply (block_readable samples def Hshape);
                      lia)).
  destruct (encode_channels samples def (Z.to_nat (channels def)) 0 (sample_count def)
              bprl 0 b5 (mk_cursor 20 0))
    as [[buf c] | f] eqn:E.
  2:{ destruct W as [_ W]. rewrite Hl5 in W.
      change (cbits (mk_cursor 20 0)) with 160 in W. lia. }
  exists b5, buf, c.
  split; [assumption |]. split; [assumption |]. split; [exact E |].
  split; [assumption |].
  destruct W as (_ & Hwf & Hl & _). split; [rewrite Hl, Hl5; lia |].
  destruct (Z.to_nat (sample_count def)) as [| f] eqn:Ef; [lia |].
  cbn [encode_blocks]. destruct (Z.ltb_spec 0 (sample_count def)); [| lia].
  cbv zeta. unfold BTW_BLOCK_SIZE.
  assert ((if sample_count def - 0 <? 512
           then wrap_u 32 (sample_count def - 0) else 512) = sample_count def) as ->.
  { destruct (Z.ltb_spec (sample_count def - 0) 512).
    - rewrite wrap_u_small by (change (2 ^ 32) with 4294967296; lia). lia.
    - lia. }
  rewrite E. unbind.
  assert (encode_blocks samples def f bprl (0 + sample_count def) buf c = Ok (buf, c))
    as ->.
  { destruct f; cbn [encode_blocks];
      (destruct (Z.ltb_spec (0 + sample_count def) (sample_count def));
       [lia | reflexivity]). }
  unbind. rewrite ceil8 by apply Hwf. reflexivity.
Qed.

End SingleBlock.

Lemma def_eta (def : btw_def) :
  mk_def (channels def) (bits_per_sample def) (sample_rate def) (sample_count def) = def.
Proof. destruct def; reflexivity. Qed.

Lemma fmt_size_pos (fmt : sample_fmt) : 1 <= fmt_size fmt <= 4.
Proof. destruct fmt; cbn; lia. Qed.

(** The first [m] bytes of a buffer whose stream ends before them hold the
    whole stream. *)
Lemma take_extends (buf : list Z) (c : cursor) (m : nat) :
  wf_w buf c -> (cbits c + 7) / 8 <= Z.of_nat m ->
  extends (take m buf) buf c /\ le_combine (take m buf) = le_combine buf.
Proof.
  intros Hwf Hm. pose proof Hwf as (Hb & Hc & Hle & Hlt).
  pose proof (wf_w_cbits _ _ Hwf) as Hcb. pose proof (wf_w_stream _ _ Hwf) as Hs.
  assert (cbits c <= 8 * Z.of_nat m).
  { assert (cbits c <= 8 * ((cbits c + 7) / 8)); [| lia].
    pose proof (Z.div_mod (cbits c + 7) 8 ltac:(lia)).
    pose proof (Z.mod_pos_bound (cbits c + 7) 8 ltac:(lia)). lia. }
  assert (le_combine (take m buf) = le_combine buf) as E.
  { rewrite le_combine_take by assumption. apply Z.mod_small.
    assert (2 ^ cbits c <= 2 ^ (8 * Z.of_nat m)) by (apply Z.pow_le_mono_r; lia). lia. }
  split; [| assumption].
  repeat split.
  - now apply bytes_ok_take.
  - rewrite length_take. lia.
  - rewrite E. apply Z.mod_small. lia.
Qed.

Section SingleBlockDecode.

Variable fmt : sample_fmt.
Variable samples : list Z.
Variable def : btw_def.
Hypothesis Hshape : shape_ok samples def.
Hypothesis Hfmt : Forall (in_fmt fmt) samples.
Hypothesis Hch16 : channels def < 2 ^ 16.
Hypothesis Hbps16 : bits_per_sample def < 2 ^ 16.
Hypothesis Hsr31 : sample_rate def < 2 ^ 31.
Hypothesis Hone : sample_count def <= 512.
Hypothesis Hrice :
  forall chan, 0 <= chan < channels def ->
               rice_in_field samples def 0 (sample_count def) chan.

Lemma decode_alloc_small :
  decode_alloc fmt def = replicate (length samples) None.
Proof.
  destruct Hshape as (Hch & _ & _ & Hsc & Hlen & _).
  pose proof (fmt_size_pos fmt) as Hsz.
  unfold decode_alloc.
  assert (0 <= sample_count def * channels def < 2 ^ 25) as Hp.
  { change (2 ^ 25) with 33554432. change (2 ^ 16) with 65536 in *. nia. }
  change (2 ^ 25) with 33554432 in Hp.
  rewrite (wrap_u_small 64 (sample_count def * channels def))
    by (change (2 ^ 64) with 18446744073709551616; lia).
  rewrite wrap_u_small by (change (2 ^ 64) with 18446744073709551616; nia).
  rewrite Z.div_mul by lia. rewrite <- Hlen. now rewrite Nat2Z.id.
Qed.

Lemma decode_single_block (b5 buf : list Z) (c : cursor) (data : list Z) (d0 : btw_def) :
  wf_w b5 (mk_cursor 20 0) -> le_combine b5 = header_value def ->
  encode_channels samples def (Z.to_nat (channels def)) 0 (sample_count def)
    (bit_length (bits_per_sample def)) 0 b5 (mk_cursor 20 0) = Ok (buf, c) ->
  extends data buf c ->
  btw_decode fmt (Some data) (Some d0)
  = Ok (Some def, Some (Some <$> samples, sample_count def * channels def)).
Proof.
  intros Hwf5 HS5 Henc Hext.
  pose proof Hshape as (Hch & Hbps & Hsr & Hsc & Hlen & Hprod & Hsamples).
  destruct (bits_per_rice_len_ok samples def Hshape) as [Ebprl Hbprl].
  set (bprl := bit_length (bits_per_sample def)) in *.
  pose proof (encode_channels_spec samples def Hsamples (Z.to_nat (channels def)) 0
                (sample_count def) bprl 0 b5 (mk_cursor 20 0) Hwf5
                ltac:(lia) ltac:(lia)) as W.
  specialize (W ltac:(intros ch' Hch'; apply (block_readable samples def Hshape); lia)).
  rewrite Henc in W.
  pose proof (channels_bits_nonneg samples def Hsamples (Z.to_nat (channels def)) 0
                (sample_count def) bprl 0 ltac:(lia) ltac:(lia)) as HB.
  pose proof (extends_back data b5 buf (mk_cursor 20 0) c _ Hwf5 HB W Hext)
    as (Hdata & Hlen5 & Hhead).
  change (cbits (mk_cursor 20 0)) with 160 in Hlen5, Hhead. rewrite HS5 in Hhead.
  (* the header *)
  unfold btw_decode.
  rewrite (read_metadata_stream data def Hdata ltac:(lia) Hhead ltac:(lia) d0 ltac:(lia))
    by (rewrite Z.mod_small by (change (2 ^ 32) with 4294967296;
                                change (2 ^ 31) with 2147483648 in *; lia);
        assumption).
  rewrite !Z.mod_small by (change (2 ^ 32) with 4294967296;
                           change (2 ^ 31) with 2147483648 in *; lia).
  rewrite def_eta. unbind.
  rewrite fields_nonzero by lia.
  (* the block *)
  unfold decode_body. rewrite decode_alloc_small, Ebprl. unbind.
  destruct (Z.to_nat (sample_count def)) as [| f] eqn:Ef; [lia |].
  cbn [decode_blocks]. destruct (Z.ltb_spec 0 (sample_count def)); [| lia].
  cbv zeta. unfold BTW_BLOCK_SIZE.
  assert ((if sample_count def - 0 <? 512 then sample_count def - 0 else 512)
          = sample_count def) as ->.
  { destruct (Z.ltb_spec (sample_count def - 0) 512); lia. }
  unfold decode_block.
  destruct (decode_channels_pair fmt samples def data Hshape Hfmt 0 (sample_count def)
              bprl ltac:(lia) ltac:(lia) ltac:(lia) eq_refl
              (Z.to_nat (channels def)) 0 b5 (mk_cursor 20 0) buf c
              (replicate (length samples) None) 0 Hwf5 ltac:(lia) ltac:(lia))
    as (out' & D & Hl' & Hset & _); try assumption; try lia.
  { intros ch' Hch'. apply Hrice. lia. }
  { apply length_replicate. }
  rewrite D. unbind.
  assert (forall c1 o l,
             decode_blocks fmt data def f bprl (0 + sample_count def) c1 o l
             = Ok (c1, o, l)) as ->.
  { intros c1 o l. destruct f; cbn [decode_blocks];
      (destruct (Z.ltb_spec (0 + sample_count def) (sample_count def));
       [lia | reflexivity]). }
  unbind. rewrite Z2Nat.id by lia.
  replace (0 + channels def * sample_count def)
    with (sample_count def * channels def) by lia.
  assert (out' = Some <$> samples) as ->; [| reflexivity].
  - (* every element is the sample it came from *)
    rewrite length_replicate in Hl'.
    apply list_eq. intros idx. rewrite list_lookup_fmap.
    destruct (Nat.lt_ge_cases idx (length samples)) as [Hlt | Hge].
    + destruct (lookup_lt_is_Some_2 samples idx Hlt) as [x Ex]. rewrite Ex. cbn.
      set (l := Z.of_nat idx / channels def).
      set (chan := Z.of_nat idx mod channels def).
      assert (Z.of_nat idx = l * channels def + chan) as Eidx.
      { unfold l, chan.
        pose proof (Z.div_mod (Z.of_nat idx) (channels def) ltac:(lia)). lia. }
      pose proof (Z.mod_pos_bound (Z.of_nat idx) (channels def) ltac:(lia)) as Hchan.
      fold chan in Hchan.
      assert (0 <= l < sample_count def) as Hl.
      { unfold l. split; [apply Z.div_pos; lia |].
        apply Z.div_lt_upper_bound; lia. }
      rewrite Z2Nat.id in Hset by lia.
      specialize (Hset chan l ltac:(lia) Hl).
      replace (Z.to_nat ((0 + l) * channels def + chan)) with idx in Hset by lia.
      rewrite Hset. do 2 f_equal. unfold sample_val.
      destruct (sample_index_small samples def Hshape 0 l chan ltac:(lia) ltac:(lia)
                  ltac:(lia) Hchan) as [-> _].
      replace (Z.to_nat ((0 + l) * channels def + chan)) with idx by lia.
      now rewrite Ex.
    + rewrite (lookup_ge_None_2 samples idx Hge). cbn.
      apply lookup_ge_None_2. lia.
Qed.

End SingleBlockDecode.

(** * What [btw_decode] assigns, whatever the stream *)

Lemma wrap_u_succ (x n : Z) :
  wrap_u 64 (wrap_u 64 x + n) = wrap_u 64 (x + n).
Proof. unfold wrap_u. apply Zplus_mod_idemp_l. Qed.

Lemma assigned_insert (out : list (option Z)) (idx : nat) (v : Z) :
  (idx < length out)%nat ->
  assigned (<[idx := Some v]> out) idx
  /\ forall idx', assigned out idx' -> assigned (<[idx := Some v]> out) idx'.
Proof.
  intros Hlt. split.
  - exists v. now apply list_lookup_insert_eq.
  - intros idx' [v' E]. destruct (Nat.eq_dec idx idx') as [<- | Hne].
    + exists v. now apply list_lookup_insert_eq.
    + exists v'. now rewrite list_lookup_insert_ne.
Qed.

Section DecodeAny.

Variable fmt : sample_fmt.
Variable data : list Z.
Variable d : btw_def.

Lemma decode_samples_inv (n : nat) :
  forall i chan k j prev c out olen c' out' olen',
    decode_samples fmt data d n i chan k j prev c out olen = Ok (c', out', olen') ->
    0 <= olen < 2 ^ 64 ->
    length out' = length out
    /\ olen' = wrap_u 64 (olen + Z.of_nat n)
    /\ (forall idx, assigned out idx -> assigned out' idx)
    /\ (forall j', j <= j' < j + Z.of_nat n ->
          assigned out' (Z.to_nat (sample_index d i j' chan))).
Proof.
  induction n as [| n IH]; intros i chan k j prev c out olen c' out' olen' E Holen.
  - cbn in E. injection E as <- <- <-.
    split; [reflexivity |].
    split; [rewrite Z.add_0_r; symmetry; now apply wrap_u_small |].
    split; [auto | intros; lia].
  - cbn [decode_samples] in E.
    destruct (grab_bit data c) as [[sign c1] | f]; [unbind | discriminate].
    destruct (grab_unary data (S (8 * length data)) k 0 c1) as [[diff c2] | f];
      [unbind | discriminate].
    destruct (grab_number data c2 k) as [[r c3] | f]; [unbind | discriminate].
    match type of E with
    | context [store out ?p ?v] =>
        pose proof (store_inv out p v) as Hs; destruct (store out p v) as [out1 | f];
          [unbind | discriminate]
    end.
    destruct Hs as [Hin ->].
    apply IH in E as (Hl & Ho & Hmono & Hset); [| apply wrap_u_range; lia].
    fold (sample_index d i j chan) in *.
    match type of Hl with
    | context [<[_ := Some ?v]> out] =>
        destruct (assigned_insert out (Z.to_nat (sample_index d i j chan)) v
                    ltac:(lia)) as [Ha Hm]
    end.
    rewrite length_insert in Hl.
    split; [assumption |]. split.
    + rewrite Ho. rewrite wrap_u_succ. f_equal. lia.
    + split.
      * intros idx Hidx. apply Hmono, Hm, Hidx.
      * intros j' Hj'. destruct (Z.eq_dec j' j) as [-> | Hne].
        -- apply Hmono, Ha.
        -- apply Hset. lia.
Qed.


Lemma decode_channels_inv (n : nat) :
  forall i cap bprl chan c out olen c' out' olen',
    decode_channels fmt data d n i cap bprl chan c out olen = Ok (c', out', olen') ->
    0 <= olen < 2 ^ 64 -> 0 <= cap ->
    length out' = length out
    /\ olen' = wrap_u 64 (olen + Z.of_nat n * cap)
    /\ (forall idx, assigned out idx -> assigned out' idx)
    /\ (forall ch' j', chan <= ch' < chan + Z.of_nat n -> 0 <= j' < cap ->
          assigned out' (Z.to_nat (sample_index d i j' ch'))).
Proof.
  induction n as [| n IH];
    intros i cap bprl chan c out olen c' out' olen' E Holen Hcap.
  - cbn in E. injection E as <- <- <-.
    split; [reflexivity |].
    split; [rewrite Z.add_0_r; symmetry; now apply wrap_u_small |].
    split; [auto | intros; lia].
  - cbn [decode_channels] in E.
    destruct (grab_number data c bprl) as [[r c1] | f]; [unbind | discriminate].
    destruct (decode_samples fmt data d (Z.to_nat cap) i chan (wrap_s 32 r) 0 0 c1
                out olen) as [[[c2 out1] olen1] | f] eqn:E1; [unbind | discriminate].
    apply decode_samples_inv in E1 as (Hl1 & Ho1 & Hmono1 & Hset1); [| assumption].
    rewrite Z2Nat.id in Ho1, Hset1 by lia.
    apply IH in E as (Hl & Ho & Hmono & Hset);
      [| rewrite Ho1; apply wrap_u_range; lia | assumption].
    split; [congruence |]. split.
    + rewrite Ho, Ho1, wrap_u_succ. f_equal. lia.
    + split.
      * intros idx Hidx. apply Hmono, Hmono1, Hidx.
      * intros ch' j' Hch' Hj'. destruct (Z.eq_dec ch' chan) as [-> | Hne].
        -- apply Hmono, Hset1. lia.
        -- apply Hset; lia.
Qed.

Lemma sample_index_frame (i j chan : Z) :
  sample_index d i j chan = sample_index d 0 (i + j) chan.
Proof. unfold sample_index. do 3 f_equal. Qed.

Lemma decode_blocks_inv (fuel : nat) :
  0 <= channels d ->
  forall bprl i c out olen c' out' olen',
    decode_blocks fmt data d fuel bprl i c out olen = Ok (c', out', olen') ->
    0 <= olen < 2 ^ 64 ->
    length out' = length out
    /\ olen' = wrap_u 64 (olen + Z.max 0 (sample_count d - i) * channels d)
    /\ (forall idx, assigned out idx -> assigned out' idx)
    /\ (forall f ch', i <= f < sample_count d -> 0 <= ch' < channels d ->
          assigned out' (Z.to_nat (sample_index d 0 f ch'))).
Proof.
  intros Hch.
  assert (forall (i : Z) (out : list (option Z)) (olen : Z),
             0 <= olen < 2 ^ 64 -> sample_count d <= i ->
             length out = length out
             /\ olen = wrap_u 64 (olen + Z.max 0 (sample_count d - i) * channels d)
             /\ (forall idx, assigned out idx -> assigned out idx)
             /\ (forall f ch', i <= f < sample_count d -> 0 <= ch' < channels d ->
                   assigned out (Z.to_nat (sample_index d 0 f ch')))) as Hdone.
  { intros i out olen Holen Hi. split; [reflexivity |].
    replace (Z.max 0 (sample_count d - i)) with 0 by lia.
    split; [rewrite Z.mul_0_l, Z.add_0_r; symmetry; now apply wrap_u_small |].
    split; [auto | intros; lia]. }
  induction fuel as [| fuel IH];
    intros bprl i c out olen c' out' olen' E Holen; cbn [decode_blocks] in E;
    destruct (Z.ltb_spec i (sample_count d)) as [Hlt | Hge];
    try discriminate;
    try (injection E as <- <- <-; now apply Hdone).
  cbv zeta in E. unfold BTW_BLOCK_SIZE, decode_block in E.
  set (cap := if sample_count d - i <? 512 then sample_count d - i else 512) in *.
  assert (0 < cap <= 512 /\ i + cap <= sample_count d) as [Hcap Hle].
  { unfold cap. destruct (Z.ltb_spec (sample_count d - i) 512); lia. }
  destruct (decode_channels fmt data d (Z.to_nat (channels d)) i cap bprl 0 c out olen)
    as [[[c1 out1] olen1] | f] eqn:E1; [unbind | discriminate].
  apply decode_channels_inv in E1 as (Hl1 & Ho1 & Hmono1 & Hset1);
    [| assumption | lia].
  apply IH in E as (Hl & Ho & Hmono & Hset);
    [| rewrite Ho1; apply wrap_u_range; lia].
  split; [congruence |]. split.
  - rewrite Ho, Ho1, wrap_u_succ. f_equal.
    rewrite Z2Nat.id by lia. nia.
  - split.
    + intros idx Hidx. apply Hmono, Hmono1, Hidx.
    + intros f ch' Hf Hch'. destruct (Z_lt_ge_dec f (i + cap)).
      * apply Hmono. replace f with (i + (f - i)) by lia.
        rewrite <- sample_index_frame. apply Hset1; [rewrite Z2Nat.id; lia | lia].
      * apply Hset; lia.
Qed.

End DecodeAny.

Lemma read_metadata_ok (data : list Z) (d0 d : btw_def) :
  def_ok d0 -> btw_read_metadata (Some data) (Some d0) = Ok (Some d) -> def_ok d.
Proof.
  intros Hd E. unfold btw_read_metadata in E.
  repeat match type of E with
         | context [load ?l ?p] =>
             destruct (load l p); unbind; [| discriminate]
         | context [negb ?b] =>
             destruct b; cbn [negb] in E; [| injection E as <-; exact Hd]
         end.
  repeat match type of E with
         | context [grab_number ?l ?c ?n] =>
             destruct (grab_number l c n) as [[? ?] | ?]; unbind; [| discriminate]
         end.
  injection E as <-. unfold def_ok. cbn [channels bits_per_sample sample_rate sample_count].
  repeat split; try apply wrap_u_range; try apply Z.mod_pos_bound; lia.
Qed.

Section DecodeCount.

Variable fmt : sample_fmt.
Variable data : list Z.
Variable d : btw_def.
Hypothesis Hd : def_ok d.
Hypothesis Hch : 0 < channels d.
Hypothesis Hsc : 0 < sample_count d.

Lemma alloc_length :
  Z.of_nat (length (decode_alloc fmt d)) <= sample_count d * channels d
  /\ Z.of_nat (length (decode_alloc fmt d)) <= 2 ^ 64 - 1.
Proof.
  set (P := sample_count d * channels d).
  unfold decode_alloc. rewrite length_replicate.
  pose proof (fmt_size_pos fmt) as Hsz.
  set (W := wrap_u 64 (wrap_u 64 (sample_count d * channels d) * fmt_size fmt)).
  pose proof (wrap_u_range 64 (wrap_u 64 (sample_count d * channels d) * fmt_size fmt)
                ltac:(lia)) as HW. fold W in HW.
  pose proof (wrap_u_range 64 (sample_count d * channels d) ltac:(lia)) as HW1.
  assert (0 <= W / fmt_size fmt) by (apply Z.div_pos; lia).
  rewrite Z2Nat.id by lia.
  assert (W / fmt_size fmt <= W) by (apply Z.div_le_upper_bound; nia).
  split; [| lia].
  assert (W <= wrap_u 64 (sample_count d * channels d) * fmt_size fmt).
  { unfold W, wrap_u at 1. apply Z.mod_le; [nia | lia]. }
  assert (wrap_u 64 (sample_count d * channels d) <= P).
  { unfold wrap_u, P. apply Z.mod_le; [nia | lia]. }
  apply Z.div_le_upper_bound; [lia |]. nia.
Qed.

Lemma decode_body_count (out : list (option Z)) (n : Z) :
  decode_body fmt data d = Ok (out, n) ->
  n = sample_count d * channels d
  /\ Z.of_nat (length out) = sample_count d * channels d
  /\ forall idx, (idx < length out)%nat -> assigned out idx.
Proof.
  set (P := sample_count d * channels d).
  intros E. unfold decode_body in E.
  destruct (bits_required (bits_per_sample d)) as [bprl | f]; [unbind | discriminate].
  destruct (decode_blocks fmt data d (Z.to_nat (sample_count d)) bprl 0 (mk_cursor 20 0)
              (decode_alloc fmt d) 0) as [[[c out'] olen] | f] eqn:E1;
    [unbind | discriminate].
  injection E as -> ->.
  apply decode_blocks_inv in E1 as (Hl & Ho & _ & Hset); [| lia | lia].
  destruct alloc_length as [HlenP Hlen64]. rewrite <- Hl in HlenP, Hlen64.
  destruct Hd as ((_ & Hch32) & _ & _ & (_ & Hsc64)).
  (* every written index is inside the buffer *)
  assert (forall t, 0 <= t < P ->
                    wrap_u 64 t < Z.of_nat (length out)
                    /\ assigned out (Z.to_nat (wrap_u 64 t))) as Hin.
  { intros t Ht.
    set (f := t / channels d). set (ch' := t mod channels d).
    assert (t = f * channels d + ch') as Et.
    { unfold f, ch'. pose proof (Z.div_mod t (channels d) ltac:(lia)). lia. }
    pose proof (Z.mod_pos_bound t (channels d) ltac:(lia)) as Hch'. fold ch' in Hch'.
    assert (0 <= f < sample_count d) as Hf.
    { unfold f. split; [apply Z.div_pos; lia |].
      apply Z.div_lt_upper_bound; [lia |]. unfold P in Ht. lia. }
    specialize (Hset f ch' ltac:(lia) Hch').
    assert (sample_index d 0 f ch' = wrap_u 64 t) as Eidx.
    { unfold sample_index. rewrite Z.add_0_l. rewrite (wrap_u_small 64 f) by lia.
      rewrite wrap_u_succ. f_equal. lia. }
    rewrite Eidx in Hset. split; [| assumption].
    destruct Hset as [v Ev]. apply lookup_lt_Some in Ev.
    pose proof (wrap_u_range 64 t ltac:(lia)). lia. }
  assert (0 < P) as HP by (unfold P; nia).
  (* so the product does not wrap around *)
  assert (P < 2 ^ 64) as Hno.
  { destruct (Z_lt_ge_dec P (2 ^ 64)) as [? | Hge]; [assumption | exfalso].
    destruct (Hin (2 ^ 64 - 1) ltac:(lia)) as [Hlt _].
    rewrite wrap_u_small in Hlt by lia. lia. }
  assert (Z.of_nat (length out) = P) as HlenEq.
  { destruct (Hin (P - 1) ltac:(lia)) as [Hlt _].
    rewrite wrap_u_small in Hlt by lia. lia. }
  split; [| split; [assumption |]].
  - rewrite Ho. rewrite Z.add_0_l, Z.sub_0_r, Z.max_r by lia.
    apply wrap_u_small. fold P. lia.
  - intros idx Hidx. destruct (Hin (Z.of_nat idx) ltac:(lia)) as [_ Ha].
    rewrite wrap_u_small, Nat2Z.id in Ha by lia. assumption.
Qed.

End DecodeCount.

(** * The all-zero signal *)

Section Silence.

Variable N : nat.
Variable def : btw_def.

Lemma silence_val (i l chan : Z) : sample_val (replicate N 0) def i l chan = 0.
Proof.
  unfold sample_val.
  destruct (replicate N 0 !! Z.to_nat (sample_index def i l chan)) as [x |] eqn:E;
    [| reflexivity].
  apply lookup_replicate in E as [-> _]. reflexivity.
Qed.

Lemma silence_channel (n : nat) :
  forall i chan l, channel_samples (replicate N 0) def n i chan l = replicate n 0.
Proof.
  induction n as [| n IH]; intros i chan l; [reflexivity |].
  cbn [channel_samples replicate]. now rewrite silence_val, IH.
Qed.

Lemma silence_sum (n : nat) : sum_abs_diff 0 (replicate n 0) = 0.
Proof. induction n as [| n IH]; [reflexivity |]. cbn [replicate sum_abs_diff]. now rewrite IH. Qed.

Lemma silence_rice_len (n : nat) : spec_rice_len (replicate n 0) = 0.
Proof. unfold spec_rice_len. rewrite silence_sum. reflexivity. Qed.

Lemma silence_codewords (n : nat) :
  codewords_bits 0 0 (replicate n 0) = 2 * Z.of_nat n.
Proof.
  induction n as [| n IH]; [reflexivity |].
  cbn [replicate codewords_bits]. rewrite IH. unfold codeword_bits.
  change (Z.shiftr (Z.abs (0 - 0)) 0) with 0. lia.
Qed.

Lemma silence_channels_bits (n : nat) :
  forall i cap bprl chan,
    0 <= cap ->
    channels_bits (replicate N 0) def n i cap bprl chan
    = Z.of_nat n * (bprl + 2 * cap).
Proof.
  induction n as [| n IH]; intros i cap bprl chan Hcap; [reflexivity |].
  cbn [channels_bits]. rewrite IH by assumption.
  unfold record_bits. rewrite silence_channel, silence_rice_len, silence_codewords.
  lia.
Qed.

Lemma silence_rice_fits (i cap chan : Z) :
  rice_fits (replicate N 0) def i cap chan.
Proof.
  unfold rice_fits. rewrite silence_channel, silence_rice_len. cbv zeta.
  split; [lia |]. apply Z.pow_pos_nonneg; [lia |]. apply Z.log2_nonneg.
Qed.

Lemma silence_fmt (fmt : sample_fmt) : Forall (in_fmt fmt) (replicate N 0).
Proof. apply Forall_replicate, in_fmt_zero. Qed.

End Silence.

Lemma silence_shape (def : btw_def) :
  0 < channels def < 2 ^ 32 -> 0 < bits_per_sample def < 2 ^ 32 ->
  0 < sample_rate def < 2 ^ 64 -> 0 < sample_count def < 2 ^ 64 ->
  sample_count def * channels def < 2 ^ 64 ->
  shape_ok (replicate (Z.to_nat (sample_count def * channels def)) 0) def.
Proof.
  intros Hch Hbps Hsr Hsc Hprod. unfold shape_ok.
  repeat (split; [lia |]). split; [| split; [assumption |]].
  - rewrite length_replicate. apply Z2Nat.id. nia.
  - apply Forall_replicate. unfold sample_ok. lia.
Qed.

(** The stream of a silent signal of one block: the header and, per
    channel, the Rice parameter and two bits per sample. *)
Lemma silence_stream_bits (def : btw_def) :
  0 < channels def < 2 ^ 32 -> 0 < bits_per_sample def < 2 ^ 32 ->
  0 < sample_rate def < 2 ^ 64 -> 0 < sample_count def <= 512 ->
  stream_bits (replicate (Z.to_nat (sample_count def * channels def)) 0) def
  = 160 + channels def
          * (bit_length (bits_per_sample def) + 2 * sample_count def).
Proof.
  intros Hch Hbps Hsr Hsc.
  assert (2 ^ 32 = 4294967296 /\ 2 ^ 64 = 18446744073709551616) as [E32 E64]
    by (split; reflexivity).
  rewrite single_block_bits.
  - rewrite silence_channels_bits by lia. rewrite Z2Nat.id by lia. reflexivity.
  - apply silence_shape; try lia. nia.
  - lia.
Qed.

(** * Readers on an arbitrary stream

    Whatever the bits are, a reader ends: it returns with its cursor moved
    by the bits it read, or it leaves the stream. *)


Lemma rspec_rshape (r : result (Z * cursor)) (data : list Z) (c : cursor) (n : Z) :
  rspec r data c n -> rshape r data c n.
Proof.
  destruct r as [[v c'] | f]; cbn; [| exact id].
  intros (H1 & H2 & H3 & _). auto.
Qed.

Lemma grab_bit_shape (data : list Z) (c : cursor) :
  cursor_ok c -> rshape (grab_bit data c) data c 1.
Proof.
  intros [Hp Hbp]. unfold grab_bit.
  pose proof (load_inv data (c_pos c)) as Hl.
  destruct (load data (c_pos c)) as [byte | f]; unbind.
  2:{ destruct Hl as [-> Hl]. split; [reflexivity |]. unfold cbits. lia. }
  destruct Hl as [Hin _].
  destruct (advance_in_byte (c_pos c) (c_bit c) 1) as [Hc' Hbits]; try lia.
  cbv zeta in Hc', Hbits. cbn.
  split; [unfold cbits; lia |]. split; [assumption |]. rewrite Hbits. reflexivity.
Qed.

Lemma grab_number_loop_shape (fuel : nat) :
  forall (data : list Z) (pos k rem tally r : Z),
    0 <= pos <= Z.of_nat (length data) -> 0 <= k -> 0 <= rem < 8 ->
    Z.of_nat (length data) - pos < Z.of_nat fuel ->
    match grab_number_loop fuel data pos (8 * k + rem) tally r with
    | Ok (pos', bits', _, _) =>
        pos + k <= Z.of_nat (length data) /\ pos' = pos + k /\ bits' = rem
    | Fault f => f = OutOfBounds /\ Z.of_nat (length data) < pos + k
    end.
Proof.
  induction fuel as [| fuel IH]; intros data pos k rem tally r Hp Hk Hrem Hfuel.
  - lia.
  - cbn [grab_number_loop].
    destruct (Z.leb_spec 8 (8 * k + rem)); [| lia].
    pose proof (load_inv data pos) as Hl.
    destruct (load data pos) as [byte | f]; unbind.
    2:{ destruct Hl as [-> Hl]. split; [reflexivity | lia]. }
    destruct Hl as [Hin _].
    replace (8 * k + rem - 8) with (8 * (k - 1) + rem) by lia.
    specialize (IH data (pos + 1) (k - 1) rem (tally + 8)
                  (Z.lor r (int_shl byte tally)) ltac:(lia) ltac:(lia) Hrem ltac:(lia)).
    destruct (grab_number_loop fuel data (pos + 1) (8 * (k - 1) + rem) (tally + 8)
                (Z.lor r (int_shl byte tally))) as [[[[pos' bits'] tally'] r'] | f].
    + lia.
    + destruct IH as [-> IH]. split; [reflexivity | lia].
Qed.

Lemma grab_number_shape (data : list Z) (c : cursor) (bits : Z) :
  cursor_ok c -> 0 <= bits -> cbits c <= 8 * Z.of_nat (length data) ->
  rshape (grab_number data c bits) data c bits.
Proof.
  intros [Hp Hbp] Hbits Hle. unfold grab_number, rshape.
  unfold cbits in *. set (bp := c_bit c) in *. set (pos := c_pos c) in *.
  destruct (Z.ltb_spec (8 - bp) bits) as [Hbig | Hfits].
  - pose proof (load_inv data pos) as Hl.
    destruct (load data pos) as [byte | f]; unbind.
    2:{ destruct Hl as [-> Hl]. split; [reflexivity | lia]. }
    destruct Hl as [Hin _].
    set (b1 := bits - (8 - bp)).
    assert (b1 = 8 * (b1 / 8) + b1 mod 8) as Hb1eq by (apply Z.div_mod; lia).
    pose proof (Z.mod_pos_bound b1 8 ltac:(lia)) as Hrem.
    assert (0 <= b1 / 8) as Hk by (apply Z.div_pos; lia).
    set (k := b1 / 8) in *. set (rem := b1 mod 8) in *.
    pose proof (grab_number_loop_shape (S (length data)) data (pos + 1) k rem (8 - bp)
                  (Z.shiftr byte bp) ltac:(lia) Hk Hrem ltac:(lia)) as Hloop.
    rewrite <- Hb1eq in Hloop.
    destruct (grab_number_loop (S (length data)) data (pos + 1) b1 (8 - bp)
                (Z.shiftr byte bp)) as [[[[pos2 bits2] tally2] r2] | f]; unbind.
    2:{ destruct Hloop as [-> Hloop]. split; [reflexivity | lia]. }
    destruct Hloop as (Hfit2 & -> & ->).
    destruct (Z.eqb_spec rem 0) as [Hz | Hnz].
    + unfold cursor_ok; cbn [c_pos c_bit]. lia.
    + pose proof (load_inv data (pos + 1 + k)) as Hl.
      destruct (load data (pos + 1 + k)) as [byte2 | f]; unbind.
      2:{ destruct Hl as [-> Hl]. split; [reflexivity | lia]. }
      destruct Hl as [Hin2 _].
      rewrite Z.add_0_l, rem_8, (Z.mod_small rem 8) by lia.
      destruct (Z.eqb_spec rem 0) as [? | _]; [lia |]. unfold b2z.
      unfold cursor_ok; cbn [c_pos c_bit]. lia.
  - unbind.
    destruct (Z.eqb_spec bits 0) as [-> | Hnz].
    + unfold cursor_ok; cbn [c_pos c_bit]. fold pos bp. lia.
    + pose proof (load_inv data pos) as Hl.
      destruct (load data pos) as [byte | f]; unbind.
      2:{ destruct Hl as [-> Hl]. split; [reflexivity | lia]. }
      destruct Hl as [Hin _].
      destruct (advance_in_byte pos bp bits) as [Hc' Hbits']; try lia.
      cbv zeta in Hc', Hbits'.
      split; [lia |]. split; [exact Hc' |].
      unfold cbits in Hbits'. cbn [c_pos c_bit] in *. lia.
Qed.

Section ReadAny.

Variable data : list Z.

Lemma grab_unary_shape (fuel : nat) :
  forall (k diff : Z) (c : cursor),
    cursor_ok c -> cbits c <= 8 * Z.of_nat (length data) ->
    8 * Z.of_nat (length data) - cbits c < Z.of_nat fuel ->
    match grab_unary data fuel k diff c with
    | Ok (_, c') =>
        cursor_ok c' /\ cbits c < cbits c' <= 8 * Z.of_nat (length data)
    | Fault f => f = OutOfBounds
    end.
Proof.
  induction fuel as [| fuel IH]; intros k diff c Hc Hle Hfuel; [lia |].
  - cbn [grab_unary].
    pose proof (grab_bit_shape data c Hc) as Hs.
    destruct (grab_bit data c) as [[bit c1] | f]; unbind.
    2:{ apply Hs. }
    destruct Hs as (Hin & Hc1 & Hb1).
    destruct (bit =? 0); [split; [assumption | lia] |].
    specialize (IH k (wrap_s 64 (diff + int_shl 1 k)) c1 Hc1 ltac:(lia) ltac:(lia)).
    destruct (grab_unary data fuel k (wrap_s 64 (diff + int_shl 1 k)) c1)
      as [[v c'] | f]; [| assumption].
    split; [apply IH | lia].
Qed.

End ReadAny.

(** * The decoder ends on every stream *)

(** A read that starts after the end of the stream. *)
Lemma grab_beyond (data : list Z) (c : cursor) (bits : Z) :
  cursor_ok c -> 8 * Z.of_nat (length data) < cbits c -> 0 <= bits ->
  grab_number data c bits = if bits =? 0 then Ok (0, c) else Fault OutOfBounds.
Proof.
  intros [Hp Hbp] Hout Hbits. destruct c as [pos bp]. unfold cbits in Hout.
  cbn [c_pos c_bit] in *. unfold grab_number. cbn [c_pos c_bit].
  assert (load data pos = Fault OutOfBounds) as El.
  { pose proof (load_inv data pos) as Hl.
    destruct (load data pos) as [byte | f]; [lia |]. now destruct Hl as [-> _]. }
  destruct (Z.ltb_spec (8 - bp) bits); unbind.
  - rewrite El. unbind. destruct (Z.eqb_spec bits 0); [lia | reflexivity].
  - destruct (Z.eqb_spec bits 0); [reflexivity |]. rewrite El. reflexivity.
Qed.

(** A field of at most 31 bits is read as it stands. *)
Lemma grab_small (data : list Z) (c : cursor) (bits : Z) :
  bytes_ok data -> cursor_ok c -> 0 <= bits <= 31 ->
  match grab_number data c bits with
  | Ok (v, c') => 0 <= v < 2 ^ 31 /\ cursor_ok c'
  | Fault f => f = OutOfBounds
  end.
Proof.
  intros Hb Hc Hbits.
  destruct (Z_le_gt_dec (cbits c) (8 * Z.of_nat (length data))) as [Hle | Hout].
  - pose proof (Z.mod_pos_bound (le_combine data / 2 ^ cbits c) (2 ^ bits)
                  ltac:(apply pow2_pos; lia)) as Hv.
    assert (2 ^ bits <= 2 ^ 31) as Hpow by (apply Z.pow_le_mono_r; lia).
    pose proof (grab_number_spec data c bits Hb Hc ltac:(lia) Hle ltac:(lia)) as Hs.
    destruct (grab_number data c bits) as [[v c'] | f]; [| apply Hs].
    destruct Hs as (Hin & Hc' & Hcb & ->).
    split; [lia | assumption].
  - rewrite grab_beyond by (assumption || lia).
    destruct (bits =? 0); [| reflexivity].
    split; [change (2 ^ 31) with 2147483648; lia | assumption].
Qed.

Lemma grab_number_ends (data : list Z) (c : cursor) (bits : Z) :
  cursor_ok c -> 0 <= bits ->
  match grab_number data c bits with
  | Ok (_, c') => cursor_ok c'
  | Fault f => f = OutOfBounds
  end.
Proof.
  intros Hc Hbits.
  destruct (Z_le_gt_dec (cbits c) (8 * Z.of_nat (length data))) as [Hle | Hout].
  - pose proof (grab_number_shape data c bits Hc Hbits Hle) as Hs.
    destruct (grab_number data c bits) as [[v c'] | f]; apply Hs.
  - rewrite grab_beyond by (assumption || lia).
    destruct (bits =? 0); [assumption | reflexivity].
Qed.

Section DecodeEnds.

Variable fmt : sample_fmt.
Variable data : list Z.
Variable d : btw_def.
Hypothesis Hdata : bytes_ok data.

Lemma decode_samples_ends (n : nat) :
  forall i chan k j prev c out olen,
    cursor_ok c -> 0 <= k ->
    match decode_samples fmt data d n i chan k j prev c out olen with
    | Ok (c', _, _) => cursor_ok c'
    | Fault f => f = OutOfBounds
    end.
Proof.
  induction n as [| n IH]; intros i chan k j prev c out olen Hc Hk.
  - cbn. assumption.
  - cbn [decode_samples].
    pose proof (grab_bit_shape data c Hc) as H1.
    destruct (grab_bit data c) as [[sign c1] | f]; unbind; [| apply H1].
    destruct H1 as (Hin1 & Hc1 & Hb1).
    pose proof (cbits_nonneg c Hc) as Hn0.
    pose proof (grab_unary_shape data (S (8 * length data)) k 0 c1 Hc1 ltac:(lia)
                  ltac:(lia)) as H2.
    destruct (grab_unary data (S (8 * length data)) k 0 c1) as [[diff c2] | f];
      unbind; [| assumption].
    destruct H2 as (Hc2 & Hb2).
    pose proof (grab_number_ends data c2 k Hc2 Hk) as H3.
    destruct (grab_number data c2 k) as [[r c3] | f]; unbind; [| apply H3].
    match goal with
    | |- context [store out ?p ?x] =>
        pose proof (store_inv out p x) as H4; destruct (store out p x) as [out1 | f]
    end; unbind; [| apply H4].
    apply IH; assumption.
Qed.

Lemma decode_channels_ends (n : nat) :
  forall i cap bprl chan c out olen,
    cursor_ok c -> 0 <= bprl <= 31 ->
    match decode_channels fmt data d n i cap bprl chan c out olen with
    | Ok (c', _, _) => cursor_ok c'
    | Fault f => f = OutOfBounds
    end.
Proof.
  induction n as [| n IH]; intros i cap bprl chan c out olen Hc Hbprl.
  - cbn. assumption.
  - cbn [decode_channels].
    pose proof (grab_small data c bprl Hdata Hc Hbprl) as H1.
    destruct (grab_number data c bprl) as [[r c1] | f]; unbind; [| assumption].
    destruct H1 as (Hr & Hc1).
    rewrite (wrap_s_small 32 r) by (change (2 ^ (32 - 1)) with (2 ^ 31); lia).
    pose proof (decode_samples_ends (Z.to_nat cap) i chan r 0 0 c1 out olen
                  Hc1 ltac:(lia)) as H2.
    destruct (decode_samples fmt data d (Z.to_nat cap) i chan r 0 0 c1 out olen)
      as [[[c2 out2] olen2] | f]; unbind; [| assumption].
    apply IH; assumption.
Qed.

Lemma decode_block_ends (i cap bprl : Z) (c : cursor) (out : list (option Z))
    (olen : Z) :
  cursor_ok c -> 0 <= bprl <= 31 ->
  match decode_block fmt data d i cap bprl c out olen with
  | Ok (c', _, _) => cursor_ok c'
  | Fault f => f = OutOfBounds
  end.
Proof.
  intros Hc Hbprl. unfold decode_block.
  pose proof (decode_channels_ends (Z.to_nat (channels d)) i cap bprl 0 c out olen
                Hc Hbprl) as H1.
  destruct (decode_channels fmt data d (Z.to_nat (channels d)) i cap bprl 0 c out olen)
    as [[[c1 out1] olen1] | f]; unbind; [| assumption].
  destruct H1 as [Hp Hb]. unfold cursor_ok. cbn [c_pos c_bit].
  destruct (Z.eqb_spec (c_bit c1) 0); cbn [negb b2z]; lia.
Qed.

Lemma decode_blocks_ends (fuel : nat) :
  forall bprl i c out olen,
    cursor_ok c -> 0 <= bprl <= 31 ->
    sample_count d - i <= Z.of_nat fuel ->
    match decode_blocks fmt data d fuel bprl i c out olen with
    | Ok (c', _, _) => cursor_ok c'
    | Fault f => f = OutOfBounds
    end.
Proof.
  induction fuel as [| fuel IH]; intros bprl i c out olen Hc Hbprl Hfuel;
    cbn [decode_blocks]; destruct (Z.ltb_spec i (sample_count d)); try assumption;
    [lia |].
  cbv zeta.
  set (cap := if sample_count d - i <? BTW_BLOCK_SIZE
              then sample_count d - i else BTW_BLOCK_SIZE).
  assert (1 <= cap) as Hcap.
  { unfold cap, BTW_BLOCK_SIZE. destruct (sample_count d - i <? 512); lia. }
  pose proof (decode_block_ends i cap bprl c out olen Hc Hbprl) as H1.
  destruct (decode_block fmt data d i cap bprl c out olen)
    as [[[c1 out1] olen1] | f]; unbind; [| assumption].
  apply IH; [assumption | assumption | lia].
Qed.

Lemma decode_body_ends :
  0 <= bits_per_sample d < 2 ^ 32 ->
  match decode_body fmt data d with
  | Ok _ => True
  | Fault f => f = OutOfBounds
  end.
Proof.
  intros Hbps. unfold decode_body.
  rewrite bits_required_log2 by (change (2 ^ 32) with 4294967296 in Hbps;
                                 change (2 ^ 63) with 9223372036854775808; lia).
  unbind.
  assert (0 <= Z.log2 (bits_per_sample d) <= 31) as Hbprl.
  { split; [apply Z.log2_nonneg |].
    destruct (Z.eq_dec (bits_per_sample d) 0) as [-> | Hne]; [cbn; lia |].
    assert (Z.log2 (bits_per_sample d) < 32); [| lia].
    apply Z.log2_lt_pow2; lia. }
  pose proof (decode_blocks_ends (Z.to_nat (sample_count d))
                (Z.log2 (bits_per_sample d)) 0 (mk_cursor 20 0) (decode_alloc fmt d) 0
                ltac:(unfold cursor_ok; cbn [c_pos c_bit]; lia)
                Hbprl ltac:(lia)) as H1.
  destruct (decode_blocks fmt data d (Z.to_nat (sample_count d))
              (Z.log2 (bits_per_sample d)) 0 (mk_cursor 20 0) (decode_alloc fmt d) 0)
    as [[[c1 out1] olen1] | f]; unbind; [exact I | assumption].
Qed.

End DecodeEnds.

Lemma read_metadata_ends (data : list Z) (d0 : btw_def) :
  match btw_read_metadata (Some data) (Some d0) with
  | Ok (Some _) => True
  | Ok None => False
  | Fault f => f = OutOfBounds
  end.
Proof.
  unfold btw_read_metadata.
  repeat match goal with
         | |- context [load ?l ?p] =>
             let Hl := fresh "Hl" in
             pose proof (load_inv l p) as Hl;
             destruct (load l p); unbind; [clear Hl | apply Hl]
         | |- context [negb ?b] => destruct b; cbn [negb]; [| exact I]
         end.
  assert (cursor_ok (mk_cursor 4 0)) as Hc by (unfold cursor_ok; cbn; lia).
  revert Hc. generalize (mk_cursor 4 0). intros c Hc.
  repeat match goal with
         | |- context [grab_number data ?c ?n] =>
             let Hg := fresh "Hg" in
             pose proof (grab_number_ends data c n ltac:(assumption) ltac:(lia)) as Hg;
             destruct (grab_number data c n) as [[? ?] | ?]; unbind; [| assumption]
         end.
  exact I.
Qed.

(** [btw_decode] ends on every stream: it returns, or it has left the
    stream or its output buffer. *)
Lemma btw_decode_ends (fmt : sample_fmt) (data : list Z) (d0 : btw_def) :
  def_ok d0 -> bytes_ok data ->
  match btw_decode fmt (Some data) (Some d0) with
  | Ok (Some _, _) => True
  | Ok (None, _) => False
  | Fault f => f = OutOfBounds
  end.
Proof.
  intros Hd0 Hdata. unfold btw_decode.
  pose proof (read_metadata_ends data d0) as Hr.
  pose proof (read_metadata_ok data d0) as Hok.
  destruct (btw_read_metadata (Some data) (Some d0)) as [[d |] | f]; unbind;
    [| contradiction | assumption].
  specialize (Hok d Hd0 eq_refl).
  destruct ((channels d =? 0) || (sample_rate d =? 0) || (sample_count d =? 0)
            || (bits_per_sample d =? 0)); [exact I |].
  pose proof (decode_body_ends fmt data d Hdata ltac:(apply Hok)) as Hb.
  destruct (decode_body fmt data d) as [r | f]; unbind; [exact I | assumption].
Qed.

(** * Samples of the configured bit depth

    When the bit depth is a power of two and the samples lie in a range of
    [2^bits_per_sample] values around 0, the Rice parameter of a block is
    below the bit depth and fits its field. *)

Lemma sum_abs_diff_range (lo w : Z) (xs : list Z) :
  Forall (fun x => lo <= x < lo + w) xs ->
  forall prev, lo <= prev < lo + w ->
    0 <= sum_abs_diff prev xs <= (w - 1) * Z.of_nat (length xs).
Proof.
  induction 1 as [| x xs Hx _ IH]; intros prev Hprev; cbn [sum_abs_diff length].
  - lia.
  - specialize (IH x Hx). lia.
Qed.

Section BitDepth.

Variable samples : list Z.
Variable def : btw_def.
Variable lo : Z.
Hypothesis Hlo : lo <= 0 < lo + 2 ^ bits_per_sample def.
Hypothesis Hrange :
  Forall (fun x => lo <= x < lo + 2 ^ bits_per_sample def) samples.

Lemma sample_val_range (i l chan : Z) :
  lo <= sample_val samples def i l chan < lo + 2 ^ bits_per_sample def.
Proof.
  unfold sample_val.
  destruct (samples !! Z.to_nat (sample_index def i l chan)) as [x |] eqn:E;
    cbn [default]; [| exact Hlo].
  rewrite Forall_lookup in Hrange. exact (Hrange _ _ E).
Qed.

Lemma channel_samples_range (n : nat) :
  forall i chan l,
    Forall (fun x => lo <= x < lo + 2 ^ bits_per_sample def)
      (channel_samples samples def n i chan l).
Proof.
  induction n as [| n IH]; intros i chan l; cbn [channel_samples];
    constructor; [apply sample_val_range | apply IH].
Qed.

Lemma rice_fits_pow2 (e i cap chan : Z) :
  0 <= e -> bits_per_sample def = 2 ^ e -> bits_per_sample def <= 16 ->
  0 <= cap <= 512 ->
  rice_fits samples def i cap chan.
Proof.
  intros He Hbps H16 Hcap. unfold rice_fits, spec_rice_len, bit_length. cbv zeta.
  set (xs := channel_samples samples def (Z.to_nat cap) i chan 0).
  set (b := bits_per_sample def) in *.
  assert (1 <= b) as Hb1. { rewrite Hbps. pose proof (pow2_pos e He). lia. }
  pose proof (sum_abs_diff_range lo (2 ^ b) xs (channel_samples_range _ _ _ _) 0 Hlo)
    as Hsum.
  assert (length xs = Z.to_nat cap) as Hlen by apply channel_samples_length.
  rewrite Hlen, Z2Nat.id in Hsum by lia.
  pose proof (pow2_pos b ltac:(lia)) as Hpb.
  assert (0 <= sum_abs_diff 0 xs / BTW_BLOCK_SIZE < 2 ^ b) as Hq.
  { unfold BTW_BLOCK_SIZE. split; [apply Z.div_pos; lia |].
    apply Z.div_lt_upper_bound; [lia |]. nia. }
  assert (Z.log2 (sum_abs_diff 0 xs / BTW_BLOCK_SIZE) < b) as Hk.
  { destruct (Z.eq_dec (sum_abs_diff 0 xs / BTW_BLOCK_SIZE) 0) as [-> | Hne];
      [cbn; lia |].
    apply Z.log2_lt_pow2; lia. }
  split; [lia |].
  assert (2 ^ Z.log2 b = b) as ->
    by (rewrite Hbps, Z.log2_pow2 by assumption; reflexivity).
  exact Hk.
Qed.

End BitDepth.

(** * The statements of the specification *)

(** C5: [bits_required] returns the zero-based index of the highest set
    bit of a non-negative [long long]: the floor of the binary logarithm
    for [n >= 1], and 0 for [n <= 1]; on 0, 1, 2, 3 and 4 it returns 0, 0,
    1, 1 and 2. *)
Theorem bits_required_floor_log2 (n : Z) :
  0 <= n < 2 ^ 63 ->
  bits_required n = Ok (bit_length n)
  /\ (1 <= n ->
      2 ^ bit_length n <= n < 2 ^ (bit_length n + 1)
      /\ Z.testbit n (bit_length n) = true
      /\ forall j, bit_length n < j -> Z.testbit n j = false)
  /\ (n <= 1 -> bits_required n = Ok 0)
  /\ bits_required 0 = Ok 0 /\ bits_required 1 = Ok 0 /\ bits_required 2 = Ok 1
  /\ bits_required 3 = Ok 1 /\ bits_required 4 = Ok 2.
Proof.
  intros Hn. split; [now apply bits_required_log2 |].
  split; [| split; [| repeat split; reflexivity]].
  - intros H1. unfold bit_length. split; [| split].
    + rewrite Z.add_1_r. apply Z.log2_spec. lia.
    + apply Z.bit_log2. lia.
    + intros j Hj. apply Z.bits_above_log2; lia.
  - intros H1. assert (n = 0 \/ n = 1) as [-> | ->] by lia; reflexivity.
Qed.

(** The bit length of 44100. *)
Lemma bits_required_floor_log2_witness :
  bits_required 44100 = Ok 15 /\ 2 ^ 15 <= 44100 < 2 ^ 16
  /\ Z.testbit 44100 15 = true.
Proof.
  destruct (bits_required_floor_log2 44100
              ltac:(vm_compute; split; [discriminate | reflexivity]))
    as (E & Hb & _).
  destruct (Hb ltac:(lia)) as (H1 & H2 & _).
  split; [exact E |]. split; [exact H1 | exact H2].
Defined.

(** C6: for every block of every channel, a short last block included,
    the Rice parameter that the encoder writes and codes the samples with
    is the bit length of the sum of the absolute differences of the
    block's samples (the first against 0) divided by the constant 512, not
    by the number of samples of the block. *)
Theorem rice_parameter_estimate (samples : list Z) (def : btw_def) (i chan : Z) :
  shape_ok samples def ->
  0 <= i < sample_count def -> 0 <= chan < channels def ->
  let cap := Z.min BTW_BLOCK_SIZE (sample_count def - i) in
  let xs := channel_samples samples def (Z.to_nat cap) i chan 0 in
  let rice_len := bit_length (sum_abs_diff 0 xs / 512) in
  (if sample_count def - i <? BTW_BLOCK_SIZE
   then wrap_u 32 (sample_count def - i) else BTW_BLOCK_SIZE) = cap
  /\ length xs = Z.to_nat cap
  /\ av_diff_loop samples def (Z.to_nat cap) i chan 0 0 0 = Ok (sum_abs_diff 0 xs)
  /\ bits_required (Z.quot (sum_abs_diff 0 xs) BTW_BLOCK_SIZE) = Ok rice_len
  /\ forall n bits_per_rice_len output c,
       encode_channels samples def (S n) i cap bits_per_rice_len chan output c
       = '(output, c) ← put_number output c (wrap_u 8 bits_per_rice_len) rice_len;
         '(output, c) ← encode_samples samples def (Z.to_nat cap) i chan rice_len 0 0
                          output c;
         encode_channels samples def n i cap bits_per_rice_len (chan + 1) output c.
Proof.
  intros Hshape Hi Hchan cap xs rice_len.
  pose proof Hshape as (Hch & Hbps & Hsr & Hsc & Hlen & Hprod & Hsamples).
  assert (0 < cap <= 512) as Hcap by (unfold cap, BTW_BLOCK_SIZE; lia).
  assert (readable samples def (Z.to_nat cap) i chan 0) as Hread.
  { apply (block_readable samples def Hshape); unfold cap, BTW_BLOCK_SIZE in *; lia. }
  assert (av_diff_loop samples def (Z.to_nat cap) i chan 0 0 0 = Ok (sum_abs_diff 0 xs))
    as Eav.
  { rewrite av_diff_loop_spec by assumption. reflexivity. }
  assert (Forall sample_ok xs) as Hxs by apply (channel_samples_ok samples def Hsamples).
  assert (length xs = Z.to_nat cap) as Hlxs by apply channel_samples_length.
  destruct (spec_rice_len_bound xs Hxs ltac:(lia)) as [Hsum _].
  assert (bits_required (Z.quot (sum_abs_diff 0 xs) BTW_BLOCK_SIZE) = Ok rice_len) as Ebr.
  { pose proof (sum_abs_diff_bound xs Hxs 0 ltac:(unfold sample_ok; lia)) as [Hs0 _].
    unfold BTW_BLOCK_SIZE. rewrite Z.quot_div_nonneg by lia.
    apply bits_required_log2. change (2 ^ 32) with 4294967296 in Hsum.
    change (2 ^ 63) with 9223372036854775808. lia. }
  split.
  { unfold cap, BTW_BLOCK_SIZE. destruct (Z.ltb_spec (sample_count def - i) 512).
    - rewrite wrap_u_small by (change (2 ^ 32) with 4294967296; lia). lia.
    - lia. }
  split; [assumption |]. split; [assumption |]. split; [assumption |].
  intros n bprl output c. cbn [encode_channels]. rewrite Eav. unbind.
  rewrite Ebr. reflexivity.
Qed.

(** A last block of two samples: the sum 9000 is divided by 512, not by 2. *)
Lemma rice_parameter_estimate_witness :
  let samples := replicate 512 0 ++ [3000; -3000] in
  let def := mk_def 1 16 44100 514 in
  channel_samples samples def 2 512 0 0 = [3000; -3000]
  /\ av_diff_loop samples def 2 512 0 0 0 0 = Ok 9000
  /\ bits_required (Z.quot 9000 BTW_BLOCK_SIZE) = Ok (bit_length (9000 / 512))
  /\ bit_length (9000 / 512) = 4.
Proof.
  intros samples def.
  assert (shape_ok samples def) as Hshape.
  { unfold shape_ok, samples, def. cbn [channels bits_per_sample sample_rate sample_count].
    repeat (split; [vm_compute; (reflexivity || (split; [reflexivity | reflexivity])) |]).
    apply Forall_app. split; [apply Forall_replicate | repeat constructor];
      unfold sample_ok; lia. }
  destruct (rice_parameter_estimate samples def 512 0 Hshape
              ltac:(cbn; lia) ltac:(cbn; lia)) as (_ & _ & Hav & Hbr & _).
  split; [reflexivity |]. split; [exact Hav |]. split; [exact Hbr | reflexivity].
Defined.

(** C8: [btw_encode] stores 0 in [*out_len] before it tests its arguments,
    the test of [out_len] among them.  Called with a zero field and with
    [out_len] [NULL] it writes through the null pointer and does not reach
    [exit(EXIT_FAILURE)]; so it does with [out_len] [NULL] whatever the
    samples and the parameters are.  With any other [out_len] it ends the
    process with [EXIT_FAILURE], and so gives no stream, whenever the
    samples or the parameters are absent or one of the four fields is
    zero. *)
Theorem encode_null_out_len :
  btw_encode (Some [0; 1; -1]) (Some (mk_def 0 16 44100 3)) None = Fault NullPointer
  /\ btw_encode (Some [0; 1; -1]) (Some (mk_def 0 16 44100 3)) None
     <> Fault ExitFailure
  /\ (forall (samples : option (list Z)) (def : option btw_def),
        btw_encode samples def None = Fault NullPointer)
  /\ (forall (samples : option (list Z)) (def : option btw_def) (len0 : Z),
        samples = None \/ def = None
        \/ (exists d, def = Some d
                      /\ (channels d = 0 \/ bits_per_sample d = 0
                          \/ sample_rate d = 0 \/ sample_count d = 0)) ->
        btw_encode samples def (Some len0) = Fault ExitFailure)
  /\ btw_encode (Some [0; 1; -1]) (Some (mk_def 0 16 44100 3)) (Some 7)
     = Fault ExitFailure.
Proof.
  assert (forall (samples : option (list Z)) (def : option btw_def) (len0 : Z),
             samples = None \/ def = None
             \/ (exists d, def = Some d
                           /\ (channels d = 0 \/ bits_per_sample d = 0
                               \/ sample_rate d = 0 \/ sample_count d = 0)) ->
             btw_encode samples def (Some len0) = Fault ExitFailure) as Hvalid.
  { intros samples def len0 [-> | [-> | (d & -> & Hz)]].
    - destruct def; reflexivity.
    - reflexivity.
    - unfold btw_encode, store_ptr. unbind.
      destruct samples as [samples |]; [| reflexivity].
      destruct Hz as [-> | [-> | [-> | ->]]]; cbn [Z.eqb orb];
        rewrite ?orb_true_r; reflexivity. }
  split; [reflexivity |]. split; [discriminate |].
  split; [intros samples def; reflexivity |].
  split; [exact Hvalid |].
  apply Hvalid. right. right. eexists. split; [reflexivity |]. left. reflexivity.
Qed.

(** C2: [btw_encode] writes the records of all blocks at one bit position
    that only moves forward by the bits written, with no padding between
    blocks: a block moves the cursor by the bits of its records, the next
    block starts at the cursor the last one ended at, and all blocks take
    [blocks_bits] bits, the sum of their records.  [btw_decode], after the
    channels of each block, moves its cursor to the next byte boundary,
    skipping the rest of a byte it has begun, and starts the next block
    there. *)
Theorem block_alignment (fmt : sample_fmt) (samples data : list Z)
    (def d : btw_def) :
  shape_ok samples def ->
  (forall fuel bprl i buf c,
      i < sample_count def ->
      encode_blocks samples def (S fuel) bprl i buf c
      = '(buf, c') ←
          encode_channels samples def (Z.to_nat (channels def)) i
            (if sample_count def - i <? BTW_BLOCK_SIZE
             then wrap_u 32 (sample_count def - i) else BTW_BLOCK_SIZE) bprl 0 buf c;
        encode_blocks samples def fuel bprl
          (i + (if sample_count def - i <? BTW_BLOCK_SIZE
                then wrap_u 32 (sample_count def - i) else BTW_BLOCK_SIZE)) buf c')
  /\ (forall bprl i buf c,
        wf_w buf c -> 0 <= bprl < 256 -> 0 <= i < sample_count def ->
        match
          encode_channels samples def (Z.to_nat (channels def)) i
            (Z.min BTW_BLOCK_SIZE (sample_count def - i)) bprl 0 buf c
        with
        | Ok (_, c') =>
            cbits c' = cbits c
                       + channels_bits samples def (Z.to_nat (channels def)) i
                           (Z.min BTW_BLOCK_SIZE (sample_count def - i)) bprl 0
        | Fault f => f = OutOfBounds
        end)
  /\ (forall fuel bprl i buf c,
        wf_w buf c -> 0 <= bprl < 256 -> 0 <= i <= sample_count def ->
        sample_count def - i <= Z.of_nat fuel ->
        match encode_blocks samples def fuel bprl i buf c with
        | Ok (_, c') => cbits c' = cbits c + blocks_bits samples def fuel bprl i
        | Fault f =>
            f = OutOfBounds
            /\ 8 * Z.of_nat (length buf)
               < cbits c + blocks_bits samples def fuel bprl i
        end)
  /\ (forall n bprl i,
        i < sample_count def ->
        blocks_bits samples def (S n) bprl i
        = channels_bits samples def (Z.to_nat (channels def)) i
            (Z.min BTW_BLOCK_SIZE (sample_count def - i)) bprl 0
          + blocks_bits samples def n bprl
              (i + Z.min BTW_BLOCK_SIZE (sample_count def - i)))
  /\ (forall i cap bprl c out olen,
        cursor_ok c -> 0 <= bprl <= 31 -> bytes_ok data ->
        match decode_channels fmt data d (Z.to_nat (channels d)) i cap bprl 0 c out olen
        with
        | Ok (c1, out1, olen1) =>
            cursor_ok c1
            /\ decode_block fmt data d i cap bprl c out olen
               = Ok (mk_cursor ((cbits c1 + 7) / 8) 0, out1, olen1)
        | Fault f => decode_block fmt data d i cap bprl c out olen = Fault f
        end)
  /\ (forall fuel bprl i c out olen,
        i < sample_count d ->
        decode_blocks fmt data d (S fuel) bprl i c out olen
        = '(c', out, olen) ←
            decode_block fmt data d i
              (if sample_count d - i <? BTW_BLOCK_SIZE
               then sample_count d - i else BTW_BLOCK_SIZE) bprl c out olen;
          decode_blocks fmt data d fuel bprl
            (i + (if sample_count d - i <? BTW_BLOCK_SIZE
                  then sample_count d - i else BTW_BLOCK_SIZE)) c' out olen).
Proof.
  intros Hshape.
  pose proof Hshape as (Hch & Hbps & Hsr & Hsc & Hlen & Hprod & Hsamples).
  split; [| split; [| split; [| split; [| split]]]].
  - intros fuel bprl i buf c Hi. cbn [encode_blocks].
    destruct (Z.ltb_spec i (sample_count def)); [reflexivity | lia].
  - intros bprl i buf c Hwf Hbprl Hi.
    assert (0 < Z.min BTW_BLOCK_SIZE (sample_count def - i) <= 512) as Hcap
      by (unfold BTW_BLOCK_SIZE; lia).
    pose proof (encode_channels_spec samples def Hsamples (Z.to_nat (channels def)) i
                  (Z.min BTW_BLOCK_SIZE (sample_count def - i)) bprl 0 buf c Hwf Hbprl
                  ltac:(lia)) as W.
    specialize (W ltac:(intros ch' Hch'; apply (block_readable samples def Hshape);
                        unfold BTW_BLOCK_SIZE in *; lia)).
    destruct (encode_channels samples def (Z.to_nat (channels def)) i
                (Z.min BTW_BLOCK_SIZE (sample_count def - i)) bprl 0 buf c)
      as [[buf' c'] | f]; apply W.
  - intros fuel bprl i buf c Hwf Hbprl Hi Hfuel.
    pose proof (encode_blocks_spec samples def Hshape fuel bprl i buf c Hwf Hbprl Hi Hfuel)
      as W.
    destruct (encode_blocks samples def fuel bprl i buf c) as [[buf' c'] | f];
      [apply W | exact W].
  - intros n bprl i Hi. cbn [blocks_bits].
    destruct (Z.ltb_spec i (sample_count def)); [reflexivity | lia].
  - intros i cap bprl c out olen Hc Hbprl Hdata. unfold decode_block.
    pose proof (decode_channels_ends fmt data d Hdata (Z.to_nat (channels d)) i cap bprl 0
                  c out olen Hc Hbprl) as H1.
    destruct (decode_channels fmt data d (Z.to_nat (channels d)) i cap bprl 0 c out olen)
      as [[[c1 out1] olen1] | f]; unbind; [| reflexivity].
    split; [assumption |]. rewrite <- (ceil8 c1 H1).
    destruct (c_bit c1 =? 0); cbn [negb b2z]; [rewrite Z.add_0_r |]; reflexivity.
  - intros fuel bprl i c out olen Hi. cbn [decode_blocks].
    destruct (Z.ltb_spec i (sample_count d)); [reflexivity | lia].
Qed.

Lemma wf_w_zero (n : nat) (c : cursor) :
  cursor_ok c -> cbits c <= 8 * Z.of_nat n -> wf_w (replicate n 0) c.
Proof.
  intros Hc Hle. unfold wf_w. rewrite length_replicate, le_combine_replicate.
  split; [apply bytes_ok_replicate; lia |]. split; [assumption |].
  split; [assumption |]. apply pow2_pos. now apply cbits_nonneg.
Qed.

(** [shape_ok] and the range of a sample type, checked by computation on a
    given signal. *)
Lemma shape_intro (samples : list Z) (def : btw_def) :
  (0 <? channels def) && (channels def <? 2 ^ 32)
  && (0 <? bits_per_sample def) && (bits_per_sample def <? 2 ^ 32)
  && (0 <? sample_rate def) && (sample_rate def <? 2 ^ 64)
  && (0 <? sample_count def) && (sample_count def <? 2 ^ 64)
  && (Z.of_nat (length samples) =? sample_count def * channels def)
  && (sample_count def * channels def <? 2 ^ 64)
  && forallb (fun x => (-2147483648 <=? x) && (x <=? 2147483647)) samples = true ->
  shape_ok samples def.
Proof.
  intros H. repeat (apply andb_prop in H as [H ?]).
  unfold shape_ok. repeat (split; [lia |]).
  apply List.Forall_forall. intros x Hx.
  match goal with Hall : forallb _ _ = true |- _ => rewrite forallb_forall in Hall;
                                                    specialize (Hall x Hx) end.
  unfold sample_ok. lia.
Qed.

Lemma fmt_intro (fmt : sample_fmt) (samples : list Z) :
  forallb (fun x => (fmt_min fmt <=? x) && (x <=? fmt_max fmt)) samples = true ->
  Forall (in_fmt fmt) samples.
Proof.
  intros Hall. apply List.Forall_forall. intros x Hx.
  rewrite forallb_forall in Hall. specialize (Hall x Hx). unfold in_fmt. lia.
Qed.

Lemma rice_fits_intro (samples : list Z) (def : btw_def) (i cap chan : Z) :
  (let k := spec_rice_len (channel_samples samples def (Z.to_nat cap) i chan 0) in
   (k <=? 30) && (k <? 2 ^ bit_length (bits_per_sample def))) = true ->
  rice_fits samples def i cap chan.
Proof. unfold rice_fits. cbv zeta. intros H. apply andb_prop in H as [? ?]. lia. Qed.

(** A stream of two blocks: the encoder joins the second record to the first
    at bit 1188; the decoder, at bit 1188 after the first block, moves to
    byte 149. *)
Lemma block_alignment_witness :
  let samples := replicate 512 0 ++ [1] in
  let def := mk_def 1 16 44100 513 in
  (exists buf' c',
      encode_blocks samples def 513 4 0 (replicate 200 0) (mk_cursor 20 0)
      = Ok (buf', c')
      /\ cbits c' = 160 + (4 + 2 * 512) + (4 + 3))
  /\ (exists out1 olen1,
        decode_channels BTW_S16 (replicate 150 0) def 1 0 512 4 0 (mk_cursor 20 0)
          (replicate 513 None) 0
        = Ok (mk_cursor 148 4, out1, olen1)
        /\ decode_block BTW_S16 (replicate 150 0) def 0 512 4 (mk_cursor 20 0)
             (replicate 513 None) 0
           = Ok (mk_cursor 149 0, out1, olen1)).
Proof.
  intros samples def.
  assert (shape_ok samples def) as Hshape by (apply shape_intro; vm_compute; reflexivity).
  destruct (block_alignment BTW_S16 samples (replicate 150 0) def def Hshape)
    as (_ & _ & Henc & _ & Hdec & _).
  split.
  - specialize (Henc 513%nat 4 0 (replicate 200 0) (mk_cursor 20 0)
                  ltac:(apply wf_w_zero; [unfold cursor_ok | unfold cbits]; cbn; lia)
                  ltac:(lia) ltac:(cbn; lia) ltac:(cbn; lia)).
    destruct (encode_blocks samples def 513 4 0 (replicate 200 0) (mk_cursor 20 0))
      as [[buf' c'] | f].
    + exists buf', c'. split; [reflexivity |]. rewrite Henc. vm_compute. reflexivity.
    + exfalso. destruct Henc as [_ Henc]. vm_compute in Henc. discriminate.
  - assert (exists out1 olen1,
               decode_channels BTW_S16 (replicate 150 0) def 1 0 512 4 0 (mk_cursor 20 0)
                 (replicate 513 None) 0
               = Ok (mk_cursor 148 4, out1, olen1)) as (out1 & olen1 & E).
    { vm_compute. eexists _, _. reflexivity. }
    exists out1, olen1. split; [exact E |].
    specialize (Hdec 0 512 4 (mk_cursor 20 0) (replicate 513 None) 0
                  ltac:(unfold cursor_ok; cbn; lia) ltac:(lia)
                  ltac:(apply bytes_ok_replicate; lia)).
    change (Z.to_nat (channels def)) with 1%nat in Hdec.
    rewrite E in Hdec. exact (proj2 Hdec).
Defined.

(** C10: whenever [btw_decode] returns a buffer, the count it leaves in
    [*out_len] is [sample_count * channels] of the parameters it decoded
    with, the buffer has that many elements and every one of them has been
    assigned; this holds for every input stream.  When it returns [NULL]
    one of the four fields is zero.  It never runs forever: on a stream of
    bytes the only other outcome is that it has left the stream or the
    buffer. *)
Theorem decode_output_count (fmt : sample_fmt) (data : list Z) (d0 : btw_def) :
  def_ok d0 ->
  match btw_decode fmt (Some data) (Some d0) with
  | Ok (Some d, Some (out, n)) =>
      n = sample_count d * channels d
      /\ Z.of_nat (length out) = n
      /\ (forall idx, (idx < length out)%nat -> assigned out idx)
  | Ok (Some d, None) =>
      channels d = 0 \/ sample_rate d = 0 \/ sample_count d = 0
      \/ bits_per_sample d = 0
  | Ok (None, _) => False
  | Fault f => bytes_ok data -> f = OutOfBounds
  end.
Proof.
  intros Hd0.
  destruct (btw_decode fmt (Some data) (Some d0)) as [[[d |] r] | f] eqn:E.
  - unfold btw_decode in E.
    pose proof (read_metadata_ok data d0) as Hok.
    destruct (btw_read_metadata (Some data) (Some d0)) as [[d' |] | f];
      unbind; try discriminate.
    specialize (Hok d' Hd0 eq_refl).
    destruct ((channels d' =? 0) || (sample_rate d' =? 0) || (sample_count d' =? 0)
              || (bits_per_sample d' =? 0)) eqn:Ez.
    + injection E as <- <-.
      repeat (apply orb_prop in Ez as [Ez | Ez]); apply Z.eqb_eq in Ez; auto.
    + apply orb_false_elim in Ez as [Ez _]. apply orb_false_elim in Ez as [Ez Hsc].
      apply orb_false_elim in Ez as [Hch _].
      apply Z.eqb_neq in Hch, Hsc.
      destruct (decode_body fmt data d') as [[out n] | f] eqn:Eb; unbind;
        [| discriminate].
      injection E as <- <-.
      pose proof Hok as (? & ? & ? & ?).
      apply (decode_body_count fmt data d' Hok ltac:(lia) ltac:(lia)) in Eb.
      destruct Eb as (-> & Hl & Ha). auto.
  - pose proof (read_metadata_ends data d0) as Hr.
    unfold btw_decode in E.
    destruct (btw_read_metadata (Some data) (Some d0)) as [[d' |] | f];
      unbind; try discriminate.
    + destruct ((channels d' =? 0) || (sample_rate d' =? 0) || (sample_count d' =? 0)
                || (bits_per_sample d' =? 0)); [discriminate |].
      destruct (decode_body fmt data d'); discriminate.
    + exact Hr.
  - intros Hdata. pose proof (btw_decode_ends fmt data d0 Hd0 Hdata) as H.
    rewrite E in H. exact H.
Qed.

(** A header for three stereo frames followed by six arbitrary bytes. *)
Lemma decode_output_count_witness :
  let data := [98; 116; 119; 102; 3; 0; 0; 0; 0; 0; 0; 0; 2; 0; 8; 0; 64; 31; 0; 0;
               165; 60; 90; 17; 0; 0] in
  btw_decode BTW_S16 (Some data) (Some (mk_def 0 0 0 0))
  = Ok (Some (mk_def 2 8 8000 3),
        Some ([Some 5; Some 0; Some (-111); Some 0; Some (-116); Some 0], 6))
  /\ 6 = sample_count (mk_def 2 8 8000 3) * channels (mk_def 2 8 8000 3)
  /\ assigned [Some 5; Some 0; Some (-111); Some 0; Some (-116); Some 0] 5.
Proof.
  intros data.
  pose proof (decode_output_count BTW_S16 data (mk_def 0 0 0 0)
                ltac:(unfold def_ok; cbn; lia)) as H.
  assert (btw_decode BTW_S16 (Some data) (Some (mk_def 0 0 0 0))
          = Ok (Some (mk_def 2 8 8000 3),
                Some ([Some 5; Some 0; Some (-111); Some 0; Some (-116); Some 0], 6)))
    as E by (vm_compute; reflexivity).
  rewrite E in H. destruct H as (Hn & _ & Ha).
  split; [exact E |]. split; [exact Hn |]. apply Ha. cbn. lia.
Defined.

Lemma extends_self (buf : list Z) (c : cursor) : wf_w buf c -> extends buf buf c.
Proof.
  intros Hwf. pose proof (wf_w_stream buf c Hwf) as Hs.
  destruct Hwf as (Hb & Hc & Hle & _).
  split; [assumption |]. split; [assumption |]. apply Z.mod_small. assumption.
Qed.

(** C7: the round trip of [put_number] and [grab_number] does not hold for
    every value below [2^width]: at width 32, from a byte boundary,
    [put_number] stores [2^31] as the four bytes 00 00 00 80 and
    [grab_number] reads them back as [-2^31], because it shifts each byte
    as an [int] before it joins it to its [long long] result. *)
Theorem put_grab_sign_extension :
  put_number (replicate 8 0) (mk_cursor 0 0) 32 2147483648
  = Ok ([0; 0; 0; 128; 0; 0; 0; 0], mk_cursor 4 0)
  /\ grab_number [0; 0; 0; 128; 0; 0; 0; 0] (mk_cursor 0 0) 32
     = Ok (-2147483648, mk_cursor 4 0)
  /\ int_shl 128 24 = -2147483648.
Proof. repeat split; vm_compute; reflexivity. Qed.

(** The round trip of [put_number] and [grab_number] holds for every width
    up to 64, every cursor and every value below [2^31] that fits the
    width: the value comes back and both cursors have moved by the width;
    the writer fails only when the bits do not fit the buffer. *)
Theorem put_grab_roundtrip (buf : list Z) (c : cursor) (bits number : Z) :
  wf_w buf c -> 0 <= bits <= 64 -> 0 <= number < 2 ^ bits -> number < 2 ^ 31 ->
  match put_number buf c bits number with
  | Ok (buf', c') =>
      cbits c + bits <= 8 * Z.of_nat (length buf)
      /\ cbits c' = cbits c + bits
      /\ grab_number buf' c bits = Ok (number, c')
  | Fault f => f = OutOfBounds /\ 8 * Z.of_nat (length buf) < cbits c + bits
  end.
Proof.
  intros Hwf Hbits Hnum H31.
  pose proof (put_number_spec buf c bits number Hwf ltac:(lia)) as W.
  destruct (put_number buf c bits number) as [[buf' c'] | f] eqn:E; [| exact W].
  destruct W as (Hfit & Hwf' & Hl & Hcb & _).
  split; [assumption |]. split; [assumption |].
  pose proof (readback_number buf' buf buf' c c' bits number Hwf ltac:(lia)
                ltac:(rewrite Z.mod_small; lia) E (extends_self _ _ Hwf')) as R.
  rewrite Z.mod_small in R by lia. exact R.
Qed.

(** Seventeen bits written from bit 1 of byte 1. *)
Lemma put_grab_roundtrip_witness :
  exists buf' c',
    put_number [255; 1; 0; 0; 0] (mk_cursor 1 1) 17 70000 = Ok (buf', c')
    /\ cbits c' = 9 + 17
    /\ grab_number buf' (mk_cursor 1 1) 17 = Ok (70000, c').
Proof.
  assert (wf_w [255; 1; 0; 0; 0] (mk_cursor 1 1)) as Hwf.
  { unfold wf_w, bytes_ok, cursor_ok, cbits. cbn [c_pos c_bit length].
    split; [repeat constructor; lia |]. split; [lia |]. split; [lia |].
    vm_compute. reflexivity. }
  pose proof (put_grab_roundtrip [255; 1; 0; 0; 0] (mk_cursor 1 1) 17 70000 Hwf
                ltac:(lia) ltac:(vm_compute; split; [discriminate | reflexivity])
                ltac:(vm_compute; reflexivity)) as H.
  destruct (put_number [255; 1; 0; 0; 0] (mk_cursor 1 1) 17 70000) as [[buf' c'] | f].
  - exists buf', c'. destruct H as (_ & Hcb & Hg). split; [reflexivity |].
    split; [exact Hcb | exact Hg].
  - exfalso. destruct H as [_ H]. vm_compute in H. discriminate.
Defined.

(** C1: the round trip fails on a stream of more than one block.  For 513
    mono 16-bit samples, 512 zeros and then a 1, [btw_encode] returns 150
    bytes; the first block ends at bit 1188, inside byte 148, and the
    second record follows at once.  [btw_decode] moves to byte 149 before
    the second block and returns 513 zeros: the last sample is lost, on
    the returned bytes and on the whole buffer alike. *)
Theorem multi_block_roundtrip_differs :
  let samples := replicate 512 0 ++ [1] in
  let def := mk_def 1 16 44100 513 in
  exists buf,
    btw_encode (Some samples) (Some def) (Some 0) = Ok (buf, 150)
    /\ btw_decode BTW_S16 (Some (take 150 buf)) (Some def)
       = Ok (Some def, Some (Some <$> replicate 513 0, 513))
    /\ btw_decode BTW_S16 (Some buf) (Some def)
       = Ok (Some def, Some (Some <$> replicate 513 0, 513))
    /\ Some <$> samples <> Some <$> replicate 513 0.
Proof.
  intros samples def.
  assert (exists buf, btw_encode (Some samples) (Some def) (Some 0) = Ok (buf, 150)) as [buf E].
  { vm_compute. eexists. reflexivity. }
  exists buf. split; [exact E |].
  vm_compute in E. injection E as <-.
  split; [vm_compute; reflexivity |]. split; [vm_compute; reflexivity |].
  intros H. apply (f_equal (fun l => l !! 512%nat)) in H. vm_compute in H. discriminate.
Qed.

(** The writers lay the bits out from the least significant bit of each
    byte on.  On a buffer with no bit set at or after the cursor,
    [put_bit], [put_number] and [put_ones] add to the stream, read as a
    little-endian number, the bit, the low [bits] bits of [number] and
    [ones] ones at the bit index of the cursor, keep what lies below it and
    move the cursor by the bits written; they fail exactly when these do
    not fit the buffer. *)
Theorem writers_layout (buf : list Z) (c : cursor) (bit bits number ones : Z) :
  wf_w buf c -> 0 <= bit <= 1 -> 0 <= bits < 256 -> 0 <= ones ->
  wspec (put_bit buf c bit) buf c 1 bit
  /\ wspec (put_number buf c bits number) buf c bits (number mod 2 ^ bits)
  /\ wspec (put_ones buf c ones) buf c ones (2 ^ ones - 1).
Proof.
  intros Hwf Hbit Hbits Hones.
  split; [now apply put_bit_spec |].
  split; [now apply put_number_spec | now apply put_ones_spec].
Qed.

(** From bit 3 of byte 0 of a buffer that holds 5: a bit, the 12 low bits
    of 70000, and 11 ones. *)
Lemma writers_layout_witness :
  put_bit [5; 0; 0] (mk_cursor 0 3) 1 = Ok ([13; 0; 0], mk_cursor 0 4)
  /\ le_combine [13; 0; 0] = 5 + 1 * 2 ^ 3
  /\ put_number [5; 0; 0] (mk_cursor 0 3) 12 70000
     = Ok ([133; 11; 0], mk_cursor 1 7)
  /\ le_combine [133; 11; 0] = 5 + (70000 mod 2 ^ 12) * 2 ^ 3
  /\ put_ones [5; 0; 0] (mk_cursor 0 3) 11 = Ok ([253; 63; 0], mk_cursor 1 6)
  /\ le_combine [253; 63; 0] = 5 + (2 ^ 11 - 1) * 2 ^ 3.
Proof.
  assert (wf_w [5; 0; 0] (mk_cursor 0 3)) as Hwf.
  { unfold wf_w, bytes_ok, cursor_ok, cbits. cbn [c_pos c_bit length].
    split; [repeat constructor; lia |]. split; [lia |]. split; [lia |].
    vm_compute. reflexivity. }
  destruct (writers_layout [5; 0; 0] (mk_cursor 0 3) 1 12 70000 11 Hwf
              ltac:(lia) ltac:(lia) ltac:(lia)) as (H1 & H2 & H3).
  assert (put_bit [5; 0; 0] (mk_cursor 0 3) 1 = Ok ([13; 0; 0], mk_cursor 0 4)) as E1
    by (vm_compute; reflexivity).
  assert (put_number [5; 0; 0] (mk_cursor 0 3) 12 70000
          = Ok ([133; 11; 0], mk_cursor 1 7)) as E2 by (vm_compute; reflexivity).
  assert (put_ones [5; 0; 0] (mk_cursor 0 3) 11 = Ok ([253; 63; 0], mk_cursor 1 6)) as E3
    by (vm_compute; reflexivity).
  rewrite E1 in H1. rewrite E2 in H2. rewrite E3 in H3.
  destruct H1 as (_ & _ & _ & _ & V1). destruct H2 as (_ & _ & _ & _ & V2).
  destruct H3 as (_ & _ & _ & _ & V3).
  split; [exact E1 |]. split; [exact V1 |]. split; [exact E2 |].
  split; [exact V2 |]. split; [exact E3 | exact V3].
Defined.

(** The readers return the bits at the cursor.  On a stream of bytes,
    [grab_bit] returns the bit at the bit index of the cursor and
    [grab_number] the [bits] bits from there on, as a number with the
    first bit least significant, when that number is below [2^31]; both
    move the cursor by the bits read and fail exactly when these lie
    outside the stream. *)
Theorem readers_fields (data : list Z) (c : cursor) (bits : Z) :
  bytes_ok data -> cursor_ok c -> cbits c <= 8 * Z.of_nat (length data) ->
  0 <= bits -> (le_combine data / 2 ^ cbits c) mod 2 ^ bits < 2 ^ 31 ->
  rspec (grab_bit data c) data c 1
  /\ rspec (grab_number data c bits) data c bits.
Proof.
  intros Hb Hc Hle Hbits Hsmall.
  split; [now apply grab_bit_spec | now apply grab_number_spec].
Qed.

(** The bytes 133, 11 read from bit 3 of byte 0. *)
Lemma readers_fields_witness :
  grab_bit [133; 11; 0] (mk_cursor 0 3) = Ok (0, mk_cursor 0 4)
  /\ grab_number [133; 11; 0] (mk_cursor 0 3) 12 = Ok (70000 mod 2 ^ 12, mk_cursor 1 7).
Proof.
  destruct (readers_fields [133; 11; 0] (mk_cursor 0 3) 12) as [H1 H2].
  - repeat constructor; lia.
  - unfold cursor_ok; cbn; lia.
  - vm_compute; discriminate.
  - lia.
  - vm_compute; reflexivity.
  - assert (grab_bit [133; 11; 0] (mk_cursor 0 3) = Ok (0, mk_cursor 0 4)) as E1
      by (vm_compute; reflexivity).
    assert (exists c', grab_number [133; 11; 0] (mk_cursor 0 3) 12 = Ok (368, c'))
      as [c' E2] by (vm_compute; eexists; reflexivity).
    split; [exact E1 |]. rewrite E2 in H2 |- *.
    destruct H2 as (_ & Hc' & Hcb & _).
    f_equal. f_equal. apply cursor_eq; [assumption | unfold cursor_ok; cbn; lia |].
    rewrite Hcb. reflexivity.
Defined.

Lemma encode_valid (samples : list Z) (def : btw_def) (len0 : Z) :
  shape_ok samples def ->
  btw_encode (Some samples) (Some def) (Some len0) = encode_body samples def.
Proof.
  intros (Hch & Hbps & Hsr & Hsc & _). unfold btw_encode.
  rewrite fields_nonzero by lia. reflexivity.
Qed.

(** The stream that [btw_encode] writes, called with an [out_len] that is
    not [NULL]: the header and then the records of all blocks,
    [stream_bits] bits in all, in a buffer of [max_len] bytes; the count
    returned is that of the bytes begun.  The encoder fails exactly when
    the stream is longer than the buffer, and then by writing past its
    end. *)
Theorem encode_stream_layout (samples : list Z) (def : btw_def) (len0 : Z) :
  shape_ok samples def ->
  match btw_encode (Some samples) (Some def) (Some len0) with
  | Ok (buf, n) =>
      stream_bits samples def <= 8 * max_len def
      /\ bytes_ok buf /\ Z.of_nat (length buf) = max_len def
      /\ n = (stream_bits samples def + 7) / 8
      /\ 0 <= le_combine buf < 2 ^ stream_bits samples def
      /\ le_combine buf mod 2 ^ 160 = header_value def
  | Fault f => f = OutOfBounds /\ 8 * max_len def < stream_bits samples def
  end.
Proof.
  intros Hshape. rewrite encode_valid by assumption.
  apply encode_body_spec. assumption.
Qed.

(** Five 16-bit samples: 981 bits in 123 bytes. *)
Lemma encode_stream_layout_witness :
  let samples := [0; 100; -300; 32767; -32768] in
  let def := mk_def 1 16 44100 5 in
  exists buf,
    btw_encode (Some samples) (Some def) (Some 0) = Ok (buf, 123)
    /\ stream_bits samples def = 981 /\ Z.of_nat (length buf) = 1034
    /\ le_combine buf mod 2 ^ 160 = header_value def.
Proof.
  intros samples def.
  pose proof (encode_stream_layout samples def 0
                ltac:(apply shape_intro; vm_compute; reflexivity)) as H.
  assert (exists buf, btw_encode (Some samples) (Some def) (Some 0) = Ok (buf, 123)) as [buf E].
  { vm_compute. eexists. reflexivity. }
  rewrite E in H. destruct H as (_ & _ & Hl & _ & _ & Hh).
  exists buf. split; [exact E |]. split; [vm_compute; reflexivity |].
  split; [exact Hl | exact Hh].
Defined.

(** C9: the buffer of [btw_encode] is too small for a full-scale 16-bit
    square wave.  For 4096 mono samples alternating between 32767 and
    -32767 the buffer has 9216 bytes, 73728 bits; the Rice parameter is 15,
    a step of 65534 takes 18 bits and the stream 73912: the encoder writes
    past the end of the buffer. *)
Theorem encode_overruns_buffer :
  let samples := concat (replicate 2048 [32767; -32767]) in
  let def := mk_def 1 16 44100 4096 in
  btw_encode (Some samples) (Some def) (Some 0) = Fault OutOfBounds
  /\ max_len def = 9216
  /\ stream_bits samples def = 73912
  /\ codeword_bits 15 (32767 - -32767) = 18.
Proof.
  intros samples def.
  assert (shape_ok samples def) as Hshape by (apply shape_intro; vm_compute; reflexivity).
  assert (stream_bits samples def = 73912) as Hbits by (vm_compute; reflexivity).
  split; [| split; [reflexivity | split; [exact Hbits | reflexivity]]].
  rewrite encode_valid by assumption.
  pose proof (encode_body_spec samples def Hshape) as H.
  destruct (encode_body samples def) as [[buf n] | f].
  - exfalso. destruct H as [H _]. rewrite Hbits in H. vm_compute in H.
    apply H. reflexivity.
  - destruct H as [-> _]. reflexivity.
Qed.

(** * The header of a stream *)

(** What [btw_read_metadata] finds in a stream of [btw_encode]. *)
Lemma read_encoded (samples : list Z) (def : btw_def) (buf : list Z) (n len0 : Z) :
  shape_ok samples def ->
  sample_count def < 2 ^ 31 -> sample_rate def mod 2 ^ 32 < 2 ^ 31 ->
  btw_encode (Some samples) (Some def) (Some len0) = Ok (buf, n) ->
  forall (m : nat) (d0 : btw_def),
    20 <= Z.of_nat m ->
    btw_read_metadata (Some (take m buf)) (Some d0)
    = Ok (Some (mk_def (channels def mod 2 ^ 16) (bits_per_sample def mod 2 ^ 16)
                  (sample_rate def mod 2 ^ 32) (sample_count def))).
Proof.
  intros Hshape Hsc31 Hsr31 E m d0 Hm.
  pose proof (encode_body_spec samples def Hshape) as H.
  rewrite encode_valid in E by assumption. rewrite E in H.
  destruct H as (_ & Hb & Hl & _ & _ & Hh).
  pose proof (max_len_range def) as Hmax.
  pose proof Hshape as (_ & _ & _ & Hsc & _).
  apply read_metadata_stream; try assumption; try lia.
  - now apply bytes_ok_take.
  - rewrite length_take. lia.
  - rewrite le_combine_take by assumption.
    rewrite mod_mod_pow2 by lia. assumption.
Qed.

(** With the four bytes of the magic in place and the 20 bytes of a header
    present, all four fields are overwritten, whatever they held. *)
Lemma read_metadata_fills (data : list Z) :
  20 <= Z.of_nat (length data) -> take 4 data = [98; 116; 119; 102] ->
  exists d, forall d0, btw_read_metadata (Some data) (Some d0) = Ok (Some d).
Proof.
  intros Hlen Hmagic.
  destruct data as [| b0 [| b1 [| b2 [| b3 rest]]]]; try discriminate Hmagic.
  cbn [take] in Hmagic. injection Hmagic as -> -> -> ->.
  unfold btw_read_metadata.
  destruct (load_first4 98 116 119 102 rest) as (-> & -> & -> & ->). unbind.
  cbn [Z.eqb Pos.eqb negb].
  set (data := 98 :: 116 :: 119 :: 102 :: rest) in *.
  assert (cursor_ok (mk_cursor 4 0) /\ cbits (mk_cursor 4 0) = 32) as [Hc Hcb]
    by (unfold cursor_ok, cbits; cbn; lia).
  revert Hc Hcb. generalize (mk_cursor 4 0). intros c0 Hc0 Hcb0.
  pose proof (grab_number_shape data c0 64 Hc0 ltac:(lia) ltac:(lia)) as H1.
  destruct (grab_number data c0 64) as [[sc c1] | f]; unbind; [| destruct H1; lia].
  destruct H1 as (_ & Hc1 & Hcb1).
  pose proof (grab_number_shape data c1 16 Hc1 ltac:(lia) ltac:(lia)) as H2.
  destruct (grab_number data c1 16) as [[ch c2] | f]; unbind; [| destruct H2; lia].
  destruct H2 as (_ & Hc2 & Hcb2).
  pose proof (grab_number_shape data c2 16 Hc2 ltac:(lia) ltac:(lia)) as H3.
  destruct (grab_number data c2 16) as [[bps c3] | f]; unbind; [| destruct H3; lia].
  destruct H3 as (_ & Hc3 & Hcb3).
  pose proof (grab_number_shape data c3 32 Hc3 ltac:(lia) ltac:(lia)) as H4.
  destruct (grab_number data c3 32) as [[sr c4] | f]; unbind; [| destruct H4; lia].
  eexists. intros d0. reflexivity.
Qed.

(** A stream whose channel count does not fit the 16 bits of its header
    field: 65536 channels of one silent sample. *)
Lemma wide_header :
  let def := mk_def 65536 16 44100 1 in
  let samples := replicate (Z.to_nat 65536) 0 in
  exists buf n,
    btw_encode (Some samples) (Some def) (Some 0) = Ok (buf, n)
    /\ forall d0, btw_read_metadata (Some buf) (Some d0)
                  = Ok (Some (mk_def 0 16 44100 1)).
Proof.
  intros def samples.
  assert (shape_ok samples def) as Hshape.
  { apply (silence_shape def); cbn [channels bits_per_sample sample_rate sample_count];
      vm_compute; (reflexivity || (split; reflexivity)). }
  assert (stream_bits samples def <= 8 * max_len def) as Hfits.
  { unfold samples. change 65536 with (sample_count def * channels def) at 1.
    rewrite silence_stream_bits
      by (cbn [channels bits_per_sample sample_rate sample_count];
          vm_compute; (split; (reflexivity || discriminate))).
    vm_compute. discriminate. }
  pose proof (encode_body_spec samples def Hshape) as H.
  destruct (encode_body samples def) as [[buf n] | f] eqn:E; [| lia].
  exists buf, n. rewrite encode_valid by assumption. split; [exact E |].
  intros d0.
  pose proof (read_encoded samples def buf n 0 Hshape
                ltac:(vm_compute; reflexivity) ltac:(vm_compute; reflexivity)
                ltac:(rewrite encode_valid by assumption; exact E)
                (length buf) d0) as R.
  destruct H as (_ & _ & Hl & _).
  pose proof (max_len_range def) as Hmax.
  rewrite firstn_all in R. apply R. lia.
Qed.

(** C4: [btw_read_metadata] overwrites the four fields exactly when the
    first four bytes are 'b', 't', 'w', 'f'.  On a stream of [btw_encode]
    it finds [sample_count], the low 16 bits of [channels] and of
    [bits_per_sample] and the low 32 bits of [sample_rate], which are the
    parameters themselves when they fit these widths ([sample_count] and
    the stored [sample_rate] taken below [2^31]).  On any mismatch, as
    after byte 0 of a stream has been changed, it leaves every field as it
    was. *)
Theorem read_metadata_spec (samples : list Z) (def : btw_def) (buf : list Z) (n len0 : Z) :
  shape_ok samples def ->
  sample_count def < 2 ^ 31 -> sample_rate def mod 2 ^ 32 < 2 ^ 31 ->
  btw_encode (Some samples) (Some def) (Some len0) = Ok (buf, n) ->
  (forall (m : nat) d0,
      20 <= Z.of_nat m ->
      btw_read_metadata (Some (take m buf)) (Some d0)
      = Ok (Some (mk_def (channels def mod 2 ^ 16) (bits_per_sample def mod 2 ^ 16)
                    (sample_rate def mod 2 ^ 32) (sample_count def))))
  /\ (channels def < 2 ^ 16 -> bits_per_sample def < 2 ^ 16 ->
      sample_rate def < 2 ^ 32 ->
      forall d0, btw_read_metadata (Some buf) (Some d0) = Ok (Some def))
  /\ (forall b d0,
        b <> 98 ->
        btw_read_metadata (Some (<[0%nat := b]> buf)) (Some d0) = Ok (Some d0))
  /\ (forall data d0,
        4 <= Z.of_nat (length data) -> take 4 data <> [98; 116; 119; 102] ->
        btw_read_metadata (Some data) (Some d0) = Ok (Some d0))
  /\ (forall data,
        20 <= Z.of_nat (length data) -> take 4 data = [98; 116; 119; 102] ->
        exists d, forall d0, btw_read_metadata (Some data) (Some d0) = Ok (Some d)).
Proof.
  intros Hshape Hsc31 Hsr31 E.
  pose proof (read_encoded samples def buf n len0 Hshape Hsc31 Hsr31 E) as R.
  pose proof (encode_body_spec samples def Hshape) as H.
  rewrite encode_valid in E by assumption. rewrite E in H.
  destruct H as (_ & Hb & Hl & _).
  pose proof (max_len_range def) as Hmax.
  pose proof Hshape as (Hch & Hbps & Hsr & Hsc & _).
  split; [exact R |]. split; [| split; [| split]].
  - intros Hch16 Hbps16 Hsr32 d0.
    specialize (R (length buf) d0 ltac:(lia)). rewrite firstn_all in R.
    rewrite R, !Z.mod_small by lia. now rewrite def_eta.
  - intros b d0 Hb0. apply read_metadata_mismatch.
    + rewrite length_insert. lia.
    + destruct buf as [| b0 rest]; [cbn in Hl; lia |]. cbn. congruence.
  - intros data d0. apply read_metadata_mismatch.
  - apply read_metadata_fills.
Qed.

(** The header of a stereo stream, read from its first 20 bytes, from the
    whole buffer, and after byte 0 has been changed. *)
Lemma read_metadata_spec_witness :
  let samples := [0; 100; -300; 32767; -32768; 5] in
  let def := mk_def 2 16 44100 3 in
  exists buf n,
    btw_encode (Some samples) (Some def) (Some 0) = Ok (buf, n)
    /\ btw_read_metadata (Some (take 20 buf)) (Some (mk_def 7 7 7 7)) = Ok (Some def)
    /\ btw_read_metadata (Some buf) (Some (mk_def 7 7 7 7)) = Ok (Some def)
    /\ btw_read_metadata (Some (<[0%nat := 66]> buf)) (Some (mk_def 7 7 7 7))
       = Ok (Some (mk_def 7 7 7 7)).
Proof.
  intros samples def.
  assert (exists buf n, btw_encode (Some samples) (Some def) (Some 0) = Ok (buf, n))
    as (buf & n & E).
  { vm_compute. eexists _, _. reflexivity. }
  destruct (read_metadata_spec samples def buf n 0
              ltac:(apply shape_intro; vm_compute; reflexivity)
              ltac:(vm_compute; reflexivity) ltac:(vm_compute; reflexivity) E)
    as (H1 & H2 & H3 & _).
  exists buf, n. split; [exact E |]. split; [| split].
  - exact (H1 20%nat (mk_def 7 7 7 7) ltac:(lia)).
  - apply H2; vm_compute; reflexivity.
  - apply H3. lia.
Defined.

(** With 65536 channels the header holds 0 in its 16-bit field, and
    [btw_read_metadata] returns 0 channels. *)
Lemma read_metadata_spec_counterexample :
  let def := mk_def 65536 16 44100 1 in
  let samples := replicate (Z.to_nat 65536) 0 in
  exists buf n,
    btw_encode (Some samples) (Some def) (Some 0) = Ok (buf, n)
    /\ btw_read_metadata (Some buf) (Some def) = Ok (Some (mk_def 0 16 44100 1))
    /\ mk_def 0 16 44100 1 <> def.
Proof.
  intros def samples. destruct wide_header as (buf & n & E & R).
  exists buf, n. split; [exact E |]. split; [apply R | discriminate].
Qed.

(** C3: a stream of one block decodes to the samples and parameters it was
    encoded from, on the bytes [btw_encode] returns (called with an
    [out_len] that is not [NULL]) as on any longer prefix of its buffer,
    when the parameters fit their header fields ([channels] and
    [bits_per_sample] below [2^16], [sample_rate] below [2^31]), the Rice
    parameter of every channel can be written in the bits the format gives
    it, up to the largest one, 31, and the stream fits the encoder's
    buffer. *)
Theorem single_block_roundtrip (fmt : sample_fmt) (samples : list Z) (def : btw_def)
    (len0 : Z) :
  shape_ok samples def -> Forall (in_fmt fmt) samples ->
  channels def < 2 ^ 16 -> bits_per_sample def < 2 ^ 16 -> sample_rate def < 2 ^ 31 ->
  sample_count def <= 512 ->
  (forall chan, 0 <= chan < channels def ->
                rice_in_field samples def 0 (sample_count def) chan) ->
  stream_bits samples def <= 8 * max_len def ->
  exists buf n,
    btw_encode (Some samples) (Some def) (Some len0) = Ok (buf, n)
    /\ n = (stream_bits samples def + 7) / 8
    /\ forall (m : nat) d0,
         n <= Z.of_nat m ->
         btw_decode fmt (Some (take m buf)) (Some d0)
         = Ok (Some def, Some (Some <$> samples, sample_count def * channels def)).
Proof.
  intros Hshape Hfmt Hch16 Hbps16 Hsr31 Hone Hrice Hfits.
  destruct (encode_single_block samples def Hshape Hone Hfits)
    as (b5 & buf & c & Hwf5 & HS5 & Henc & W & Hl & E).
  pose proof (encode_body_spec samples def Hshape) as Hspec. rewrite E in Hspec.
  destruct Hspec as (_ & _ & _ & Hn & _).
  exists buf, ((cbits c + 7) / 8). rewrite encode_valid by assumption.
  split; [exact E |]. split; [exact Hn |].
  intros m d0 Hm. destruct W as (_ & Hwf & _).
  destruct (take_extends buf c m Hwf Hm) as [Hext _].
  exact (decode_single_block fmt samples def Hshape Hfmt Hch16 Hbps16 Hsr31 Hone Hrice
           b5 buf c (take m buf) d0 Hwf5 HS5 Henc Hext).
Qed.

(** An all-zero stereo signal, an alternating signal of 1 and -1, a ramp
    to the largest 16-bit value, and a block of 512 samples that swing
    between the ends of the 32-bit range, whose Rice parameter is 31. *)
Lemma single_block_roundtrip_witness :
  (let samples := replicate 8 0 in
   let def := mk_def 2 16 44100 4 in
   exists buf n,
     btw_encode (Some samples) (Some def) (Some 0) = Ok (buf, n)
     /\ btw_decode BTW_S16 (Some (take (Z.to_nat n) buf)) (Some (mk_def 0 0 0 0))
        = Ok (Some def, Some (Some <$> samples, 8)))
  /\ (let samples := [1; -1; 1; -1; 1; -1; 1; -1] in
      let def := mk_def 1 8 8000 8 in
      exists buf n,
        btw_encode (Some samples) (Some def) (Some 0) = Ok (buf, n)
        /\ btw_decode BTW_S16 (Some (take (Z.to_nat n) buf)) (Some (mk_def 0 0 0 0))
           = Ok (Some def, Some (Some <$> samples, 8)))
  /\ (let samples := [0; 4681; 9362; 14043; 18724; 23405; 28086; 32767] in
      let def := mk_def 1 16 44100 8 in
      exists buf n,
        btw_encode (Some samples) (Some def) (Some 0) = Ok (buf, n)
        /\ btw_decode BTW_S16 (Some (take (Z.to_nat n) buf)) (Some (mk_def 0 0 0 0))
           = Ok (Some def, Some (Some <$> samples, 8)))
  /\ (let samples := concat (replicate 256 [2147483647; -2147483648]) in
      let def := mk_def 1 32 48000 512 in
      spec_rice_len samples = 31
      /\ exists buf n,
           btw_encode (Some samples) (Some def) (Some 0) = Ok (buf, n)
           /\ btw_decode BTW_S32 (Some (take (Z.to_nat n) buf)) (Some (mk_def 0 0 0 0))
              = Ok (Some def, Some (Some <$> samples, 512))).
Proof.
  split; [| split; [| split]]; intros samples def.
  - destruct (single_block_roundtrip BTW_S16 samples def 0) as (buf & n & E & Hn & D).
    + apply shape_intro; vm_compute; reflexivity.
    + apply fmt_intro; vm_compute; reflexivity.
    + vm_compute; reflexivity.
    + vm_compute; reflexivity.
    + vm_compute; reflexivity.
    + vm_compute; discriminate.
    + intros chan Hchan. assert (chan = 0 \/ chan = 1) as [-> | ->] by (cbn in Hchan; lia);
        apply rice_fits_field, rice_fits_intro; vm_compute; reflexivity.
    + vm_compute; discriminate.
    + exists buf, n. split; [exact E |]. apply D.
      rewrite Hn. vm_compute. discriminate.
  - destruct (single_block_roundtrip BTW_S16 samples def 0) as (buf & n & E & Hn & D).
    + apply shape_intro; vm_compute; reflexivity.
    + apply fmt_intro; vm_compute; reflexivity.
    + vm_compute; reflexivity.
    + vm_compute; reflexivity.
    + vm_compute; reflexivity.
    + vm_compute; discriminate.
    + intros chan Hchan. assert (chan = 0) as -> by (cbn in Hchan; lia).
      apply rice_fits_field, rice_fits_intro; vm_compute; reflexivity.
    + vm_compute; discriminate.
    + exists buf, n. split; [exact E |]. apply D.
      rewrite Hn. vm_compute. discriminate.
  - destruct (single_block_roundtrip BTW_S16 samples def 0) as (buf & n & E & Hn & D).
    + apply shape_intro; vm_compute; reflexivity.
    + apply fmt_intro; vm_compute; reflexivity.
    + vm_compute; reflexivity.
    + vm_compute; reflexivity.
    + vm_compute; reflexivity.
    + vm_compute; discriminate.
    + intros chan Hchan. assert (chan = 0) as -> by (cbn in Hchan; lia).
      apply rice_fits_field, rice_fits_intro; vm_compute; reflexivity.
    + vm_compute; discriminate.
    + exists buf, n. split; [exact E |]. apply D.
      rewrite Hn. vm_compute. discriminate.
  - split; [vm_compute; reflexivity |].
    destruct (single_block_roundtrip BTW_S32 samples def 0) as (buf & n & E & Hn & D).
    + apply shape_intro; vm_compute; reflexivity.
    + apply fmt_intro; vm_compute; reflexivity.
    + vm_compute; reflexivity.
    + vm_compute; reflexivity.
    + vm_compute; reflexivity.
    + vm_compute; discriminate.
    + intros chan Hchan. assert (chan = 0) as -> by (cbn in Hchan; lia).
      unfold rice_in_field. vm_compute. reflexivity.
    + vm_compute; discriminate.
    + exists buf, n. split; [exact E |]. apply D.
      rewrite Hn. vm_compute. discriminate.
Defined.

(** With 65536 channels of one sample each, all fields are non-zero and
    there is one block, yet [btw_decode] reads 0 channels and returns [NULL]. *)
Lemma single_block_roundtrip_counterexample :
  let def := mk_def 65536 16 44100 1 in
  let samples := replicate (Z.to_nat 65536) 0 in
  exists buf n,
    btw_encode (Some samples) (Some def) (Some 0) = Ok (buf, n)
    /\ btw_decode BTW_S16 (Some buf) (Some def)
       = Ok (Some (mk_def 0 16 44100 1), None).
Proof.
  intros def samples. destruct wide_header as (buf & n & E & R).
  exists buf, n. split; [exact E |].
  unfold btw_decode. rewrite R. reflexivity.
Qed.

(** At a bit depth of 1, 2, 4, 8 or 16, a stream of one block whose
    samples lie in a range of [2^bits_per_sample] values around 0 (the
    signed and the unsigned range of that depth are such ranges) decodes
    to the samples and parameters it was encoded from, when [channels] is
    below [2^16], [sample_rate] below [2^31], the stream fits the
    encoder's buffer and [out_len] is not [NULL]. *)
Theorem roundtrip_at_bit_depth (fmt : sample_fmt) (samples : list Z)
    (def : btw_def) (e lo len0 : Z) :
  shape_ok samples def -> Forall (in_fmt fmt) samples ->
  0 <= e -> bits_per_sample def = 2 ^ e -> bits_per_sample def <= 16 ->
  lo <= 0 < lo + 2 ^ bits_per_sample def ->
  Forall (fun x => lo <= x < lo + 2 ^ bits_per_sample def) samples ->
  channels def < 2 ^ 16 -> sample_rate def < 2 ^ 31 -> sample_count def <= 512 ->
  stream_bits samples def <= 8 * max_len def ->
  exists buf n,
    btw_encode (Some samples) (Some def) (Some len0) = Ok (buf, n)
    /\ n = (stream_bits samples def + 7) / 8
    /\ forall (m : nat) d0,
         n <= Z.of_nat m ->
         btw_decode fmt (Some (take m buf)) (Some d0)
         = Ok (Some def, Some (Some <$> samples, sample_count def * channels def)).
Proof.
  intros Hshape Hfmt He Hbps H16 Hlo Hrange Hch16 Hsr31 Hone Hfits.
  pose proof Hshape as (_ & _ & _ & Hsc & _).
  assert (bits_per_sample def < 2 ^ 16) as Hbps16 by (change (2 ^ 16) with 65536; lia).
  assert (forall chan, 0 <= chan < channels def ->
                       rice_in_field samples def 0 (sample_count def) chan) as Hrice.
  { intros chan _. apply rice_fits_field.
    apply (rice_fits_pow2 samples def lo Hlo Hrange e); lia. }
  destruct (encode_single_block samples def Hshape Hone Hfits)
    as (b5 & buf & c & Hwf5 & HS5 & Henc & W & Hl & E).
  pose proof (encode_body_spec samples def Hshape) as Hspec. rewrite E in Hspec.
  destruct Hspec as (_ & _ & _ & Hn & _).
  exists buf, ((cbits c + 7) / 8). rewrite encode_valid by assumption.
  split; [exact E |]. split; [exact Hn |].
  intros m d0 Hm. destruct W as (_ & Hwf & _).
  destruct (take_extends buf c m Hwf Hm) as [Hext _].
  exact (decode_single_block fmt samples def Hshape Hfmt Hch16 Hbps16 Hsr31 Hone Hrice
           b5 buf c (take m buf) d0 Hwf5 HS5 Henc Hext).
Qed.

(** A stereo 16-bit signal that swings between the ends of its range. *)
Lemma roundtrip_at_bit_depth_witness :
  let samples := [-32768; 32767; -32768; 32767; 0; -1] in
  let def := mk_def 2 16 48000 3 in
  exists buf n,
    btw_encode (Some samples) (Some def) (Some 0) = Ok (buf, n)
    /\ btw_decode BTW_S16 (Some (take (Z.to_nat n) buf)) (Some (mk_def 0 0 0 0))
       = Ok (Some def, Some (Some <$> samples, 6)).
Proof.
  intros samples def.
  destruct (roundtrip_at_bit_depth BTW_S16 samples def 4 (-32768) 0)
    as (buf & n & E & Hn & D).
  - apply shape_intro; vm_compute; reflexivity.
  - apply fmt_intro; vm_compute; reflexivity.
  - lia.
  - reflexivity.
  - vm_compute; discriminate.
  - vm_compute. split; [discriminate | reflexivity].
  - repeat constructor; vm_compute; discriminate.
  - vm_compute; reflexivity.
  - vm_compute; reflexivity.
  - vm_compute; discriminate.
  - vm_compute; discriminate.
  - exists buf, n. split; [exact E |]. apply D.
    rewrite Hn. vm_compute. discriminate.
Defined.

(** * [bits_required] on a negative number *)

Lemma shiftr_negative (x : Z) : x < 0 -> Z.shiftr x 1 < 0.
Proof. intros H. apply Z.shiftr_neg. exact H. Qed.

(** The loop [while (number >>= 1)] of [bits_required] does not end on a
    negative [long long]: the shifts keep the sign, so no amount of fuel
    lets it return.  The codec calls it with [bits_per_sample] and with a
    sum of absolute values divided by 512, which are not negative. *)
Theorem bits_required_negative (number : Z) :
  number < 0 ->
  bits_required number = Fault OutOfFuel
  /\ forall (fuel : nat) (r : Z), bits_required_loop fuel number r = Fault OutOfFuel.
Proof.
  intros Hneg.
  assert (forall (fuel : nat) (n r : Z),
             n < 0 -> bits_required_loop fuel n r = Fault OutOfFuel) as H.
  { induction fuel as [| fuel IH]; intros n r Hn; [reflexivity |].
    cbn [bits_required_loop]. pose proof (shiftr_negative n Hn) as Hs.
    destruct (Z.eqb_spec (Z.shiftr n 1) 0); [lia |]. now apply IH. }
  split; [apply H; assumption | intros fuel r; now apply H].
Qed.

(** The number -1, with the fuel of the embedding and with much more. *)
Lemma bits_required_negative_witness :
  bits_required (-1) = Fault OutOfFuel
  /\ bits_required_loop 1000 (-1) 0 = Fault OutOfFuel.
Proof.
  destruct (bits_required_negative (-1) ltac:(lia)) as [H1 H2].
  split; [exact H1 | apply H2].
Defined.

(** * The size of a stream *)

Lemma codewords_bits_lower (k : Z) (xs : list Z) :
  0 <= k -> forall prev, 2 * Z.of_nat (length xs) <= codewords_bits k prev xs.
Proof.
  intros Hk. induction xs as [| x xs IH]; intros prev; cbn [codewords_bits length].
  - lia.
  - specialize (IH x). unfold codeword_bits.
    pose proof (Z.shiftr_nonneg (Z.abs (x - prev)) k) as [_ Hs].
    specialize (Hs ltac:(lia)). lia.
Qed.

Lemma div_add_le (a b c : Z) : 0 < c -> a / c + b / c <= (a + b) / c.
Proof.
  intros Hc. apply Z.div_le_lower_bound; [assumption |].
  pose proof (Z.mul_div_le a c Hc). pose proof (Z.mul_div_le b c Hc). lia.
Qed.

(** The unary parts of a record are at most the sum of the differences
    shifted by the Rice parameter. *)
Lemma codewords_bits_upper (k : Z) (xs : list Z) :
  0 <= k ->
  forall prev,
    codewords_bits k prev xs
    <= (2 + k) * Z.of_nat (length xs) + sum_abs_diff prev xs / 2 ^ k.
Proof.
  intros Hk. induction xs as [| x xs IH]; intros prev;
    cbn [codewords_bits sum_abs_diff length].
  - rewrite Z.div_0_l by (apply Z.pow_nonzero; lia). lia.
  - specialize (IH x). unfold codeword_bits.
    rewrite Z.shiftr_div_pow2 by assumption.
    pose proof (div_add_le (Z.abs (x - prev)) (sum_abs_diff x xs) (2 ^ k)
                  (pow2_pos k Hk)).
    lia.
Qed.

Lemma rice_quotient_small (s : Z) :
  0 <= s -> s / 2 ^ Z.log2 (s / 512) < 1024.
Proof.
  intros Hs. destruct (Z.eq_dec (s / 512) 0) as [E | E].
  - rewrite E. change (2 ^ Z.log2 0) with 1. rewrite Z.div_1_r.
    apply Z.div_small_iff in E; lia.
  - assert (0 < s / 512) as Hpos.
    { pose proof (Z.div_pos s 512 Hs ltac:(lia)). lia. }
    pose proof (Z.log2_spec (s / 512) Hpos) as [_ Hlt].
    set (k := Z.log2 (s / 512)) in *.
    assert (0 <= k) by apply Z.log2_nonneg.
    rewrite Z.pow_succ_r in Hlt by assumption.
    pose proof (pow2_pos k ltac:(assumption)).
    apply Z.div_lt_upper_bound; [lia |].
    pose proof (Z.div_mod s 512 ltac:(lia)).
    pose proof (Z.mod_pos_bound s 512 ltac:(lia)). nia.
Qed.

(** A record takes at least two bits per sample, and at most
    [2 + rice_len] bits per sample and 1023 bits more. *)
Lemma record_bits_bounds (bprl : Z) (xs : list Z) :
  Forall sample_ok xs -> Z.of_nat (length xs) <= 512 ->
  bprl + 2 * Z.of_nat (length xs) <= record_bits bprl xs
  /\ record_bits bprl xs
     <= bprl + (2 + spec_rice_len xs) * Z.of_nat (length xs) + 1023
  /\ 0 <= spec_rice_len xs <= 31.
Proof.
  intros Hxs Hlen. unfold record_bits.
  destruct (spec_rice_len_bound xs Hxs Hlen) as [_ Hk].
  pose proof (codewords_bits_lower (spec_rice_len xs) xs ltac:(lia) 0).
  pose proof (codewords_bits_upper (spec_rice_len xs) xs ltac:(lia) 0) as Hup.
  pose proof (sum_abs_diff_bound xs Hxs 0 ltac:(unfold sample_ok; lia)) as [Hs0 _].
  pose proof (rice_quotient_small (sum_abs_diff 0 xs) Hs0) as Hq.
  unfold spec_rice_len, bit_length, BTW_BLOCK_SIZE in *.
  split; [lia |]. split; [lia | assumption].
Qed.

Section StreamSize.

Variable samples : list Z.
Variable def : btw_def.
Hypothesis Hshape : shape_ok samples def.

Lemma channels_bits_bounds (n : nat) :
  forall i cap bprl chan,
    0 <= bprl -> 0 <= cap <= 512 ->
    Z.of_nat n * (bprl + 2 * cap)
    <= channels_bits samples def n i cap bprl chan
    <= Z.of_nat n * (bprl + 33 * cap + 1023).
Proof.
  pose proof (shape_samples samples def Hshape) as Hsamples.
  induction n as [| n IH]; intros i cap bprl chan Hbprl Hcap; [cbn; lia |].
  cbn [channels_bits]. specialize (IH i cap bprl (chan + 1) Hbprl Hcap).
  set (xs := channel_samples samples def (Z.to_nat cap) i chan 0).
  assert (Z.of_nat (length xs) = cap) as Hl.
  { unfold xs. rewrite channel_samples_length. lia. }
  destruct (record_bits_bounds bprl xs
              ltac:(apply (channel_samples_ok samples def Hsamples)) ltac:(lia))
    as (Hlo & Hhi & Hk).
  rewrite Hl in Hlo, Hhi. nia.
Qed.

(** The number of blocks from frame [i] on. *)
Lemma blocks_bits_bounds (fuel : nat) :
  forall bprl i,
    0 <= bprl -> 0 <= i <= sample_count def ->
    sample_count def - i <= Z.of_nat fuel ->
    channels def * (2 * (sample_count def - i))
    <= blocks_bits samples def fuel bprl i
    <= channels def
       * ((sample_count def - i + 511) / 512 * (bprl + 1023)
          + 33 * (sample_count def - i)).
Proof.
  pose proof Hshape as (Hch & _).
  induction fuel as [| fuel IH]; intros bprl i Hbprl Hi Hfuel.
  - assert (i = sample_count def) as -> by lia. cbn [blocks_bits].
    rewrite Z.sub_diag. change ((0 + 511) / 512) with 0. lia.
  - cbn [blocks_bits]. destruct (Z.ltb_spec i (sample_count def)) as [Hlt | Hge].
    2:{ assert (i = sample_count def) as -> by lia.
        rewrite Z.sub_diag. change ((0 + 511) / 512) with 0. lia. }
    cbv zeta. unfold BTW_BLOCK_SIZE.
    set (cap := Z.min 512 (sample_count def - i)).
    assert (0 < cap <= 512) as Hcap by (unfold cap; lia).
    pose proof (channels_bits_bounds (Z.to_nat (channels def)) i cap bprl 0 Hbprl
                  ltac:(lia)) as Hc.
    rewrite Z2Nat.id in Hc by lia.
    specialize (IH bprl (i + cap) Hbprl ltac:(unfold cap; lia) ltac:(unfold cap; lia)).
    assert ((sample_count def - i + 511) / 512
            = 1 + (sample_count def - (i + cap) + 511) / 512) as Hnb.
    { unfold cap. destruct (Z_lt_ge_dec (sample_count def - i) 512).
      - rewrite Z.min_r by lia.
        replace (sample_count def - (i + (sample_count def - i)) + 511) with 511 by lia.
        change (511 / 512) with 0.
        symmetry. apply Z.div_unique with (r := sample_count def - i - 1); lia.
      - rewrite Z.min_l by lia.
        replace (sample_count def - i + 511)
          with (sample_count def - (i + 512) + 511 + 1 * 512) by lia.
        rewrite Z.div_add by lia. lia. }
    rewrite Hnb.
    set (nb := (sample_count def - (i + cap) + 511) / 512) in *.
    set (B := blocks_bits samples def fuel bprl (i + cap)) in *.
    set (C := channels_bits samples def (Z.to_nat (channels def)) i cap bprl 0) in *.
    nia.
Qed.

End StreamSize.

(** Every sample takes at least two bits of a stream, whatever
    [bits_per_sample] says, and at most 33; every record takes at most
    [bits_per_rice_len + 1023] bits more.  So [btw_encode], called with an
    [out_len] that is not [NULL], writes past its buffer whenever two bits
    per sample and the header exceed it, and stays inside it whenever the
    upper bound does not. *)
Theorem stream_size_bounds (samples : list Z) (def : btw_def) (len0 : Z) :
  shape_ok samples def ->
  160 + 2 * (sample_count def * channels def) <= stream_bits samples def
  /\ stream_bits samples def
     <= 160 + channels def
              * ((sample_count def + 511) / 512
                 * (bit_length (bits_per_sample def) + 1023)
                 + 33 * sample_count def)
  /\ (8 * max_len def < 160 + 2 * (sample_count def * channels def) ->
      btw_encode (Some samples) (Some def) (Some len0) = Fault OutOfBounds)
  /\ (160 + channels def
            * ((sample_count def + 511) / 512
               * (bit_length (bits_per_sample def) + 1023)
               + 33 * sample_count def)
      <= 8 * max_len def ->
      exists buf n,
        btw_encode (Some samples) (Some def) (Some len0) = Ok (buf, n)
        /\ 20 <= n <= max_len def).
Proof.
  intros Hshape. pose proof Hshape as (Hch & Hbps & Hsr & Hsc & _).
  destruct (bits_per_rice_len_ok samples def Hshape) as [_ Hbprl].
  pose proof (blocks_bits_bounds samples def Hshape (Z.to_nat (sample_count def))
                (bit_length (bits_per_sample def)) 0 ltac:(lia) ltac:(lia) ltac:(lia))
    as [Hlo Hhi].
  rewrite Z.sub_0_r in Hlo, Hhi.
  assert (160 + 2 * (sample_count def * channels def) <= stream_bits samples def) as H1
    by (unfold stream_bits, BTW_HEADER_SIZE; lia).
  assert (stream_bits samples def
          <= 160 + channels def
                   * ((sample_count def + 511) / 512
                      * (bit_length (bits_per_sample def) + 1023)
                      + 33 * sample_count def)) as H2
    by (unfold stream_bits, BTW_HEADER_SIZE; lia).
  split; [exact H1 |]. split; [exact H2 |].
  rewrite encode_valid by assumption.
  pose proof (encode_body_spec samples def Hshape) as Hspec.
  split.
  - intros Hsmall. destruct (encode_body samples def) as [[buf n] | f].
    + destruct Hspec as [Hfit _]. lia.
    + destruct Hspec as [-> _]. reflexivity.
  - intros Hbig. destruct (encode_body samples def) as [[buf n] | f].
    + exists buf, n. split; [reflexivity |].
      destruct Hspec as (Hfit & _ & _ & -> & _).
      assert (0 <= sample_count def * channels def) by nia.
      split.
      * apply Z.div_le_lower_bound; lia.
      * assert ((stream_bits samples def + 7) / 8 < max_len def + 1); [| lia].
        apply Z.div_lt_upper_bound; lia.
    + destruct Hspec as [_ Hover]. lia.
Qed.

(** A silent 1-bit stream of 8200 samples does not fit its buffer; a
    silent 32-bit stream of 2048 samples does. *)
Lemma stream_size_bounds_witness :
  btw_encode (Some (replicate (Z.to_nat 8200) 0)) (Some (mk_def 1 1 8000 8200))
    (Some 0)
  = Fault OutOfBounds
  /\ exists buf n,
       btw_encode (Some (replicate (Z.to_nat 2048) 0)) (Some (mk_def 1 32 48000 2048))
         (Some 0)
       = Ok (buf, n)
       /\ 20 <= n <= 9216.
Proof.
  split.
  - destruct (stream_size_bounds (replicate (Z.to_nat 8200) 0) (mk_def 1 1 8000 8200) 0)
      as (_ & _ & H & _).
    + apply (silence_shape (mk_def 1 1 8000 8200)); vm_compute;
        (reflexivity || (split; reflexivity)).
    + apply H. vm_compute. reflexivity.
  - destruct (stream_size_bounds (replicate (Z.to_nat 2048) 0) (mk_def 1 32 48000 2048) 0)
      as (_ & _ & _ & H).
    + apply (silence_shape (mk_def 1 32 48000 2048)); vm_compute;
        (reflexivity || (split; reflexivity)).
    + destruct H as (buf & n & E & Hn); [vm_compute; discriminate |].
      exists buf, n. split; [exact E | exact Hn].
Defined.

(** In every block of every channel the sum of absolute differences stays
    far inside a [long long] (at most 512 terms below [2^32] each), and
    the Rice parameter computed from it lies between 0 and 31. *)
Theorem difference_sum_range (samples : list Z) (def : btw_def) (i chan : Z) :
  shape_ok samples def ->
  0 <= i < sample_count def -> 0 <= chan < channels def ->
  exists av_diff rice_len,
    av_diff_loop samples def (Z.to_nat (Z.min BTW_BLOCK_SIZE (sample_count def - i)))
      i chan 0 0 0 = Ok av_diff
    /\ 0 <= av_diff <= 4294967295 * Z.min BTW_BLOCK_SIZE (sample_count def - i)
    /\ av_diff < 2 ^ 41
    /\ bits_required (Z.quot av_diff BTW_BLOCK_SIZE) = Ok rice_len
    /\ 0 <= rice_len <= 31.
Proof.
  intros Hshape Hi Hchan.
  pose proof (shape_samples samples def Hshape) as Hsamples.
  set (cap := Z.min BTW_BLOCK_SIZE (sample_count def - i)).
  assert (0 < cap <= 512) as Hcap by (unfold cap, BTW_BLOCK_SIZE; lia).
  set (xs := channel_samples samples def (Z.to_nat cap) i chan 0).
  assert (Forall sample_ok xs) as Hxs by apply (channel_samples_ok samples def Hsamples).
  assert (Z.of_nat (length xs) = cap) as Hl
    by (unfold xs; rewrite channel_samples_length; lia).
  pose proof (sum_abs_diff_bound xs Hxs 0 ltac:(unfold sample_ok; lia)) as Hsum.
  rewrite Hl in Hsum.
  destruct (spec_rice_len_bound xs Hxs ltac:(lia)) as [Hq Hk].
  exists (sum_abs_diff 0 xs), (spec_rice_len xs).
  split.
  { rewrite av_diff_loop_spec
      by (apply (block_readable samples def Hshape); unfold cap, BTW_BLOCK_SIZE in *; lia).
    reflexivity. }
  split; [exact Hsum |].
  split; [change (2 ^ 41) with 2199023255552; lia |].
  split; [| exact Hk].
  unfold BTW_BLOCK_SIZE. rewrite Z.quot_div_nonneg by lia.
  apply bits_required_log2. change (2 ^ 32) with 4294967296 in Hq.
  change (2 ^ 63) with 9223372036854775808. lia.
Qed.

(** Two 32-bit samples at the ends of their range. *)
Lemma difference_sum_range_witness :
  exists av_diff rice_len,
    av_diff_loop [2147483647; -2147483648] (mk_def 1 32 48000 2) 2 0 0 0 0 0 = Ok av_diff
    /\ av_diff < 2 ^ 41
    /\ bits_required (Z.quot av_diff BTW_BLOCK_SIZE) = Ok rice_len
    /\ 0 <= rice_len <= 31.
Proof.
  destruct (difference_sum_range [2147483647; -2147483648] (mk_def 1 32 48000 2) 0 0)
    as (av & k & E & _ & H41 & Hk & Hr).
  - apply shape_intro; vm_compute; reflexivity.
  - cbn; lia.
  - cbn; lia.
  - exists av, k. split; [exact E |]. split; [exact H41 |]. split; [exact Hk | exact Hr].
Defined.

(** * The bytes of an encoded stream *)

(** A field of the header, byte by byte. *)
Lemma field_byte (H v a w : Z) (k : nat) :
  0 <= a -> 8 * Z.of_nat k + 8 <= w ->
  (H / 2 ^ a) mod 2 ^ w = v mod 2 ^ w ->
  (H / 2 ^ (a + 8 * Z.of_nat k)) mod 256 = (v / 2 ^ (8 * Z.of_nat k)) mod 256.
Proof.
  intros Ha Hk E. change 256 with (2 ^ 8).
  rewrite div_pow2_add by lia.
  rewrite (field_of_prefix (H / 2 ^ a) (8 * Z.of_nat k) 8 w) by lia.
  rewrite (field_of_prefix v (8 * Z.of_nat k) 8 w) by lia.
  now rewrite E.
Qed.

Section EncodedBytes.

Variable samples : list Z.
Variable def : btw_def.
Variable buf : list Z.
Variable n len0 : Z.
Hypothesis Hshape : shape_ok samples def.
Hypothesis Henc : btw_encode (Some samples) (Some def) (Some len0) = Ok (buf, n).

Lemma encoded_facts :
  stream_bits samples def <= 8 * max_len def
  /\ bytes_ok buf /\ Z.of_nat (length buf) = max_len def
  /\ n = (stream_bits samples def + 7) / 8
  /\ 0 <= le_combine buf < 2 ^ stream_bits samples def
  /\ le_combine buf mod 2 ^ 160 = header_value def.
Proof.
  pose proof (encode_body_spec samples def Hshape) as H.
  rewrite encode_valid in Henc by assumption. rewrite Henc in H. exact H.
Qed.

Lemma header_byte (k : nat) :
  (k < 20)%nat ->
  buf !! k = Some ((header_value def / 2 ^ (8 * Z.of_nat k)) mod 256).
Proof.
  intros Hk. destruct encoded_facts as (_ & Hb & Hl & _ & _ & Hh).
  pose proof (max_len_range def) as Hmax.
  destruct (lookup_lt_is_Some_2 buf k ltac:(lia)) as [b E]. rewrite E. f_equal.
  rewrite (le_combine_lookup buf Hb k b E). change 256 with (2 ^ 8).
  rewrite (field_of_prefix _ (8 * Z.of_nat k) 8 160) by lia. now rewrite Hh.
Qed.

End EncodedBytes.

(** The bytes [btw_encode] returns: the magic 'b', 't', 'w', 'f', then
    [sample_count] in 8 bytes, [channels] and [bits_per_sample] in 2 bytes
    each and [sample_rate] in 4, every field with its least significant
    byte first; the count returned is at least the 20 bytes of the header
    and at most the buffer, and every byte of the buffer from that count
    on is zero. *)
Theorem encoded_bytes (samples : list Z) (def : btw_def) (buf : list Z) (n len0 : Z) :
  shape_ok samples def ->
  btw_encode (Some samples) (Some def) (Some len0) = Ok (buf, n) ->
  take 4 buf = [98; 116; 119; 102]
  /\ (forall k : nat, (k < 8)%nat ->
        buf !! (4 + k)%nat = Some ((sample_count def / 2 ^ (8 * Z.of_nat k)) mod 256))
  /\ (forall k : nat, (k < 2)%nat ->
        buf !! (12 + k)%nat = Some ((channels def / 2 ^ (8 * Z.of_nat k)) mod 256))
  /\ (forall k : nat, (k < 2)%nat ->
        buf !! (14 + k)%nat
        = Some ((bits_per_sample def / 2 ^ (8 * Z.of_nat k)) mod 256))
  /\ (forall k : nat, (k < 4)%nat ->
        buf !! (16 + k)%nat = Some ((sample_rate def / 2 ^ (8 * Z.of_nat k)) mod 256))
  /\ 20 <= n <= Z.of_nat (length buf)
  /\ (forall k : nat, n <= Z.of_nat k -> (k < length buf)%nat -> buf !! k = Some 0).
Proof.
  intros Hshape Henc.
  destruct (encoded_facts samples def buf n len0 Hshape Henc)
    as (Hfit & Hb & Hl & Hn & Hle & Hh).
  pose proof Hshape as (Hch & Hbps & Hsr & Hsc & _).
  pose proof (max_len_range def) as Hmax.
  destruct (header_fields def ltac:(lia)) as (_ & Hmagic & Fsc & Fch & Fbps & Fsr).
  pose proof (header_byte samples def buf n len0 Hshape Henc) as HB.
  assert (forall (a w v : Z) (k : nat) (j : nat),
             0 <= a -> 8 * Z.of_nat k + 8 <= w -> a + w <= 160 ->
             (header_value def / 2 ^ a) mod 2 ^ w = v mod 2 ^ w ->
             Z.of_nat j = a / 8 + Z.of_nat k -> a mod 8 = 0 ->
             buf !! j = Some ((v / 2 ^ (8 * Z.of_nat k)) mod 256)) as Field.
  { intros a w v k j Ha Hk Haw E Hj Ha8.
    rewrite HB by (pose proof (Z.div_mod a 8 ltac:(lia)); lia). f_equal.
    rewrite <- (field_byte (header_value def) v a w k Ha Hk E).
    do 3 f_equal. pose proof (Z.div_mod a 8 ltac:(lia)). lia. }
  split; [| split; [| split; [| split; [| split; [| split]]]]].
  - assert (forall k : nat, (k < 4)%nat ->
               buf !! k = Some ((BTW_MAGIC / 2 ^ (8 * Z.of_nat k)) mod 256)) as Hm.
    { intros k Hk.
      assert ((header_value def / 2 ^ 0) mod 2 ^ 32 = BTW_MAGIC mod 2 ^ 32) as E.
      { change (2 ^ 0) with 1. rewrite Z.div_1_r, Hmagic. reflexivity. }
      exact (Field 0 32 BTW_MAGIC k k ltac:(lia) ltac:(lia) ltac:(lia) E
               ltac:(change (0 / 8) with 0; lia) eq_refl). }
    pose proof (Hm 0%nat ltac:(lia)) as H0. pose proof (Hm 1%nat ltac:(lia)) as H1.
    pose proof (Hm 2%nat ltac:(lia)) as H2. pose proof (Hm 3%nat ltac:(lia)) as H3.
    destruct buf as [| b0 [| b1 [| b2 [| b3 rest]]]]; try discriminate.
    cbn in H0, H1, H2, H3. cbn [take].
    injection H0 as ->. injection H1 as ->. injection H2 as ->. injection H3 as ->.
    reflexivity.
  - intros k Hk.
    assert ((header_value def / 2 ^ 32) mod 2 ^ 64 = sample_count def mod 2 ^ 64) as E.
    { rewrite Fsc. symmetry. apply Z.mod_small. lia. }
    exact (Field 32 64 (sample_count def) k (4 + k)%nat ltac:(lia) ltac:(lia) ltac:(lia) E
             ltac:(change (32 / 8) with 4; lia) eq_refl).
  - intros k Hk.
    exact (Field 96 16 (channels def) k (12 + k)%nat ltac:(lia) ltac:(lia) ltac:(lia) Fch
             ltac:(change (96 / 8) with 12; lia) eq_refl).
  - intros k Hk.
    exact (Field 112 16 (bits_per_sample def) k (14 + k)%nat ltac:(lia) ltac:(lia)
             ltac:(lia) Fbps ltac:(change (112 / 8) with 14; lia) eq_refl).
  - intros k Hk.
    exact (Field 128 32 (sample_rate def) k (16 + k)%nat ltac:(lia) ltac:(lia) ltac:(lia)
             Fsr ltac:(change (128 / 8) with 16; lia) eq_refl).
  - pose proof (bits_per_rice_len_ok samples def Hshape) as [_ Hbprl].
    pose proof (blocks_bits_nonneg samples def Hshape (Z.to_nat (sample_count def))
                  (bit_length (bits_per_sample def)) ltac:(lia) 0) as Hlo.
    assert (160 <= stream_bits samples def)
      by (unfold stream_bits, BTW_HEADER_SIZE; lia).
    rewrite Hn, Hl. split.
    + apply Z.div_le_lower_bound; lia.
    + assert ((stream_bits samples def + 7) / 8 < max_len def + 1); [| lia].
      apply Z.div_lt_upper_bound; lia.
  - intros k Hk Hlen.
    rewrite <- (Nat2Z.id k). apply lookup_zero_at_cursor; [assumption | lia |].
    assert (stream_bits samples def <= 8 * n).
    { rewrite Hn. pose proof (Z.div_mod (stream_bits samples def + 7) 8 ltac:(lia)).
      pose proof (Z.mod_pos_bound (stream_bits samples def + 7) 8 ltac:(lia)). lia. }
    assert (2 ^ stream_bits samples def <= 2 ^ (8 * Z.of_nat k))
      by (apply Z.pow_le_mono_r; lia).
    lia.
Qed.

(** Three stereo frames of 16 bits at 44100 Hz: 3 in bytes 4 to 11, 2 in
    bytes 12 and 13, 16 in bytes 14 and 15, and 44100 = 68 + 256 * 172 in
    bytes 16 to 19; 24 bytes are returned and byte 1000 is zero. *)
Lemma encoded_bytes_witness :
  let samples := [1; -1; 2; -2; 3; -3] in
  let def := mk_def 2 16 44100 3 in
  exists buf,
    btw_encode (Some samples) (Some def) (Some 0) = Ok (buf, 24)
    /\ take 4 buf = [98; 116; 119; 102]
    /\ buf !! 4%nat = Some 3 /\ buf !! 5%nat = Some 0
    /\ buf !! 12%nat = Some 2 /\ buf !! 14%nat = Some 16
    /\ buf !! 16%nat = Some 68 /\ buf !! 17%nat = Some 172
    /\ buf !! 1000%nat = Some 0.
Proof.
  intros samples def.
  assert (exists buf,
             btw_encode (Some samples) (Some def) (Some 0) = Ok (buf, 24)
             /\ length buf = 1036%nat)
    as (buf & E & Hl) by (vm_compute; eexists; split; reflexivity).
  assert (shape_ok samples def) as Hshape by (apply shape_intro; vm_compute; reflexivity).
  destruct (encoded_bytes samples def buf 24 0 Hshape E)
    as (Hmagic & Hsc & Hch & Hbps & Hsr & _ & Hzero).
  exists buf. split; [exact E |]. split; [exact Hmagic |].
  split; [exact (Hsc 0%nat ltac:(lia)) |]. split; [exact (Hsc 1%nat ltac:(lia)) |].
  split; [exact (Hch 0%nat ltac:(lia)) |]. split; [exact (Hbps 0%nat ltac:(lia)) |].
  split; [exact (Hsr 0%nat ltac:(lia)) |]. split; [exact (Hsr 1%nat ltac:(lia)) |].
  apply Hzero; lia.
Defined.

(** * Streams of several blocks that end on byte boundaries *)

Lemma encode_blocks_done (samples : list Z) (def : btw_def) (fuel : nat)
    (bprl i : Z) (buf : list Z) (c : cursor) :
  sample_count def <= i ->
  encode_blocks samples def fuel bprl i buf c = Ok (buf, c).
Proof.
  intros Hi. destruct fuel; cbn [encode_blocks];
    (destruct (Z.ltb_spec i (sample_count def)); [lia | reflexivity]).
Qed.

Lemma decode_blocks_done (fmt : sample_fmt) (data : list Z) (def : btw_def)
    (fuel : nat) (bprl i : Z) (c : cursor) (out : list (option Z)) (olen : Z) :
  sample_count def <= i ->
  decode_blocks fmt data def fuel bprl i c out olen = Ok (c, out, olen).
Proof.
  intros Hi. destruct fuel; cbn [decode_blocks];
    (destruct (Z.ltb_spec i (sample_count def)); [lia | reflexivity]).
Qed.

(** A cursor on a byte boundary is left where it is by the decoder's move
    to the next byte. *)
Lemma aligned_cursor (c : cursor) :
  cursor_ok c -> cbits c mod 8 = 0 ->
  mk_cursor (c_pos c + b2z (negb (c_bit c =? 0))) 0 = c.
Proof.
  destruct c as [p b]. unfold cursor_ok, cbits. cbn [c_pos c_bit].
  intros [Hp Hb] Hm.
  assert (b = 0) as ->.
  { rewrite Z.add_comm, Z.mul_comm, Z.mod_add in Hm by lia.
    rewrite Z.mod_small in Hm by lia. exact Hm. }
  cbn. now rewrite Z.add_0_r.
Qed.

Section AlignedBlocks.

Variable fmt : sample_fmt.
Variable samples : list Z.
Variable def : btw_def.
Variable data : list Z.
Hypothesis Hshape : shape_ok samples def.
Hypothesis Hfmt : Forall (in_fmt fmt) samples.
Hypothesis Hrice :
  forall i chan,
    0 <= i < sample_count def -> i mod BTW_BLOCK_SIZE = 0 ->
    0 <= chan < channels def ->
    rice_fits samples def i (Z.min BTW_BLOCK_SIZE (sample_count def - i)) chan.
Hypothesis Haligned :
  forall i,
    0 <= i -> i mod BTW_BLOCK_SIZE = 0 -> i + BTW_BLOCK_SIZE < sample_count def ->
    channels_bits samples def (Z.to_nat (channels def)) i BTW_BLOCK_SIZE
      (bit_length (bits_per_sample def)) 0 mod 8 = 0.

Lemma decode_blocks_pair (fuel : nat) :
  forall i buf c buf' c' out,
    wf_w buf c -> 0 <= i <= sample_count def -> i mod BTW_BLOCK_SIZE = 0 ->
    sample_count def - i <= Z.of_nat fuel ->
    cbits c mod 8 = 0 ->
    encode_blocks samples def fuel (bit_length (bits_per_sample def)) i buf c
    = Ok (buf', c') ->
    extends data buf' c' ->
    length out = length samples ->
    exists cd out',
      decode_blocks fmt data def fuel (bit_length (bits_per_sample def)) i c out
        (i * channels def)
      = Ok (cd, out', sample_count def * channels def)
      /\ length out' = length out
      /\ (forall ch' l, 0 <= ch' < channels def -> i <= l < sample_count def ->
            out' !! Z.to_nat (l * channels def + ch')
            = Some (Some (sample_val samples def 0 l ch')))
      /\ (forall ch' l, 0 <= ch' < channels def -> 0 <= l < i ->
            out' !! Z.to_nat (l * channels def + ch')
            = out !! Z.to_nat (l * channels def + ch'))
      /\ (i < sample_count def -> cd = mk_cursor ((cbits c' + 7) / 8) 0).
Proof.
  pose proof Hshape as (Hch & Hbps & Hsr & Hsc & Hlen & Hprod & Hsamples).
  destruct (bits_per_rice_len_ok samples def Hshape) as [_ Hbprl].
  set (bprl := bit_length (bits_per_sample def)) in *.
  unfold BTW_BLOCK_SIZE in *.
  induction fuel as [| fuel IH];
    intros i buf c buf' c' out Hwf Hi Himod Hfuel Hcm Henc Hext Hout.
  - assert (i = sample_count def) as -> by lia.
    rewrite decode_blocks_done by lia.
    exists c, out. split; [reflexivity |]. split; [reflexivity |].
    split; [intros; lia |]. split; [intros; reflexivity | lia].
  - destruct (Z.eq_dec i (sample_count def)) as [-> | Hne].
    { rewrite decode_blocks_done by lia.
      exists c, out. split; [reflexivity |]. split; [reflexivity |].
      split; [intros; lia |]. split; [intros; reflexivity | lia]. }
    cbn [encode_blocks decode_blocks] in *.
    destruct (Z.ltb_spec i (sample_count def)) as [Hlt | ?]; [| lia].
    cbv zeta in *. unfold BTW_BLOCK_SIZE in *.
    set (cap := Z.min 512 (sample_count def - i)).
    assert ((if sample_count def - i <? 512
             then wrap_u 32 (sample_count def - i) else 512) = cap) as Ecap.
    { unfold cap. destruct (Z.ltb_spec (sample_count def - i) 512).
      - rewrite wrap_u_small by (change (2 ^ 32) with 4294967296; lia). lia.
      - lia. }
    assert ((if sample_count def - i <? 512 then sample_count def - i else 512) = cap)
      as Dcap.
    { unfold cap. destruct (Z.ltb_spec (sample_count def - i) 512); lia. }
    rewrite Ecap in Henc. rewrite Dcap.
    assert (0 < cap <= 512) as Hcap by (unfold cap; lia).
    assert (i + cap <= sample_count def) as Hle by (unfold cap; lia).
    pose proof (encode_channels_spec samples def Hsamples (Z.to_nat (channels def)) i
                  cap bprl 0 buf c Hwf ltac:(lia) ltac:(lia)) as W1.
    specialize (W1 ltac:(intros ch' Hch'; apply (block_readable samples def Hshape);
                         lia)).
    destruct (encode_channels samples def (Z.to_nat (channels def)) i cap bprl 0 buf c)
      as [[buf1 c1] | f] eqn:E1; unbind; [| discriminate].
    pose proof W1 as (_ & Hwf1 & Hl1 & Hc1 & _).
    pose proof (encode_blocks_spec samples def Hshape fuel bprl (i + cap) buf1 c1 Hwf1
                  ltac:(lia) ltac:(lia) ltac:(lia)) as W2.
    rewrite Henc in W2.
    pose proof (blocks_bits_nonneg samples def Hshape fuel bprl ltac:(lia) (i + cap))
      as HB2.
    pose proof (extends_back data buf1 buf' c1 c' _ Hwf1 HB2 W2 Hext) as Hext1.
    assert (0 <= sample_count def * channels def) by nia.
    assert (0 <= i * channels def) by nia.
    assert ((i + cap) * channels def <= sample_count def * channels def) by nia.
    destruct (decode_channels_pair fmt samples def data Hshape Hfmt i cap bprl
                ltac:(lia) Hcap Hle eq_refl
                (Z.to_nat (channels def)) 0 buf c buf1 c1 out (i * channels def)
                Hwf ltac:(lia) ltac:(lia))
      as (out1 & D & Hlo1 & Hset & Hkeep); try assumption; try lia.
    { intros ch' Hch'. apply Hrice; lia. }
    unfold decode_block. rewrite D. unbind.
    rewrite Z2Nat.id in * by lia.
    replace (i * channels def + channels def * cap) with ((i + cap) * channels def)
      by lia.
    assert (forall ch' l, 0 <= ch' < channels def -> i <= l < i + cap ->
               out1 !! Z.to_nat (l * channels def + ch')
               = Some (Some (sample_val samples def 0 l ch'))) as Hblock.
    { intros ch' l Hch' Hl.
      specialize (Hset ch' (l - i) ltac:(lia) ltac:(lia)).
      replace (i + (l - i)) with l in Hset by lia. rewrite Hset.
      unfold sample_val. rewrite (sample_index_frame def i (l - i) ch').
      replace (i + (l - i)) with l by lia. reflexivity. }
    assert (forall ch' l, 0 <= ch' < channels def -> 0 <= l < i ->
               out1 !! Z.to_nat (l * channels def + ch')
               = out !! Z.to_nat (l * channels def + ch')) as Hbefore.
    { intros ch' l Hch' Hl. apply Hkeep. intros ch2 l2 Hch2 Hl2 E.
      apply index_inj in E; lia. }
    destruct (Z.eq_dec (i + cap) (sample_count def)) as [Elast | Hmore].
    + (* the last block *)
      rewrite decode_blocks_done by lia.
      rewrite encode_blocks_done in Henc by lia. injection Henc as <- <-.
      eexists _, out1. split; [rewrite Elast; reflexivity |].
      split; [assumption |]. split; [| split; [assumption |]].
      * intros ch' l Hch' Hl. apply Hblock; lia.
      * intros _. rewrite <- (ceil8 c1) by apply Hwf1.
        destruct (c_bit c1 =? 0); cbn [negb b2z]; [rewrite Z.add_0_r |]; reflexivity.
    + (* a full block that ends on a byte boundary *)
      assert (cap = 512) as Ecap512 by (unfold cap in *; lia).
      assert (cbits c1 mod 8 = 0) as Hcm1.
      { rewrite Hc1, <- Z.add_mod_idemp_l, Hcm, Z.add_0_l by lia.
        rewrite Ecap512. apply Haligned; lia. }
      rewrite aligned_cursor by (assumption || apply Hwf1).
      destruct (IH (i + cap) buf1 c1 buf' c' out1 Hwf1 ltac:(lia)) as
        (cd & out' & D' & Hlo' & Hset' & Hkeep' & Hcd'); try assumption; try lia.
      { rewrite Ecap512, <- Z.add_mod_idemp_l, Himod by lia. reflexivity. }
      exists cd, out'. split; [exact D' |]. split; [congruence |].
      split; [| split].
      * intros ch' l Hch' Hl.
        destruct (Z.lt_ge_cases l (i + cap)).
        -- rewrite Hkeep' by lia. apply Hblock; lia.
        -- apply Hset'; lia.
      * intros ch' l Hch' Hl. rewrite Hkeep' by lia. apply Hbefore; lia.
      * intros _. apply Hcd'. lia.
Qed.

End AlignedBlocks.

(** The encoder's run: the header, then the blocks. *)
Lemma encode_run (samples : list Z) (def : btw_def) :
  shape_ok samples def ->
  stream_bits samples def <= 8 * max_len def ->
  exists b5 buf c,
    wf_w b5 (mk_cursor 20 0) /\ le_combine b5 = header_value def
    /\ encode_blocks samples def (Z.to_nat (sample_count def))
         (bit_length (bits_per_sample def)) 0 b5 (mk_cursor 20 0)
       = Ok (buf, c)
    /\ wf_w buf c
    /\ cbits c = stream_bits samples def
    /\ encode_body samples def = Ok (buf, (cbits c + 7) / 8).
Proof.
  intros Hshape Hfits.
  pose proof Hshape as (Hch & Hbps & Hsr & Hsc & Hlen & Hprod & Hsamples).
  pose proof (max_len_range def) as Hmax.
  unfold encode_body.
  destruct (bits_per_rice_len_ok samples def Hshape) as [-> Hbprl].
  unfold stream_bits, BTW_HEADER_SIZE in *.
  set (bprl := bit_length (bits_per_sample def)) in *.
  unbind.
  destruct (put_header_spec def (Z.to_nat (max_len def)) ltac:(lia) ltac:(lia))
    as (b5 & -> & Hwf5 & Hl5 & HS5).
  unbind. cbn [c_pos].
  pose proof (encode_blocks_spec samples def Hshape (Z.to_nat (sample_count def)) bprl 0
                b5 (mk_cursor 20 0) Hwf5 ltac:(lia) ltac:(lia) ltac:(lia)) as W.
  destruct (encode_blocks samples def (Z.to_nat (sample_count def)) bprl 0 b5
              (mk_cursor 20 0)) as [[buf c] | f] eqn:E.
  2:{ destruct W as [_ W]. rewrite Hl5 in W.
      change (cbits (mk_cursor 20 0)) with 160 in W. lia. }
  destruct W as (_ & Hwf & _ & Hc & _).
  change (cbits (mk_cursor 20 0)) with 160 in Hc.
  exists b5, buf, c.
  split; [assumption |]. split; [assumption |]. split; [exact E |].
  split; [assumption |]. split; [rewrite Hc; reflexivity |].
  unbind. rewrite ceil8 by apply Hwf. reflexivity.
Qed.

(** The buffer [btw_decode] allocates has one element per sample when the
    size in bytes is a [size_t]. *)
Lemma decode_alloc_exact (fmt : sample_fmt) (samples : list Z) (def : btw_def) :
  shape_ok samples def -> sample_count def * channels def < 2 ^ 62 ->
  decode_alloc fmt def = replicate (length samples) None.
Proof.
  intros (Hch & _ & _ & Hsc & Hlen & _) Hsmall.
  pose proof (fmt_size_pos fmt) as Hsz.
  unfold decode_alloc.
  assert (0 <= sample_count def * channels def) as Hp by nia.
  change (2 ^ 62) with 4611686018427387904 in Hsmall.
  rewrite (wrap_u_small 64 (sample_count def * channels def))
    by (change (2 ^ 64) with 18446744073709551616; lia).
  rewrite wrap_u_small by (change (2 ^ 64) with 18446744073709551616; nia).
  rewrite Z.div_mul by lia. rewrite <- Hlen. now rewrite Nat2Z.id.
Qed.

(** A stream of any number of blocks decodes to the samples and parameters
    it was encoded from, on the bytes [btw_encode] returns as on any longer
    prefix of its buffer, when every block but the last ends on a byte
    boundary (the records of its channels take a multiple of 8 bits), the
    parameters fit their header fields ([channels] and [bits_per_sample]
    below [2^16], [sample_rate] and [sample_count] below [2^31]), the Rice
    parameter of every channel of every block can be written in the bits
    the format gives it, the stream fits the encoder's buffer and
    [out_len] is not [NULL]. *)
Theorem aligned_blocks_roundtrip (fmt : sample_fmt) (samples : list Z)
    (def : btw_def) (len0 : Z) :
  shape_ok samples def -> Forall (in_fmt fmt) samples ->
  channels def < 2 ^ 16 -> bits_per_sample def < 2 ^ 16 ->
  sample_rate def < 2 ^ 31 -> sample_count def < 2 ^ 31 ->
  (forall i chan,
      0 <= i < sample_count def -> i mod BTW_BLOCK_SIZE = 0 ->
      0 <= chan < channels def ->
      rice_fits samples def i (Z.min BTW_BLOCK_SIZE (sample_count def - i)) chan) ->
  (forall i,
      0 <= i -> i mod BTW_BLOCK_SIZE = 0 -> i + BTW_BLOCK_SIZE < sample_count def ->
      channels_bits samples def (Z.to_nat (channels def)) i BTW_BLOCK_SIZE
        (bit_length (bits_per_sample def)) 0 mod 8 = 0) ->
  stream_bits samples def <= 8 * max_len def ->
  exists buf n,
    btw_encode (Some samples) (Some def) (Some len0) = Ok (buf, n)
    /\ n = (stream_bits samples def + 7) / 8
    /\ forall (m : nat) d0,
         n <= Z.of_nat m ->
         btw_decode fmt (Some (take m buf)) (Some d0)
         = Ok (Some def, Some (Some <$> samples, sample_count def * channels def)).
Proof.
  intros Hshape Hfmt Hch16 Hbps16 Hsr31 Hsc31 Hrice Haligned Hfits.
  pose proof Hshape as (Hch & Hbps & Hsr & Hsc & Hlen & Hprod & Hsamples).
  destruct (encode_run samples def Hshape Hfits)
    as (b5 & buf & c & Hwf5 & HS5 & Henc & Hwf & Hc & E).
  exists buf, ((cbits c + 7) / 8). rewrite encode_valid by assumption.
  split; [exact E |]. split; [now rewrite Hc |].
  intros m d0 Hm.
  destruct (take_extends buf c m Hwf Hm) as [Hext _].
  set (data := take m buf) in *.
  destruct (bits_per_rice_len_ok samples def Hshape) as [Ebprl Hbprl].
  pose proof (encode_blocks_spec samples def Hshape (Z.to_nat (sample_count def))
                (bit_length (bits_per_sample def)) 0 b5 (mk_cursor 20 0) Hwf5
                ltac:(lia) ltac:(lia) ltac:(lia)) as W.
  rewrite Henc in W.
  pose proof (blocks_bits_nonneg samples def Hshape (Z.to_nat (sample_count def))
                (bit_length (bits_per_sample def)) ltac:(lia) 0) as HB.
  pose proof (extends_back data b5 buf (mk_cursor 20 0) c _ Hwf5 HB W Hext)
    as (Hdata & Hlen5 & Hhead).
  change (cbits (mk_cursor 20 0)) with 160 in Hlen5, Hhead. rewrite HS5 in Hhead.
  (* the header *)
  unfold btw_decode.
  rewrite (read_metadata_stream data def Hdata ltac:(lia) Hhead ltac:(lia) d0 ltac:(lia))
    by (rewrite Z.mod_small by (change (2 ^ 32) with 4294967296;
                                change (2 ^ 31) with 2147483648 in *; lia);
        assumption).
  rewrite !Z.mod_small by (change (2 ^ 32) with 4294967296;
                           change (2 ^ 31) with 2147483648 in *; lia).
  rewrite def_eta. unbind.
  rewrite fields_nonzero by lia.
  (* the blocks *)
  unfold decode_body.
  rewrite (decode_alloc_exact fmt samples def Hshape)
    by (change (2 ^ 16) with 65536 in *; change (2 ^ 31) with 2147483648 in *;
        change (2 ^ 62) with 4611686018427387904; nia).
  rewrite Ebprl. unbind.
  destruct (decode_blocks_pair fmt samples def data Hshape Hfmt Hrice Haligned
              (Z.to_nat (sample_count def)) 0 b5 (mk_cursor 20 0) buf c
              (replicate (length samples) None) Hwf5 ltac:(lia) eq_refl ltac:(lia)
              eq_refl Henc Hext ltac:(apply length_replicate))
    as (cd & out' & D & Hl' & Hset & _).
  change (0 * channels def) with 0 in D. rewrite D. unbind.
  assert (out' = Some <$> samples) as ->; [| reflexivity].
  rewrite length_replicate in Hl'.
  apply list_eq. intros idx. rewrite list_lookup_fmap.
  destruct (Nat.lt_ge_cases idx (length samples)) as [Hlt | Hge].
  - destruct (lookup_lt_is_Some_2 samples idx Hlt) as [x Ex]. rewrite Ex. cbn.
    set (l := Z.of_nat idx / channels def).
    set (chan := Z.of_nat idx mod channels def).
    assert (Z.of_nat idx = l * channels def + chan) as Eidx.
    { unfold l, chan.
      pose proof (Z.div_mod (Z.of_nat idx) (channels def) ltac:(lia)). lia. }
    pose proof (Z.mod_pos_bound (Z.of_nat idx) (channels def) ltac:(lia)) as Hchan.
    fold chan in Hchan.
    assert (0 <= l < sample_count def) as Hl.
    { unfold l. split; [apply Z.div_pos; lia |].
      apply Z.div_lt_upper_bound; lia. }
    specialize (Hset chan l Hchan Hl).
    replace (Z.to_nat (l * channels def + chan)) with idx in Hset by lia.
    rewrite Hset. do 2 f_equal. unfold sample_val.
    destruct (sample_index_small samples def Hshape 0 l chan ltac:(lia) ltac:(lia)
                ltac:(lia) Hchan) as [-> _].
    replace (Z.to_nat ((0 + l) * channels def + chan)) with idx by lia.
    now rewrite Ex.
  - rewrite (lookup_ge_None_2 samples idx Hge). cbn.
    apply lookup_ge_None_2. lia.
Qed.

(** Two channels of 513 frames: the first block, all zero, takes
    [2 * (4 + 2 * 512) = 2056] bits and ends on a byte boundary. *)
Lemma aligned_blocks_roundtrip_witness :
  let samples := replicate 1024 0 ++ [5; -3] in
  let def := mk_def 2 16 44100 513 in
  exists buf n,
    btw_encode (Some samples) (Some def) (Some 0) = Ok (buf, n)
    /\ btw_decode BTW_S16 (Some (take (Z.to_nat n) buf)) (Some (mk_def 0 0 0 0))
       = Ok (Some def, Some (Some <$> samples, 1026)).
Proof.
  intros samples def.
  destruct (aligned_blocks_roundtrip BTW_S16 samples def 0) as (buf & n & E & Hn & D).
  - apply shape_intro; vm_compute; reflexivity.
  - apply fmt_intro; vm_compute; reflexivity.
  - vm_compute; reflexivity.
  - vm_compute; reflexivity.
  - vm_compute; reflexivity.
  - vm_compute; reflexivity.
  - intros i chan Hi Himod Hchan. unfold BTW_BLOCK_SIZE in *.
    assert (i = 0 \/ i = 512) as Ei.
    { cbn in Hi. pose proof (Z.div_mod i 512 ltac:(lia)). lia. }
    assert (chan = 0 \/ chan = 1) as Ec by (cbn in Hchan; lia).
    destruct Ei as [-> | ->], Ec as [-> | ->];
      apply rice_fits_intro; vm_compute; reflexivity.
  - intros i Hi Himod Hlt. unfold BTW_BLOCK_SIZE in *.
    assert (i = 0) as -> by (cbn in Hlt; pose proof (Z.div_mod i 512 ltac:(lia)); lia).
    vm_compute. reflexivity.
  - vm_compute; discriminate.
  - exists buf, n. split; [exact E |]. apply D.
    rewrite Hn. vm_compute. discriminate.
Defined.

(** * Bytes after the stream *)

Section Trailing.

Variable data rest : list Z.

Lemma load_app (pos b : Z) :
  load data pos = Ok b -> load (data ++ rest) pos = Ok b.
Proof.
  unfold load. destruct (pos <? 0); [discriminate |].
  destruct (data !! Z.to_nat pos) as [x |] eqn:E; [| discriminate].
  intros H. now rewrite (lookup_app_l_Some _ _ _ _ E).
Qed.

Lemma grab_bit_app (c : cursor) (v : Z * cursor) :
  grab_bit data c = Ok v -> grab_bit (data ++ rest) c = Ok v.
Proof.
  unfold grab_bit. destruct (load data (c_pos c)) as [b | f] eqn:E; unbind;
    [| discriminate].
  rewrite (load_app _ _ E). unbind. auto.
Qed.

Lemma grab_number_loop_app (fuel : nat) :
  forall fuel' in_pos bits tally r v,
    (fuel <= fuel')%nat ->
    grab_number_loop fuel data in_pos bits tally r = Ok v ->
    grab_number_loop fuel' (data ++ rest) in_pos bits tally r = Ok v.
Proof.
  induction fuel as [| fuel IH]; intros fuel' in_pos bits tally r v Hle H.
  - cbn [grab_number_loop] in H. destruct (8 <=? bits) eqn:E; [discriminate |].
    destruct fuel'; cbn [grab_number_loop]; rewrite E; exact H.
  - destruct fuel' as [| fuel']; [lia |].
    cbn [grab_number_loop] in *. destruct (8 <=? bits); [| exact H].
    destruct (load data in_pos) as [b | f] eqn:E; unbind; [| discriminate].
    rewrite (load_app _ _ E). unbind. apply IH; [lia | exact H].
Qed.

Lemma grab_number_app (c : cursor) (bits : Z) (v : Z * cursor) :
  grab_number data c bits = Ok v -> grab_number (data ++ rest) c bits = Ok v.
Proof.
  unfold grab_number. intros H.
  destruct (8 - c_bit c <? bits).
  - destruct (load data (c_pos c)) as [b | f] eqn:E; unbind; [| discriminate].
    rewrite (load_app _ _ E). unbind.
    destruct (grab_number_loop (S (length data)) data (c_pos c + 1)
                (bits - (8 - c_bit c)) (8 - c_bit c) (Z.shiftr b (c_bit c)))
      as [[[[p b'] t] r] | f] eqn:El; unbind; [| discriminate].
    assert (S (length data) <= S (length (data ++ rest)))%nat as Hfuel
      by (rewrite length_app; lia).
    rewrite (grab_number_loop_app _ _ _ _ _ _ _ Hfuel El).
    unbind. destruct (b' =? 0); [exact H |].
    destruct (load data p) as [b2 | f] eqn:E2; unbind; [| discriminate].
    rewrite (load_app _ _ E2). unbind. exact H.
  - unbind. destruct (bits =? 0); [exact H |].
    destruct (load data (c_pos c)) as [b2 | f] eqn:E2; unbind; [| discriminate].
    rewrite (load_app _ _ E2). unbind. exact H.
Qed.

Lemma grab_unary_app (fuel : nat) :
  forall fuel' rice_len diff c v,
    (fuel <= fuel')%nat ->
    grab_unary data fuel rice_len diff c = Ok v ->
    grab_unary (data ++ rest) fuel' rice_len diff c = Ok v.
Proof.
  induction fuel as [| fuel IH]; intros fuel' rice_len diff c v Hle H;
    [discriminate |].
  destruct fuel' as [| fuel']; [lia |].
  cbn [grab_unary] in *.
  destruct (grab_bit data c) as [[bit c1] | f] eqn:E; unbind; [| discriminate].
  rewrite (grab_bit_app _ _ E). unbind.
  destruct (bit =? 0); [exact H |]. apply IH; [lia | exact H].
Qed.

Variable fmt : sample_fmt.
Variable def : btw_def.

Lemma decode_samples_app (n : nat) :
  forall i chan rice_len j prev c out olen v,
    decode_samples fmt data def n i chan rice_len j prev c out olen = Ok v ->
    decode_samples fmt (data ++ rest) def n i chan rice_len j prev c out olen = Ok v.
Proof.
  induction n as [| n IH]; intros i chan rice_len j prev c out olen v H;
    [exact H |].
  cbn [decode_samples] in *.
  destruct (grab_bit data c) as [[sign c1] | f] eqn:E1; unbind; [| discriminate].
  rewrite (grab_bit_app _ _ E1). unbind.
  destruct (grab_unary data (S (8 * length data)) rice_len 0 c1)
    as [[diff c2] | f] eqn:E2; unbind; [| discriminate].
  assert (S (8 * length data) <= S (8 * length (data ++ rest)))%nat as Hfuel
    by (rewrite length_app; lia).
  rewrite (grab_unary_app _ _ _ _ _ _ Hfuel E2).
  unbind.
  destruct (grab_number data c2 rice_len) as [[r c3] | f] eqn:E3; unbind;
    [| discriminate].
  rewrite (grab_number_app _ _ _ E3). unbind.
  cbv zeta in *.
  match type of H with
  | context [store ?o ?p ?x] =>
      destruct (store o p x) as [out1 | f]; unbind; [| discriminate]
  end.
  apply IH. exact H.
Qed.

Lemma decode_channels_app (n : nat) :
  forall i cap bprl chan c out olen v,
    decode_channels fmt data def n i cap bprl chan c out olen = Ok v ->
    decode_channels fmt (data ++ rest) def n i cap bprl chan c out olen = Ok v.
Proof.
  induction n as [| n IH]; intros i cap bprl chan c out olen v H; [exact H |].
  cbn [decode_channels] in *.
  destruct (grab_number data c bprl) as [[r c1] | f] eqn:E1; unbind; [| discriminate].
  rewrite (grab_number_app _ _ _ E1). unbind. cbv zeta in *.
  destruct (decode_samples fmt data def (Z.to_nat cap) i chan (wrap_s 32 r) 0 0 c1
              out olen) as [[[c2 out2] olen2] | f] eqn:E2; unbind; [| discriminate].
  rewrite (decode_samples_app _ _ _ _ _ _ _ _ _ _ E2). unbind.
  apply IH. exact H.
Qed.

Lemma decode_blocks_app (fuel : nat) :
  forall bprl i c out olen v,
    decode_blocks fmt data def fuel bprl i c out olen = Ok v ->
    decode_blocks fmt (data ++ rest) def fuel bprl i c out olen = Ok v.
Proof.
  induction fuel as [| fuel IH]; intros bprl i c out olen v H.
  - cbn [decode_blocks] in *. destruct (i <? sample_count def); [discriminate | exact H].
  - cbn [decode_blocks] in *. destruct (i <? sample_count def); [| exact H].
    cbv zeta in *. unfold decode_block in *.
    match type of H with
    | context [decode_channels fmt data def ?n ?i ?cap ?b ?ch ?c ?o ?l] =>
        destruct (decode_channels fmt data def n i cap b ch c o l)
          as [[[c1 out1] olen1] | f] eqn:E1; unbind; [| discriminate];
        rewrite (decode_channels_app _ _ _ _ _ _ _ _ _ E1)
    end.
    unbind. apply IH. exact H.
Qed.

Lemma decode_body_app (v : list (option Z) * Z) :
  decode_body fmt data def = Ok v -> decode_body fmt (data ++ rest) def = Ok v.
Proof.
  unfold decode_body. cbv zeta.
  destruct (bits_required (bits_per_sample def)) as [bprl | f]; unbind;
    [| discriminate].
  intros H.
  destruct (decode_blocks fmt data def (Z.to_nat (sample_count def)) bprl 0
              (mk_cursor 20 0) (decode_alloc fmt def) 0)
    as [[[c1 out1] olen1] | f] eqn:E1; unbind; [| discriminate].
  rewrite (decode_blocks_app _ _ _ _ _ _ _ E1). unbind. exact H.
Qed.

Lemma read_metadata_app (d0 : btw_def) (v : option btw_def) :
  btw_read_metadata (Some data) (Some d0) = Ok v ->
  btw_read_metadata (Some (data ++ rest)) (Some d0) = Ok v.
Proof.
  unfold btw_read_metadata. intros H.
  destruct (load data 0) as [b0 | f] eqn:E0; unbind; [| discriminate].
  rewrite (load_app _ _ E0). unbind.
  destruct (negb (b0 =? 98)); [exact H |].
  destruct (load data 1) as [b1 | f] eqn:E1; unbind; [| discriminate].
  rewrite (load_app _ _ E1). unbind.
  destruct (negb (b1 =? 116)); [exact H |].
  destruct (load data 2) as [b2 | f] eqn:E2; unbind; [| discriminate].
  rewrite (load_app _ _ E2). unbind.
  destruct (negb (b2 =? 119)); [exact H |].
  destruct (load data 3) as [b3 | f] eqn:E3; unbind; [| discriminate].
  rewrite (load_app _ _ E3). unbind.
  destruct (negb (b3 =? 102)); [exact H |].
  cbv zeta in *.
  destruct (grab_number data (mk_cursor 4 0) 64) as [[sc m1] | f] eqn:G1; unbind;
    [| discriminate].
  rewrite (grab_number_app _ _ _ G1). unbind.
  destruct (grab_number data m1 16) as [[ch m2] | f] eqn:G2; unbind; [| discriminate].
  rewrite (grab_number_app _ _ _ G2). unbind.
  destruct (grab_number data m2 16) as [[bps m3] | f] eqn:G3; unbind; [| discriminate].
  rewrite (grab_number_app _ _ _ G3). unbind.
  destruct (grab_number data m3 32) as [[sr m4] | f] eqn:G4; unbind; [| discriminate].
  rewrite (grab_number_app _ _ _ G4). unbind. exact H.
Qed.

End Trailing.

(** What [btw_decode] returns does not depend on the bytes that follow the
    ones it reads: when it decodes [data] without leaving it, it decodes
    [data] followed by any other bytes to the same parameters, the same
    samples and the same count. *)
Theorem decode_ignores_trailing (fmt : sample_fmt) (data rest : list Z)
    (d0 : btw_def) (r : option btw_def * option (list (option Z) * Z)) :
  btw_decode fmt (Some data) (Some d0) = Ok r ->
  btw_decode fmt (Some (data ++ rest)) (Some d0) = Ok r.
Proof.
  unfold btw_decode. intros H.
  destruct (btw_read_metadata (Some data) (Some d0)) as [d | f] eqn:E; unbind;
    [| discriminate].
  rewrite (read_metadata_app data rest d0 d E). unbind.
  destruct d as [d |]; [| exact H].
  destruct ((channels d =? 0) || (sample_rate d =? 0) || (sample_count d =? 0)
            || (bits_per_sample d =? 0)); [exact H |].
  destruct (decode_body fmt data d) as [v | f] eqn:Eb; unbind; [| discriminate].
  rewrite (decode_body_app data rest fmt d v Eb). unbind. exact H.
Qed.

(** A header for three stereo frames and six bytes of records, followed by
    bytes that are not part of the stream. *)
Lemma decode_ignores_trailing_witness :
  let data := [98; 116; 119; 102; 3; 0; 0; 0; 0; 0; 0; 0; 2; 0; 8; 0; 64; 31; 0; 0;
               165; 60; 90; 17; 0; 0] in
  btw_decode BTW_S16 (Some (data ++ [255; 1; 77])) (Some (mk_def 0 0 0 0))
  = Ok (Some (mk_def 2 8 8000 3),
        Some ([Some 5; Some 0; Some (-111); Some 0; Some (-116); Some 0], 6)).
Proof.
  intros data. apply decode_ignores_trailing. vm_compute. reflexivity.
Defined.

(** * The value of the stream *)

Lemma wspec_ret (buf : list Z) (c : cursor) :
  wf_w buf c -> wspec (Ok (buf, c)) buf c 0 0.
Proof.
  intros Hwf. pose proof Hwf as (Hb & Hc & Hle & Hlt).
  repeat split; try assumption; try apply Hc; lia.
Qed.

Lemma wspec_bind (r1 : result (list Z * cursor))
    (k : list Z * cursor -> result (list Z * cursor))
    (buf : list Z) (c : cursor) (n1 n2 n v1 v2 v : Z) :
  wf_w buf c -> 0 <= n1 -> 0 <= n2 -> n = n1 + n2 -> v = v1 + 2 ^ n1 * v2 ->
  wspec r1 buf c n1 v1 ->
  (forall buf1 c1,
      r1 = Ok (buf1, c1) -> wf_w buf1 c1 -> length buf1 = length buf ->
      cbits c1 = cbits c + n1 ->
      wspec (k (buf1, c1)) buf1 c1 n2 v2) ->
  wspec (mbind k r1) buf c n v.
Proof.
  intros Hwf Hn1 Hn2 -> -> H1 Hk.
  destruct r1 as [[buf1 c1] | f]; unbind.
  2:{ destruct H1 as [-> H1]. split; [reflexivity | lia]. }
  destruct H1 as (Hfit1 & Hwf1 & Hl1 & Hc1 & HS1).
  specialize (Hk buf1 c1 eq_refl Hwf1 Hl1 Hc1).
  destruct (k (buf1, c1)) as [[buf2 c2] | f].
  2:{ destruct Hk as [-> Hk]. split; [reflexivity |]. rewrite Hl1 in Hk. lia. }
  destruct Hk as (Hfit2 & Hwf2 & Hl2 & Hc2 & HS2).
  pose proof (wf_w_cbits _ _ Hwf).
  cbn [wspec]. split; [| split; [| split; [| split]]].
  - rewrite <- Hl1. lia.
  - exact Hwf2.
  - congruence.
  - lia.
  - rewrite HS2, HS1, Hc1. rewrite Z.pow_add_r by lia. ring.
Qed.

Section EncoderValue.

Variable samples : list Z.
Variable def : btw_def.
Hypothesis Hshape : shape_ok samples def.

Lemma encode_samples_value (n : nat) :
  forall i chan k l prev buf c,
    wf_w buf c -> 0 <= k <= 31 -> sample_ok prev ->
    readable samples def n i chan l ->
    wspec (encode_samples samples def n i chan k l prev buf c) buf c
      (codewords_bits k prev (channel_samples samples def n i chan l))
      (codewords_value k prev (channel_samples samples def n i chan l)).
Proof.
  pose proof (shape_samples _ _ Hshape) as Hsamples.
  induction n as [| n IH]; intros i chan k l prev buf c Hwf Hk Hprev Hr.
  - cbn. now apply wspec_ret.
  - destruct (readable_step _ _ _ _ _ _ Hr) as [E Hr'].
    cbn [encode_samples channel_samples codewords_bits codewords_value]. rewrite E. unbind.
    set (cur := sample_val samples def i l chan).
    pose proof (sample_val_ok samples def Hsamples i l chan) as Hcur. fold cur in Hcur.
    pose proof (abs_diff_bound cur prev Hcur Hprev) as Habs.
    rewrite BTW_abs_abs, rice_un_small by lia.
    rewrite (wrap_u_small 8 k) by (change (2 ^ 8) with 256; lia).
    unfold codeword_value, codeword_bits.
    set (d := Z.abs (cur - prev)) in *.
    set (q := Z.shiftr d k).
    pose proof (shiftr_bound d k ltac:(lia) ltac:(lia)) as Hq. fold q in Hq.
    set (B := codewords_bits k cur (channel_samples samples def n i chan (l + 1))).
    set (V := codewords_value k cur (channel_samples samples def n i chan (l + 1))).
    pose proof (codewords_bits_nonneg k
                  (channel_samples samples def n i chan (l + 1)) ltac:(lia) cur) as HB.
    fold B in HB.
    apply (wspec_bind _ _ _ _ 1 (q + (1 + (k + B))) _ (b2z (cur - prev <? 0))
             ((2 ^ q - 1) + 2 ^ q * (0 + 2 ^ 1 * (d mod 2 ^ k + 2 ^ k * V))));
      try assumption; try lia.
    { cbv zeta. rewrite !Z.pow_add_r by lia. ring. }
    { apply put_bit_spec; [assumption |].
      unfold b2z. destruct (cur - prev <? 0); lia. }
    intros buf1 c1 _ Hwf1 _ _. cbn beta iota.
    apply (wspec_bind _ _ _ _ q (1 + (k + B)) _ (2 ^ q - 1)
             (0 + 2 ^ 1 * (d mod 2 ^ k + 2 ^ k * V)));
      try assumption; try lia.
    { apply put_ones_spec; [assumption | lia]. }
    intros buf2 c2 _ Hwf2 _ _. cbn beta iota.
    apply (wspec_bind _ _ _ _ 1 (k + B) _ 0 (d mod 2 ^ k + 2 ^ k * V));
      try assumption; try lia.
    { apply put_bit_spec; [assumption | lia]. }
    intros buf3 c3 _ Hwf3 _ _. cbn beta iota.
    apply (wspec_bind _ _ _ _ k B _ (d mod 2 ^ k) V); try assumption; try lia.
    { apply put_number_spec; [assumption | lia]. }
    intros buf4 c4 _ Hwf4 _ _. cbn beta iota.
    apply IH; assumption.
Qed.

Lemma encode_channels_value (n : nat) :
  forall i cap bprl chan buf c,
    wf_w buf c -> 0 <= bprl < 256 -> 0 <= cap <= 512 ->
    (forall ch', chan <= ch' < chan + Z.of_nat n ->
                 readable samples def (Z.to_nat cap) i ch' 0) ->
    wspec (encode_channels samples def n i cap bprl chan buf c) buf c
      (channels_bits samples def n i cap bprl chan)
      (channels_value samples def n i cap bprl chan).
Proof.
  pose proof (shape_samples _ _ Hshape) as Hsamples.
  induction n as [| n IH]; intros i cap bprl chan buf c Hwf Hbprl Hcap Hr.
  - cbn. now apply wspec_ret.
  - cbn [encode_channels channels_bits channels_value]. cbv zeta.
    pose proof (Hr chan ltac:(lia)) as Hr0.
    rewrite av_diff_loop_spec by assumption. unbind.
    set (xs := channel_samples samples def (Z.to_nat cap) i chan 0).
    pose proof (channel_samples_ok samples def Hsamples (Z.to_nat cap) i chan 0) as Hxs.
    pose proof (channel_samples_length samples def (Z.to_nat cap) i chan 0) as Hlen.
    fold xs in Hxs, Hlen.
    destruct (spec_rice_len_bound xs Hxs ltac:(lia)) as [Hav Hk].
    pose proof (sum_abs_diff_bound xs Hxs 0 ltac:(unfold sample_ok; lia)) as Hsum.
    rewrite Z.add_0_l. unfold BTW_BLOCK_SIZE.
    rewrite Z.quot_div_nonneg by lia.
    assert (2 ^ 32 < 2 ^ 63) by (apply Z.pow_lt_mono_r; lia).
    rewrite bits_required_log2 by lia. unbind.
    change (Z.log2 (sum_abs_diff 0 xs / 512)) with (spec_rice_len xs).
    rewrite (wrap_u_small 8 bprl) by (change (2 ^ 8) with 256; lia).
    unfold record_bits, record_value.
    set (k := spec_rice_len xs) in *.
    pose proof (codewords_bits_nonneg k xs ltac:(lia) 0) as HB.
    pose proof (channels_bits_nonneg samples def Hsamples n i cap bprl (chan + 1)
                  Hbprl Hcap) as HC.
    apply (wspec_bind _ _ _ _ bprl
             (codewords_bits k 0 xs + channels_bits samples def n i cap bprl (chan + 1))
             _ (k mod 2 ^ bprl)
             (codewords_value k 0 xs
              + 2 ^ codewords_bits k 0 xs
                * channels_value samples def n i cap bprl (chan + 1)));
      try assumption; try lia.
    { rewrite !Z.pow_add_r by lia. ring. }
    { apply put_number_spec; [assumption | lia]. }
    intros buf1 c1 _ Hwf1 _ _. cbn beta iota.
    apply (wspec_bind _ _ _ _ (codewords_bits k 0 xs)
             (channels_bits samples def n i cap bprl (chan + 1))
             _ (codewords_value k 0 xs)
             (channels_value samples def n i cap bprl (chan + 1)));
      try assumption; try lia.
    { apply encode_samples_value; try assumption; try lia. unfold sample_ok; lia. }
    intros buf2 c2 _ Hwf2 _ _. cbn beta iota.
    apply IH; try assumption. intros ch' Hch'. apply Hr. lia.
Qed.

Lemma encode_blocks_value (fuel : nat) :
  forall bprl i buf c,
    wf_w buf c -> 0 <= bprl < 256 -> 0 <= i <= sample_count def ->
    sample_count def - i <= Z.of_nat fuel ->
    wspec (encode_blocks samples def fuel bprl i buf c) buf c
      (blocks_bits samples def fuel bprl i) (blocks_value samples def fuel bprl i).
Proof.
  pose proof (shape_samples _ _ Hshape) as Hsamples.
  induction fuel as [| fuel IH]; intros bprl i buf c Hwf Hbprl Hi Hfuel.
  - cbn [encode_blocks blocks_bits blocks_value].
    destruct (Z.ltb_spec i (sample_count def)); [lia |]. now apply wspec_ret.
  - cbn [encode_blocks blocks_bits blocks_value].
    destruct (Z.ltb_spec i (sample_count def)) as [Hlt | Hge];
      [| now apply wspec_ret].
    cbv zeta. unfold BTW_BLOCK_SIZE.
    assert ((if sample_count def - i <? 512
             then wrap_u 32 (sample_count def - i) else 512)
            = Z.min 512 (sample_count def - i)) as ->.
    { destruct (Z.ltb_spec (sample_count def - i) 512).
      - rewrite wrap_u_small by (change (2 ^ 32) with 4294967296; lia). lia.
      - lia. }
    set (cap := Z.min 512 (sample_count def - i)).
    assert (0 < cap <= 512 /\ i + cap <= sample_count def) as [Hcap Hle]
      by (unfold cap; lia).
    pose proof (channels_bits_nonneg samples def Hsamples
                  (Z.to_nat (channels def)) i cap bprl 0 Hbprl ltac:(lia)) as HC.
    pose proof (blocks_bits_nonneg samples def Hshape fuel bprl Hbprl (i + cap)) as HB.
    apply (wspec_bind _ _ _ _
             (channels_bits samples def (Z.to_nat (channels def)) i cap bprl 0)
             (blocks_bits samples def fuel bprl (i + cap))
             _ (channels_value samples def (Z.to_nat (channels def)) i cap bprl 0)
             (blocks_value samples def fuel bprl (i + cap)));
      try assumption; try lia.
    { apply encode_channels_value; try assumption; try lia.
      intros ch' Hch'. destruct Hshape as (Hch & _).
      apply (block_readable samples def Hshape); lia. }
    intros buf1 c1 _ Hwf1 _ _. cbn beta iota.
    apply IH; try assumption; lia.
Qed.

End EncoderValue.

(** The stream [btw_encode] returns is, bit for bit, the one the format
    describes: read as a little-endian number, the buffer is
    [stream_value], the header followed by the records of all blocks, each
    the low [bit_length bits_per_sample] bits of the Rice parameter
    followed, per sample, by the sign bit, the quotient in ones, a zero
    and the remainder; byte [k] of the buffer is bits [8 k] to [8 k + 7]
    of that number. *)
Theorem encode_stream_value (samples : list Z) (def : btw_def) (buf : list Z)
    (n len0 : Z) :
  shape_ok samples def ->
  btw_encode (Some samples) (Some def) (Some len0) = Ok (buf, n) ->
  le_combine buf = stream_value samples def
  /\ 0 <= stream_value samples def < 2 ^ stream_bits samples def
  /\ forall k : nat,
       (k < length buf)%nat ->
       buf !! k = Some ((stream_value samples def / 2 ^ (8 * Z.of_nat k)) mod 256).
Proof.
  intros Hshape Henc.
  pose proof Hshape as (Hch & Hbps & Hsr & Hsc & Hlen & Hprod & Hsamples).
  pose proof (max_len_range def) as Hmax.
  pose proof (encode_body_spec samples def Hshape) as Hspec.
  rewrite encode_valid in Henc by assumption. rewrite Henc in Hspec.
  destruct Hspec as (Hfits & Hb & Hl & _ & Hrange & _).
  assert (le_combine buf = stream_value samples def) as Hval.
  { unfold encode_body in Henc.
    destruct (bits_per_rice_len_ok samples def Hshape) as [Ebprl Hbprl].
    rewrite Ebprl in Henc. unbind.
    destruct (put_header_spec def (Z.to_nat (max_len def)) ltac:(lia) ltac:(lia))
      as (b5 & E5 & Hwf5 & Hl5 & HS5).
    rewrite E5 in Henc. unbind. cbn [c_pos] in Henc.
    pose proof (encode_blocks_value samples def Hshape (Z.to_nat (sample_count def))
                  (bit_length (bits_per_sample def)) 0 b5 (mk_cursor 20 0)
                  Hwf5 ltac:(lia) ltac:(lia) ltac:(lia)) as W.
    destruct (encode_blocks samples def (Z.to_nat (sample_count def))
                (bit_length (bits_per_sample def)) 0 b5 (mk_cursor 20 0))
      as [[buf' c] | f]; unbind; [| discriminate].
    injection Henc as <- _.
    destruct W as (_ & _ & _ & _ & HS).
    rewrite HS, HS5. unfold stream_value, BTW_HEADER_SIZE.
    change (cbits (mk_cursor 20 0)) with 160. change (8 * 20) with 160. ring. }
  split; [exact Hval |]. split; [rewrite <- Hval; exact Hrange |].
  intros k Hk. destruct (lookup_lt_is_Some_2 buf k Hk) as [b E]. rewrite E. f_equal.
  rewrite <- Hval. exact (le_combine_lookup buf Hb k b E).
Qed.

(** One channel of three 8-bit samples 5, 2, 2: the Rice parameter 0 in
    3 bits, then the codewords of +5, -3 and 0. *)
Lemma encode_stream_value_witness :
  let samples := [5; 2; 2] in
  let def := mk_def 1 8 8000 3 in
  exists buf n,
    btw_encode (Some samples) (Some def) (Some 0) = Ok (buf, n)
    /\ stream_value samples def
       = header_value def
         + 2 ^ 160 * (0 + 2 ^ 3 * (62 + 2 ^ 7 * (15 + 2 ^ 5 * 0)))
    /\ buf !! 20%nat = Some 240 /\ buf !! 21%nat = Some 61
    /\ buf !! 22%nat = Some 0.
Proof.
  intros samples def.
  assert (exists buf n, btw_encode (Some samples) (Some def) (Some 0) = Ok (buf, n))
    as (buf & n & E) by (vm_compute; eexists _, _; reflexivity).
  assert (shape_ok samples def) as Hshape by (apply shape_intro; vm_compute; reflexivity).
  destruct (encode_stream_value samples def buf n 0 Hshape E) as (_ & _ & Hbytes).
  assert (Z.of_nat (length buf) = max_len def) as Hl.
  { pose proof (encode_body_spec samples def Hshape) as Hspec.
    rewrite encode_valid in E by assumption. rewrite E in Hspec. apply Hspec. }
  assert (max_len def = 1027) as Hm by (vm_compute; reflexivity).
  exists buf, n. split; [exact E |]. split; [vm_compute; reflexivity |].
  split; [| split]; (rewrite Hbytes by lia; vm_compute; reflexivity).
Defined.

(** * Streams without a header *)

Section FromByte.

Variable data data' : list Z.
Variable p : Z.
Hypothesis Hlen : length data = length data'.
Hypothesis Hsame : forall k : nat, p <= Z.of_nat k -> data !! k = data' !! k.

Lemma load_from (pos : Z) : p <= pos -> load data pos = load data' pos.
Proof.
  intros Hp. unfold load. destruct (Z.ltb_spec pos 0); [reflexivity |].
  rewrite Hsame by lia. reflexivity.
Qed.

Lemma grab_bit_from (c : cursor) :
  p <= c_pos c ->
  grab_bit data c = grab_bit data' c
  /\ forall v c', grab_bit data c = Ok (v, c') -> p <= c_pos c'.
Proof.
  intros Hp. unfold grab_bit. rewrite (load_from _ Hp).
  split; [reflexivity |]. intros v c' H.
  destruct (load data' (c_pos c)); unbind; [| discriminate].
  injection H as _ <-. cbn [c_pos].
  destruct (Z.rem (c_bit c + 1) 8 =? 0); cbn [b2z]; lia.
Qed.

Lemma grab_number_loop_from (fuel : nat) :
  forall in_pos bits tally r,
    p <= in_pos ->
    grab_number_loop fuel data in_pos bits tally r
    = grab_number_loop fuel data' in_pos bits tally r
    /\ forall in_pos' bits' tally' r',
         grab_number_loop fuel data in_pos bits tally r
         = Ok (in_pos', bits', tally', r') ->
         p <= in_pos'.
Proof.
  induction fuel as [| fuel IH]; intros in_pos bits tally r Hp;
    cbn [grab_number_loop]; destruct (8 <=? bits).
  - split; [reflexivity | discriminate].
  - split; [reflexivity |]. intros ? ? ? ? H. injection H as <- _ _ _. exact Hp.
  - rewrite (load_from _ Hp).
    destruct (load data' in_pos) as [b | f]; unbind; [| split; [reflexivity | discriminate]].
    apply IH. lia.
  - split; [reflexivity |]. intros ? ? ? ? H. injection H as <- _ _ _. exact Hp.
Qed.

Lemma grab_number_from (c : cursor) (bits : Z) :
  p <= c_pos c ->
  grab_number data c bits = grab_number data' c bits
  /\ forall v c', grab_number data c bits = Ok (v, c') -> p <= c_pos c'.
Proof.
  intros Hp. unfold grab_number. rewrite <- Hlen.
  destruct (8 - c_bit c <? bits).
  - rewrite (load_from _ Hp).
    destruct (load data' (c_pos c)) as [b | f]; unbind;
      [| split; [reflexivity | discriminate]].
    destruct (grab_number_loop_from (S (length data)) (c_pos c + 1)
                (bits - (8 - c_bit c)) (8 - c_bit c) (Z.shiftr b (c_bit c))
                ltac:(lia)) as [E Hpos].
    rewrite <- E.
    destruct (grab_number_loop (S (length data)) data (c_pos c + 1)
                (bits - (8 - c_bit c)) (8 - c_bit c) (Z.shiftr b (c_bit c)))
      as [[[[ip b'] t] r] | f]; unbind; [| split; [reflexivity | discriminate]].
    specialize (Hpos ip b' t r eq_refl).
    destruct (b' =? 0).
    + split; [reflexivity |]. intros v c' H. injection H as _ <-. exact Hpos.
    + rewrite (load_from _ Hpos).
      destruct (load data' ip) as [b2 | f]; unbind;
        [| split; [reflexivity | discriminate]].
      split; [reflexivity |]. intros v c' H. injection H as _ <-. cbn [c_pos].
      destruct (Z.rem (0 + b') 8 =? 0); cbn [b2z]; lia.
  - unbind. destruct (bits =? 0).
    + split; [reflexivity |]. intros v c' H. injection H as _ <-. exact Hp.
    + rewrite (load_from _ Hp).
      destruct (load data' (c_pos c)) as [b2 | f]; unbind;
        [| split; [reflexivity | discriminate]].
      split; [reflexivity |]. intros v c' H. injection H as _ <-. cbn [c_pos].
      destruct (Z.rem (c_bit c + bits) 8 =? 0); cbn [b2z]; lia.
Qed.

Lemma grab_unary_from (fuel : nat) :
  forall rice_len diff c,
    p <= c_pos c ->
    grab_unary data fuel rice_len diff c = grab_unary data' fuel rice_len diff c
    /\ forall v c', grab_unary data fuel rice_len diff c = Ok (v, c') -> p <= c_pos c'.
Proof.
  induction fuel as [| fuel IH]; intros rice_len diff c Hp; cbn [grab_unary].
  - split; [reflexivity | discriminate].
  - destruct (grab_bit_from c Hp) as [E Hpos]. rewrite <- E.
    destruct (grab_bit data c) as [[bit c1] | f]; unbind;
      [| split; [reflexivity | discriminate]].
    specialize (Hpos bit c1 eq_refl).
    destruct (bit =? 0).
    + split; [reflexivity |]. intros v c' H. injection H as _ <-. exact Hpos.
    + apply IH. exact Hpos.
Qed.

Variable fmt : sample_fmt.
Variable def : btw_def.

Lemma decode_samples_from (n : nat) :
  forall i chan rice_len j prev c out olen,
    p <= c_pos c ->
    decode_samples fmt data def n i chan rice_len j prev c out olen
    = decode_samples fmt data' def n i chan rice_len j prev c out olen
    /\ forall c' out' olen',
         decode_samples fmt data def n i chan rice_len j prev c out olen
         = Ok (c', out', olen') ->
         p <= c_pos c'.
Proof.
  induction n as [| n IH]; intros i chan rice_len j prev c out olen Hp;
    cbn [decode_samples].
  - split; [reflexivity |]. intros ? ? ? H. injection H as <- _ _. exact Hp.
  - destruct (grab_bit_from c Hp) as [E1 Hp1]. rewrite <- E1, <- Hlen.
    destruct (grab_bit data c) as [[sign c1] | f]; unbind;
      [| split; [reflexivity | discriminate]].
    specialize (Hp1 sign c1 eq_refl).
    destruct (grab_unary_from (S (8 * length data)) rice_len 0 c1 Hp1) as [E2 Hp2].
    rewrite <- E2.
    destruct (grab_unary data (S (8 * length data)) rice_len 0 c1)
      as [[diff c2] | f]; unbind; [| split; [reflexivity | discriminate]].
    specialize (Hp2 diff c2 eq_refl).
    destruct (grab_number_from c2 rice_len Hp2) as [E3 Hp3]. rewrite <- E3.
    destruct (grab_number data c2 rice_len) as [[r c3] | f]; unbind;
      [| split; [reflexivity | discriminate]].
    specialize (Hp3 r c3 eq_refl). cbv zeta.
    match goal with
    | |- context [store ?o ?q ?x] =>
        destruct (store o q x) as [out1 | f]; unbind;
          [| split; [reflexivity | discriminate]]
    end.
    apply IH. exact Hp3.
Qed.

Lemma decode_channels_from (n : nat) :
  forall i cap bprl chan c out olen,
    p <= c_pos c ->
    decode_channels fmt data def n i cap bprl chan c out olen
    = decode_channels fmt data' def n i cap bprl chan c out olen
    /\ forall c' out' olen',
         decode_channels fmt data def n i cap bprl chan c out olen
         = Ok (c', out', olen') ->
         p <= c_pos c'.
Proof.
  induction n as [| n IH]; intros i cap bprl chan c out olen Hp;
    cbn [decode_channels].
  - split; [reflexivity |]. intros ? ? ? H. injection H as <- _ _. exact Hp.
  - destruct (grab_number_from c bprl Hp) as [E1 Hp1]. rewrite <- E1.
    destruct (grab_number data c bprl) as [[r c1] | f]; unbind;
      [| split; [reflexivity | discriminate]].
    specialize (Hp1 r c1 eq_refl). cbv zeta.
    destruct (decode_samples_from (Z.to_nat cap) i chan (wrap_s 32 r) 0 0 c1 out olen
                Hp1) as [E2 Hp2].
    rewrite <- E2.
    destruct (decode_samples fmt data def (Z.to_nat cap) i chan (wrap_s 32 r) 0 0 c1
                out olen) as [[[c2 out2] olen2] | f]; unbind;
      [| split; [reflexivity | discriminate]].
    apply IH. exact (Hp2 c2 out2 olen2 eq_refl).
Qed.

Lemma decode_blocks_from (fuel : nat) :
  forall bprl i c out olen,
    p <= c_pos c ->
    decode_blocks fmt data def fuel bprl i c out olen
    = decode_blocks fmt data' def fuel bprl i c out olen.
Proof.
  induction fuel as [| fuel IH]; intros bprl i c out olen Hp; cbn [decode_blocks];
    [reflexivity |].
  destruct (i <? sample_count def); [| reflexivity].
  cbv zeta. unfold decode_block.
  match goal with
  | |- context [decode_channels fmt data def ?n ?i ?cap ?b ?ch ?c ?o ?l] =>
      destruct (decode_channels_from n i cap b ch c o l Hp) as [E Hp1];
      rewrite <- E;
      destruct (decode_channels fmt data def n i cap b ch c o l)
        as [[[c1 out1] olen1] | f]; unbind; [| reflexivity]
  end.
  apply IH. cbn [c_pos]. specialize (Hp1 c1 out1 olen1 eq_refl).
  destruct (negb (c_bit c1 =? 0)); cbn [b2z]; lia.
Qed.

End FromByte.

(** [btw_decode] reads the records from byte 20 on, whatever the 20 bytes
    before them hold. *)
Lemma decode_body_header (fmt : sample_fmt) (h h' body : list Z) (d : btw_def) :
  length h = 20%nat -> length h' = 20%nat ->
  decode_body fmt (h ++ body) d = decode_body fmt (h' ++ body) d.
Proof.
  intros Hh Hh'. unfold decode_body. cbv zeta.
  destruct (bits_required (bits_per_sample d)) as [bprl | f]; unbind; [| reflexivity].
  rewrite (decode_blocks_from (h ++ body) (h' ++ body) 20); [reflexivity | | | ].
  - rewrite !length_app. lia.
  - intros k Hk. rewrite !lookup_app_r by lia. rewrite Hh, Hh'. reflexivity.
  - cbn. lia.
Qed.

(** A stream needs no header: what [btw_decode] returns for a stream, the
    parameters and the samples, it also returns when the 20 bytes of the
    header are replaced by any 20 bytes that do not begin with the magic
    and the parameters are passed in [*def] instead. *)
Theorem headerless_decode (fmt : sample_fmt) (h h' body : list Z)
    (d0 d : btw_def) (r : option (list (option Z) * Z)) :
  length h = 20%nat -> length h' = 20%nat ->
  take 4 h <> [98; 116; 119; 102] ->
  btw_decode fmt (Some (h' ++ body)) (Some d0) = Ok (Some d, r) ->
  btw_decode fmt (Some (h ++ body)) (Some d) = Ok (Some d, r).
Proof.
  intros Hh Hh' Hmagic H. unfold btw_decode in *.
  rewrite (read_metadata_mismatch (h ++ body) d).
  2:{ rewrite length_app. lia. }
  2:{ rewrite take_app_le by lia. exact Hmagic. }
  unbind.
  destruct (btw_read_metadata (Some (h' ++ body)) (Some d0)) as [[d1 |] | f];
    unbind; try discriminate.
  assert (d1 = d) as ->.
  { destruct ((channels d1 =? 0) || (sample_rate d1 =? 0) || (sample_count d1 =? 0)
              || (bits_per_sample d1 =? 0)); [congruence |].
    destruct (decode_body fmt (h' ++ body) d1); unbind; congruence. }
  destruct ((channels d =? 0) || (sample_rate d =? 0) || (sample_count d =? 0)
            || (bits_per_sample d =? 0)); [exact H |].
  rewrite (decode_body_header fmt h h' body d Hh Hh'). exact H.
Qed.

(** Three stereo frames: the header replaced by 20 zero bytes, and the
    parameters given by the caller. *)
Lemma headerless_decode_witness :
  let body := [165; 60; 90; 17; 0; 0] in
  btw_decode BTW_S16 (Some (replicate 20 0 ++ body)) (Some (mk_def 2 8 8000 3))
  = Ok (Some (mk_def 2 8 8000 3),
        Some ([Some 5; Some 0; Some (-111); Some 0; Some (-116); Some 0], 6)).
Proof.
  intros body.
  apply (headerless_decode BTW_S16 (replicate 20 0)
           [98; 116; 119; 102; 3; 0; 0; 0; 0; 0; 0; 0; 2; 0; 8; 0; 64; 31; 0; 0]
           body (mk_def 0 0 0 0)).
  - reflexivity.
  - reflexivity.
  - cbn. discriminate.
  - vm_compute. reflexivity.
Defined.

(** * Truncated streams *)

Section Within.

Variable fmt : sample_fmt.
Variable data : list Z.
Variable d : btw_def.
Hypothesis Hdata : bytes_ok data.

(** A decoder that returns has not moved its cursor beyond the stream. *)
Lemma decode_samples_within (n : nat) :
  forall i chan k j prev c out olen c' out' olen',
    cursor_ok c -> cbits c <= 8 * Z.of_nat (length data) -> 0 <= k ->
    decode_samples fmt data d n i chan k j prev c out olen = Ok (c', out', olen') ->
    cursor_ok c' /\ cbits c' <= 8 * Z.of_nat (length data).
Proof.
  induction n as [| n IH];
    intros i chan k j prev c out olen c' out' olen' Hc Hle Hk H.
  - cbn in H. injection H as <- _ _. auto.
  - cbn [decode_samples] in H.
    pose proof (grab_bit_shape data c Hc) as H1.
    destruct (grab_bit data c) as [[sign c1] | f]; unbind; [| discriminate].
    destruct H1 as (Hin1 & Hc1 & Hb1).
    pose proof (cbits_nonneg c Hc) as Hn0.
    pose proof (grab_unary_shape data (S (8 * length data)) k 0 c1 Hc1
                  ltac:(lia) ltac:(lia)) as H2.
    destruct (grab_unary data (S (8 * length data)) k 0 c1) as [[diff c2] | f];
      unbind; [| discriminate].
    destruct H2 as (Hc2 & Hb2).
    pose proof (grab_number_shape data c2 k Hc2 Hk ltac:(lia)) as H3.
    destruct (grab_number data c2 k) as [[r c3] | f]; unbind; [| discriminate].
    destruct H3 as (Hin3 & Hc3 & Hb3).
    cbv zeta in H.
    match type of H with
    | context [store ?o ?q ?x] =>
        destruct (store o q x) as [out1 | f]; unbind; [| discriminate]
    end.
    apply IH in H; try assumption; lia.
Qed.

Lemma decode_channels_within (n : nat) :
  forall i cap bprl chan c out olen c' out' olen',
    cursor_ok c -> cbits c <= 8 * Z.of_nat (length data) -> 0 <= bprl <= 31 ->
    decode_channels fmt data d n i cap bprl chan c out olen = Ok (c', out', olen') ->
    cursor_ok c' /\ cbits c' <= 8 * Z.of_nat (length data).
Proof.
  induction n as [| n IH];
    intros i cap bprl chan c out olen c' out' olen' Hc Hle Hbprl H.
  - cbn in H. injection H as <- _ _. auto.
  - cbn [decode_channels] in H.
    pose proof (grab_small data c bprl Hdata Hc Hbprl) as H1.
    pose proof (grab_number_shape data c bprl Hc ltac:(lia) Hle) as H1'.
    destruct (grab_number data c bprl) as [[r c1] | f]; unbind; [| discriminate].
    destruct H1 as (Hr & Hc1). destruct H1' as (Hin1 & _ & Hb1).
    cbv zeta in H.
    rewrite (wrap_s_small 32 r) in H by (change (2 ^ (32 - 1)) with (2 ^ 31); lia).
    destruct (decode_samples fmt data d (Z.to_nat cap) i chan r 0 0 c1 out olen)
      as [[[c2 out2] olen2] | f] eqn:E2; unbind; [| discriminate].
    apply decode_samples_within in E2; try assumption; try lia.
    destruct E2 as [Hc2 Hb2].
    apply IH in H; assumption.
Qed.

Lemma decode_blocks_within (fuel : nat) :
  forall bprl i c out olen c' out' olen',
    cursor_ok c -> cbits c <= 8 * Z.of_nat (length data) -> 0 <= bprl <= 31 ->
    decode_blocks fmt data d fuel bprl i c out olen = Ok (c', out', olen') ->
    cursor_ok c' /\ cbits c' <= 8 * Z.of_nat (length data).
Proof.
  induction fuel as [| fuel IH];
    intros bprl i c out olen c' out' olen' Hc Hle Hbprl H; cbn [decode_blocks] in H.
  - destruct (i <? sample_count d); [discriminate |]. injection H as <- _ _. auto.
  - destruct (i <? sample_count d); [| injection H as <- _ _; auto].
    cbv zeta in H. unfold decode_block in H.
    match type of H with
    | context [decode_channels fmt data d ?n ?i ?cap ?b ?ch ?c ?o ?l] =>
        destruct (decode_channels fmt data d n i cap b ch c o l)
          as [[[c1 out1] olen1] | f] eqn:E1; unbind; [| discriminate]
    end.
    apply decode_channels_within in E1; try assumption.
    destruct E1 as [[Hp1 Hb1] Hle1].
    apply IH in H; try assumption.
    + unfold cursor_ok. cbn [c_pos c_bit].
      destruct (negb (c_bit c1 =? 0)); cbn [b2z]; lia.
    + unfold cbits in *. cbn [c_pos c_bit].
      destruct (Z.eqb_spec (c_bit c1) 0); cbn [negb b2z]; lia.
Qed.

End Within.

(** A stream cut short is not decoded: under the conditions of the round
    trip, [btw_encode] returns a stream, and [btw_decode] on the first [m]
    bytes of it, with [m] at least the 20 bytes of the header and below the
    count that [btw_encode] returned, reads beyond these [m] bytes and
    returns nothing. *)
Theorem truncated_stream_overread (fmt : sample_fmt) (samples : list Z)
    (def : btw_def) (len0 : Z) :
  shape_ok samples def -> Forall (in_fmt fmt) samples ->
  channels def < 2 ^ 16 -> bits_per_sample def < 2 ^ 16 ->
  sample_rate def < 2 ^ 31 -> sample_count def < 2 ^ 31 ->
  (forall i chan,
      0 <= i < sample_count def -> i mod BTW_BLOCK_SIZE = 0 ->
      0 <= chan < channels def ->
      rice_fits samples def i (Z.min BTW_BLOCK_SIZE (sample_count def - i)) chan) ->
  (forall i,
      0 <= i -> i mod BTW_BLOCK_SIZE = 0 -> i + BTW_BLOCK_SIZE < sample_count def ->
      channels_bits samples def (Z.to_nat (channels def)) i BTW_BLOCK_SIZE
        (bit_length (bits_per_sample def)) 0 mod 8 = 0) ->
  stream_bits samples def <= 8 * max_len def ->
  exists buf n,
    btw_encode (Some samples) (Some def) (Some len0) = Ok (buf, n)
    /\ forall (m : nat) d0,
         def_ok d0 -> 20 <= Z.of_nat m < n ->
         btw_decode fmt (Some (take m buf)) (Some d0) = Fault OutOfBounds.
Proof.
  intros Hshape Hfmt Hch16 Hbps16 Hsr31 Hsc31 Hrice Haligned Hfits.
  pose proof Hshape as (Hch & Hbps & Hsr & Hsc & Hlen & Hprod & Hsamples).
  destruct (encode_run samples def Hshape Hfits)
    as (b5 & buf & c & Hwf5 & HS5 & Henc & Hwf & Hc & E).
  exists buf, ((cbits c + 7) / 8). rewrite encode_valid by assumption.
  split; [exact E |].
  intros m d0 Hd0 Hm.
  assert (bytes_ok (take m buf)) as Hdata by (apply bytes_ok_take, Hwf).
  pose proof (btw_decode_ends fmt (take m buf) d0 Hd0 Hdata) as Hends.
  destruct (btw_decode fmt (Some (take m buf)) (Some d0)) as [r | f] eqn:D;
    [exfalso | now rewrite Hends].
  clear Hends. unfold btw_decode in D.
  assert (btw_encode (Some samples) (Some def) (Some len0) = Ok (buf, (cbits c + 7) / 8)) as E'
    by (rewrite encode_valid by assumption; exact E).
  rewrite (read_encoded samples def buf _ len0 Hshape Hsc31
             ltac:(rewrite Z.mod_small by (change (2 ^ 32) with 4294967296;
                                           change (2 ^ 31) with 2147483648 in *; lia);
                   assumption) E' m d0 ltac:(lia)) in D.
  rewrite !Z.mod_small in D by (change (2 ^ 32) with 4294967296;
                                change (2 ^ 31) with 2147483648 in *; lia).
  rewrite def_eta in D. unbind. rewrite fields_nonzero in D by lia.
  unfold decode_body in D.
  destruct (bits_per_rice_len_ok samples def Hshape) as [Ebprl Hbprl].
  rewrite Ebprl in D. unbind.
  rewrite (decode_alloc_exact fmt samples def Hshape) in D
    by (change (2 ^ 16) with 65536 in *; change (2 ^ 31) with 2147483648 in *;
        change (2 ^ 62) with 4611686018427387904; nia).
  destruct (decode_blocks fmt (take m buf) def (Z.to_nat (sample_count def))
              (bit_length (bits_per_sample def)) 0 (mk_cursor 20 0)
              (replicate (length samples) None) 0)
    as [[[cd out] olen] | f] eqn:Db; unbind; [| discriminate].
  clear D.
  (* the cursor has stayed inside the [m] bytes *)
  pose proof (max_len_range def) as Hmax.
  assert (Z.of_nat (length buf) = max_len def) as Hlbuf.
  { pose proof (encode_body_spec samples def Hshape) as Hspec. rewrite E in Hspec.
    apply Hspec. }
  assert ((cbits c + 7) / 8 <= Z.of_nat (length buf)) as Hnle.
  { destruct Hwf as (_ & _ & Hle & _).
    assert ((cbits c + 7) / 8 < Z.of_nat (length buf) + 1); [| lia].
    apply Z.div_lt_upper_bound; lia. }
  assert (Z.of_nat (length (take m buf)) = Z.of_nat m) as Hlm
    by (rewrite length_take; lia).
  assert (cursor_ok cd /\ cbits cd <= 8 * Z.of_nat (length (take m buf))) as [_ Hin].
  { eapply (decode_blocks_within fmt (take m buf) def Hdata); [| | | exact Db].
    - unfold cursor_ok; cbn; lia.
    - unfold cbits; cbn [c_pos c_bit]; lia.
    - lia. }
  rewrite Hlm in Hin.
  (* on the whole buffer the same run ends where the stream ends *)
  apply (decode_blocks_app (take m buf) (drop m buf)) in Db.
  rewrite take_drop in Db.
  destruct (decode_blocks_pair fmt samples def buf Hshape Hfmt Hrice Haligned
              (Z.to_nat (sample_count def)) 0 b5 (mk_cursor 20 0) buf c
              (replicate (length samples) None) Hwf5 ltac:(lia) eq_refl ltac:(lia)
              eq_refl Henc (extends_self buf c Hwf) ltac:(apply length_replicate))
    as (cd' & out' & D' & _ & _ & _ & Hcd).
  change (0 * channels def) with 0 in D'. rewrite D' in Db.
  injection Db as <- _ _. rewrite (Hcd ltac:(lia)) in Hin.
  unfold cbits in Hin at 1. cbn [c_pos c_bit] in Hin. lia.
Qed.

(** Two channels of 513 frames in two blocks take 280 bytes: the stream
    is not decoded from its first 279 bytes, nor from its header alone. *)
Lemma truncated_stream_overread_witness :
  let samples := replicate 1024 0 ++ [5; -3] in
  let def := mk_def 2 16 44100 513 in
  exists buf,
    btw_encode (Some samples) (Some def) (Some 0) = Ok (buf, 280)
    /\ btw_decode BTW_S16 (Some (take 279 buf)) (Some (mk_def 0 0 0 0))
       = Fault OutOfBounds
    /\ btw_decode BTW_S16 (Some (take 20 buf)) (Some (mk_def 0 0 0 0))
       = Fault OutOfBounds.
Proof.
  intros samples def.
  destruct (truncated_stream_overread BTW_S16 samples def 0) as (buf & n & E & D).
  - apply shape_intro; vm_compute; reflexivity.
  - apply fmt_intro; vm_compute; reflexivity.
  - vm_compute; reflexivity.
  - vm_compute; reflexivity.
  - vm_compute; reflexivity.
  - vm_compute; reflexivity.
  - intros i chan Hi Himod Hchan. unfold BTW_BLOCK_SIZE in *.
    assert (i = 0 \/ i = 512) as Ei.
    { cbn in Hi. pose proof (Z.div_mod i 512 ltac:(lia)). lia. }
    assert (chan = 0 \/ chan = 1) as Ec by (cbn in Hchan; lia).
    destruct Ei as [-> | ->], Ec as [-> | ->];
      apply rice_fits_intro; vm_compute; reflexivity.
  - intros i Hi Himod Hlt. unfold BTW_BLOCK_SIZE in *.
    assert (i = 0) as -> by (cbn in Hlt; pose proof (Z.div_mod i 512 ltac:(lia)); lia).
    vm_compute. reflexivity.
  - vm_compute; discriminate.
  - assert (exists buf', btw_encode (Some samples) (Some def) (Some 0) = Ok (buf', 280))
      as (buf' & E2) by (vm_compute; eexists; reflexivity).
    rewrite E in E2. injection E2 as <- ->.
    exists buf. split; [exact E |].
    split; apply D; try (unfold def_ok; cbn; lia); lia.
Defined.
